(** * Browser session and extraction subsystem of the Instagram tracker

    A shallow embedding of the tab registry ([chrome-actions]), the action
    dispatcher (click, scroll, wait, navigate, screenshot, DOM snapshot) and
    the snapshot sanitizer ([cleanHtml]), followed by the properties proved
    about them.

    Conventions.
    - A JavaScript string is a [string]; a character stands for one code
      unit below 256.
    - Module level variables ([globalBrowser], [globalPages]) and the
      external sinks are fields of one [World] record that every operation
      threads; a thrown exception keeps the world reached so far.
    - The browser engine (puppeteer, the file system) is a record [Engine]
      of answers, one per call the code makes: either a value or a thrown
      value. *)

From Stdlib Require Import String Ascii List ZArith Lia Bool Arith.
Import ListNotations.
Open Scope string_scope.
Open Scope nat_scope.

(* ===================================================================== *)
(** ** JavaScript strings *)
(* ===================================================================== *)

Module Js.
#[local] Open Scope N_scope.

Definition code (c : ascii) : N := N_of_ascii c.

(** [\s] of regular expressions and the characters [trim] strips: TAB, LF,
    VT, FF, CR, SPACE and NBSP are the ones below 256. *)
Definition isSpace (c : ascii) : bool :=
  let n := code c in
  ((9 <=? n) && (n <=? 13)) || (n =? 32) || (n =? 160).

(** [String.prototype.toLowerCase], one code unit at a time: A-Z, and the
    Latin-1 capitals U+00C0..U+00DE except the multiplication sign. *)
Definition lowerChar (c : ascii) : ascii :=
  let n := code c in
  if ((65 <=? n) && (n <=? 90))
     || ((192 <=? n) && (n <=? 222) && negb (n =? 215))
  then ascii_of_N (n + 32) else c.

Fixpoint toLowerCase (s : string) : string :=
  match s with
  | EmptyString => EmptyString
  | String c s' => String (lowerChar c) (toLowerCase s')
  end.

(** [Canonicalize] of a non-unicode, ignore-case regular expression. The
    patterns of this program only compare against ASCII characters, and a
    code unit of 128 or more never canonicalizes to one below 128, so
    upper-casing a-z is all that can be observed. *)
Definition canonicalize (c : ascii) : ascii :=
  let n := code c in
  if (97 <=? n) && (n <=? 122) then ascii_of_N (n - 32) else c.

#[local] Close Scope N_scope.

Definition length (s : string) : Z := Z.of_nat (String.length s).

(** [s.startsWith(p)] *)
Fixpoint startsWith (p s : string) : bool :=
  match p, s with
  | EmptyString, _ => true
  | String a p', String b s' => Ascii.eqb a b && startsWith p' s'
  | String _ _, EmptyString => false
  end.

(** [s.includes(p)] *)
Fixpoint includes (s p : string) : bool :=
  startsWith p s ||
  match s with
  | EmptyString => false
  | String _ s' => includes s' p
  end.

(** [text] contains [p] as a substring. *)
Definition contains (text p : string) : Prop :=
  exists pre post, text = pre ++ p ++ post.

Fixpoint take (n : nat) (s : string) : string :=
  match n, s with
  | S n', String c s' => String c (take n' s')
  | _, _ => EmptyString
  end.

Fixpoint drop (n : nat) (s : string) : string :=
  match n, s with
  | S n', String _ s' => drop n' s'
  | _, _ => s
  end.

(** [s.slice(from, to)]: a negative index counts from the end, both are
    clamped to the string. *)
Definition slice (s : string) (from to : Z) : string :=
  let len := length s in
  let clamp i := if (i <? 0)%Z then Z.max (len + i) 0 else Z.min i len in
  let a := clamp from in
  let b := clamp to in
  take (Z.to_nat (Z.max (b - a) 0)) (drop (Z.to_nat a) s).

Fixpoint trimStart (s : string) : string :=
  match s with
  | String c s' => if isSpace c then trimStart s' else s
  | EmptyString => EmptyString
  end.

(** [trimEnd], right to left: a character is dropped when it is a space
    and everything after it has been dropped. *)
Fixpoint trimEnd (s : string) : string :=
  match s with
  | EmptyString => EmptyString
  | String c s' =>
      match trimEnd s' with
      | EmptyString => if isSpace c then EmptyString else String c EmptyString
      | t => String c t
      end
  end.

Definition trim (s : string) : string := trimEnd (trimStart s).

(** [xs.join(sep)] *)
Fixpoint join (sep : string) (xs : list string) : string :=
  match xs with
  | [] => EmptyString
  | [x] => x
  | x :: rest => x ++ sep ++ join sep rest
  end.

(** A string is truthy when it is not empty. *)
Definition truthy (s : string) : bool :=
  match s with EmptyString => false | _ => true end.

End Js.

(* ===================================================================== *)
(** ** Regular expressions, as far as [cleanHtml] uses them *)
(* ===================================================================== *)

(** Every quantifier of the source is applied to a single-character atom
    (a class, an escape or the dot), so [Rep] carries a character test.
    The classes of the source hold no letter, so the [i] flag leaves them
    alone, and every dot comes with the [s] flag and takes any character.
    [Group n] is the n-th capturing parenthesis, [Backref n] is [\n]. *)
Module Regex.

Inductive regex : Type :=
| Empty
| Lit (c : ascii)
| Class (p : ascii -> bool)
| Seq (r1 r2 : regex)
| Alt (r1 r2 : regex)
| Rep (atLeastOne greedy : bool) (p : ascii -> bool)
| Group (n : nat) (r : regex)
| Backref (n : nat).

Definition captures := list (nat * string).

Fixpoint capture (n : nat) (caps : captures) : option string :=
  match caps with
  | [] => None
  | (m, v) :: rest => if Nat.eqb m n then Some v else capture n rest
  end.

(** State of a match in progress: what is left of the input, and the
    groups captured so far. *)
Definition cont := string -> captures -> option (string * captures).

Definition sameChar (ignoreCase : bool) (a b : ascii) : bool :=
  if ignoreCase then Ascii.eqb (Js.canonicalize a) (Js.canonicalize b)
  else Ascii.eqb a b.

(** Greedy repetition: take one more character first, give it back when
    the rest of the pattern fails. *)
Fixpoint repGreedy (p : ascii -> bool) (s : string)
    (k : string -> option (string * captures)) : option (string * captures) :=
  match s with
  | String c s' =>
      if p c then
        match repGreedy p s' k with
        | Some r => Some r
        | None => k s
        end
      else k s
  | EmptyString => k s
  end.

(** Lazy repetition: try the rest of the pattern first. *)
Fixpoint repLazy (p : ascii -> bool) (s : string)
    (k : string -> option (string * captures)) : option (string * captures) :=
  match k s with
  | Some r => Some r
  | None =>
      match s with
      | String c s' => if p c then repLazy p s' k else None
      | EmptyString => None
      end
  end.

Definition rep (greedy : bool) := if greedy then repGreedy else repLazy.

(** The text of a back reference against the input. *)
Fixpoint matchText (ignoreCase : bool) (t s : string) : option string :=
  match t, s with
  | EmptyString, _ => Some s
  | String a t', String b s' =>
      if sameChar ignoreCase a b then matchText ignoreCase t' s' else None
  | String _ _, EmptyString => None
  end.

(** The backtracking matcher, in continuation-passing style: [k] is the
    rest of the pattern; the first alternative that lets [k] succeed wins. *)
Fixpoint run (ignoreCase : bool) (r : regex) (s : string) (caps : captures)
    (k : cont) : option (string * captures) :=
  match r with
  | Empty => k s caps
  | Lit c =>
      match s with
      | String b s' => if sameChar ignoreCase c b then k s' caps else None
      | EmptyString => None
      end
  | Class p =>
      match s with
      | String b s' => if p b then k s' caps else None
      | EmptyString => None
      end
  | Seq r1 r2 =>
      run ignoreCase r1 s caps (fun s1 caps1 => run ignoreCase r2 s1 caps1 k)
  | Alt r1 r2 =>
      match run ignoreCase r1 s caps k with
      | Some res => Some res
      | None => run ignoreCase r2 s caps k
      end
  | Rep atLeastOne greedy p =>
      if atLeastOne then
        match s with
        | String b s' => if p b then rep greedy p s' (fun s1 => k s1 caps) else None
        | EmptyString => None
        end
      else rep greedy p s (fun s1 => k s1 caps)
  | Group n r1 =>
      run ignoreCase r1 s caps
        (fun s1 caps1 =>
           k s1 ((n, Js.take (String.length s - String.length s1) s) :: caps1))
  | Backref n =>
      match capture n caps with
      | None => k s caps
      | Some t =>
          match matchText ignoreCase t s with
          | Some s1 => k s1 caps
          | None => None
          end
      end
  end.

(** A match anchored at the start of [s]: its length and its captures. *)
Definition exec (ignoreCase : bool) (r : regex) (s : string)
  : option (nat * captures) :=
  match run ignoreCase r s [] (fun s1 caps1 => Some (s1, caps1)) with
  | Some (s1, caps1) => Some (String.length s - String.length s1, caps1)
  | None => None
  end.

(** [s.replace(/r/g, f)]: left to right, every match that starts at or
    after the end of the previous one is replaced; [skip] counts the
    characters of the current match still to be passed over. An empty match
    advances by one character, which is copied. *)
Fixpoint replaceFrom (ignoreCase : bool) (r : regex)
    (f : string -> captures -> string) (s : string) (skip : nat) : string :=
  match s with
  | EmptyString =>
      match skip with
      | S _ => EmptyString
      | O =>
          match exec ignoreCase r EmptyString with
          | Some (_, caps) => f EmptyString caps
          | None => EmptyString
          end
      end
  | String c s' =>
      match skip with
      | S n => replaceFrom ignoreCase r f s' n
      | O =>
          match exec ignoreCase r s with
          | Some (O, caps) =>
              f EmptyString caps ++ String c (replaceFrom ignoreCase r f s' 0)
          | Some (S n, caps) =>
              f (Js.take (S n) s) caps ++ replaceFrom ignoreCase r f s' n
          | None => String c (replaceFrom ignoreCase r f s' 0)
          end
      end
  end.

Definition replaceAll (ignoreCase : bool) (r : regex)
    (f : string -> captures -> string) (s : string) : string :=
  replaceFrom ignoreCase r f s 0.

(** Replacement by a constant string without [$] patterns. *)
Definition remove (ignoreCase : bool) (r : regex) (s : string) : string :=
  replaceAll ignoreCase r (fun _ _ => EmptyString) s.

(** *** Pattern notation helpers *)

(** A literal run of characters. *)
Fixpoint lits (s : string) : regex :=
  match s with
  | EmptyString => Empty
  | String c EmptyString => Lit c
  | String c s' => Seq (Lit c) (lits s')
  end.

Fixpoint seqs (rs : list regex) : regex :=
  match rs with
  | [] => Empty
  | [r] => r
  | r :: rest => Seq r (seqs rest)
  end.

Fixpoint alts (rs : list regex) : regex :=
  match rs with
  | [] => Empty
  | [r] => r
  | r :: rest => Alt r (alts rest)
  end.

Definition isNot (c : ascii) : ascii -> bool := fun b => negb (Ascii.eqb b c).
Definition anyChar : ascii -> bool := fun _ => true.

Definition star p := Rep false true p.
Definition plus p := Rep true true p.
Definition starLazy p := Rep false false p.

End Regex.

(* ===================================================================== *)
(** ** The sanitizer of the DOM snapshot *)
(* ===================================================================== *)

Module Sanitizer.
Import Regex.

Definition dquote : ascii := "034"%char.

(** [[A-Za-z0-9+/=\s]] *)
Definition base64Char (c : ascii) : bool :=
  let n := Js.code c in
  (((65 <=? n) && (n <=? 90)) || ((97 <=? n) && (n <=? 122))
   || ((48 <=? n) && (n <=? 57))
   || (n =? 43) || (n =? 47) || (n =? 61))%N || Js.isSpace c.

(** [<tag[^>]*>[\s\S]*?</tag>], also [<tag[^>]*>.*?</tag>] under the [s]
    flag, where the dot takes every character. *)
Definition block (tag : string) : regex :=
  seqs [lits ("<" ++ tag); star (isNot ">"); Lit ">";
        starLazy anyChar; lits ("</" ++ tag ++ ">")].

(** [data:<kind>[^;]+;base64,[A-Za-z0-9+/=\s]+] *)
Definition dataUri (kind : string) : regex :=
  seqs [lits ("data:" ++ kind); plus (isNot ";"); lits ";base64,";
        plus base64Char].

(** [\s*<name>=Q[^Q]*Q], where Q is the double quote. *)
Definition attribute (name : regex) : regex :=
  seqs [star Js.isSpace; name; Lit "="; Lit dquote;
        star (isNot dquote); Lit dquote].

Definition reScript : regex := block "script".
Definition reStyle : regex := block "style".
Definition reLink : regex := seqs [lits "<link"; star (isNot ">"); Lit ">"].
Definition reNoscript : regex := block "noscript".
Definition reComment : regex :=
  seqs [lits "<!--"; starLazy anyChar; lits "-->"].
Definition reDataImage : regex := dataUri "image/".
Definition reDataVideo : regex := dataUri "video/".
Definition reDataAudio : regex := dataUri "audio/".
Definition reDataJavascript : regex := dataUri "text/javascript".
Definition reDataCss : regex := dataUri "text/css".
Definition reDataAny : regex := dataUri EmptyString.
Definition reCharset : regex :=
  seqs [lits "charset=utf-8;base64,"; plus base64Char].
Definition reSrc : regex := attribute (lits "src").
Definition reSrcset : regex := attribute (lits "srcset").
(** The anchor rule: [<a], a lazy group of non-[>] characters, [href=],
    the quoted link target as group 2, a second lazy group, [>]. *)
Definition reAnchor : regex :=
  seqs [lits "<a"; Group 1 (starLazy (isNot ">")); lits "href="; Lit dquote;
        Group 2 (star (isNot dquote)); Lit dquote;
        Group 3 (starLazy (isNot ">")); Lit ">"].
Definition reClass : regex := attribute (lits "class").
Definition reStyleAttr : regex := attribute (lits "style").
Definition reOtherAttr : regex :=
  attribute
    (Group 1
       (alts [lits "role"; lits "tabindex"; lits "aria-label";
              lits "aria-hidden"; lits "aria-describedby";
              Seq (lits "data-") (star (isNot "="));
              lits "crossorigin"; lits "nonce"; lits "async"; lits "defer"])).
Definition reSvg : regex := block "svg".
(** [<(nav|footer|header)[^>]*>.*?</\1>] *)
Definition reChrome : regex :=
  seqs [Lit "<"; Group 1 (alts [lits "nav"; lits "footer"; lits "header"]);
        star (isNot ">"); Lit ">"; starLazy anyChar;
        lits "</"; Backref 1; Lit ">"].
(** [<[^>]*(?:navigation|nav|...|breadcrumb)[^>]*>.*?</[^>]*>] *)
Definition reUiPattern : regex :=
  seqs [Lit "<"; star (isNot ">");
        alts [lits "navigation"; lits "nav"; lits "footer"; lits "header";
              lits "sidebar"; lits "menu"; lits "toolbar"; lits "breadcrumb"];
        star (isNot ">"); Lit ">"; starLazy anyChar;
        lits "</"; star (isNot ">"); Lit ">"].
(** [<(div|span)[^>]*>\s*</\1>] *)
Definition reEmptyBox : regex :=
  seqs [Lit "<"; Group 1 (alts [lits "div"; lits "span"]);
        star (isNot ">"); Lit ">"; star Js.isSpace;
        lits "</"; Backref 1; Lit ">"].
(** [\s+] *)
Definition reSpaces : regex := plus Js.isSpace.

(** The replacement function of the anchor rule: the opening tag with
    the link target as its only attribute. *)
Definition anchorOnlyHref (_ : string) (caps : captures) : string :=
  let href := match capture 2 caps with Some h => h | None => EmptyString end in
  "<a href=" ++ String dquote (href ++ String dquote ">").

(** The removals up to, not including, the whitespace step. *)
Definition stripMarkup (html : string) : string :=
  let html := remove true reScript html in
  let html := remove true reStyle html in
  let html := remove true reLink html in
  let html := remove true reNoscript html in
  let html := remove false reComment html in
  let html := remove false reDataImage html in
  let html := remove false reDataVideo html in
  let html := remove false reDataAudio html in
  let html := remove false reDataJavascript html in
  let html := remove false reDataCss html in
  let html := remove false reDataAny html in
  let html := remove false reCharset html in
  let html := remove true reSrc html in
  let html := remove true reSrcset html in
  let html := replaceAll true reAnchor anchorOnlyHref html in
  let html := remove true reClass html in
  let html := remove true reStyleAttr html in
  let html := remove true reOtherAttr html in
  let html := remove true reSvg html in
  let html := remove true reChrome html in
  let html := remove true reUiPattern html in
  let html := remove true reEmptyBox html in
  html.

(** [html.replace(/\s+/g, ' ').trim()] *)
Definition normalizeSpace (html : string) : string :=
  Js.trim (replaceAll false reSpaces (fun _ _ => " ") html).

Definition cleanHtml (html : string) : string :=
  normalizeSpace (stripMarkup html).

End Sanitizer.

(* ===================================================================== *)
(** ** Exceptions, the world and the engine *)
(* ===================================================================== *)

(** A thrown value: an [Error] with its message, or anything else, kept
    as [String(value)]. *)
Inductive Thrown : Type :=
| ErrorObject (message : string)
| OtherValue (asString : string).

(** [error instanceof Error ? error.message : String(error)] *)
Definition errorMessage (e : Thrown) : string :=
  match e with
  | ErrorObject m => m
  | OtherValue v => v
  end.

Inductive Outcome (A : Type) : Type :=
| Ok (a : A)
| Throw (e : Thrown).
Arguments Ok {A} a.
Arguments Throw {A} e.

Definition Browser := nat.
Definition Page := nat.

(** Lines of the process console; the pictographs that open some of them
    in the source are left out. *)
Inductive ConsoleLine : Type :=
| ConsoleLog (text : string)
| ConsoleError (label text : string).

Record World : Type := mkWorld {
  globalBrowser : option Browser;
  (** [Map<string, Page>], in insertion order *)
  globalPages : list (string * Page);
  (** lines given to [location.addSystemMessage], oldest first *)
  messages : list string;
  (** slot written by [updateLocationStateRendering] *)
  rendering : option string;
  (** image slot 0, written by [updateLocationStateImage] *)
  image : option string;
  console : list ConsoleLine;
  (** delays handed to [setTimeout], oldest first *)
  timers : list Z
}.

Definition initialWorld : World :=
  mkWorld None [] [] None None [] [].

Record LaunchOptions : Type := mkLaunchOptions {
  headless : bool;
  executablePath : string;
  args : list string;
  defaultViewport : option (Z * Z)
}.

Inductive ScrollRequest : Type :=
| ScrollToBottom
| ScrollBy (dy : Z).

(** *** The page as the in-page code sees it *)

#[local] Set Warnings "-register-all".
Inductive Element : Type :=
| Node (outerHTML textContent : string) (children : list Element).

Definition outerHTML (e : Element) : string :=
  match e with Node h _ _ => h end.
Definition textContent (e : Element) : string :=
  match e with Node _ t _ => t end.

(** [el.querySelectorAll('*')]: the descendants in document order. *)
Fixpoint descendants (e : Element) : list Element :=
  match e with
  | Node _ _ cs => flat_map (fun c => c :: descendants c) cs
  end.

Record Document : Type := mkDocument {
  (** [document.head.querySelectorAll('meta')], empty without a head *)
  headMetas : list Element;
  (** [document.querySelector('main')] *)
  mainElement : option Element;
  (** the elements matching the selector [body] *)
  bodyElements : list Element;
  (** [document.body] *)
  documentBody : option Element
}.

(** What the outside answers, call by call. *)
Record Engine : Type := mkEngine {
  envUsername : option string;
  existsSync : string -> bool;
  puppeteerLaunch : LaunchOptions -> Outcome Browser;
  browserClose : Browser -> Outcome unit;
  newPage : Browser -> Outcome Page;
  pageGoto : Page -> string -> Outcome unit;
  pageBringToFront : Page -> Outcome unit;
  pageClose : Page -> Outcome unit;
  (** [page.$(selector)]: whether an element was found *)
  pageQuery : Page -> string -> Outcome bool;
  pageClick : Page -> string -> Z -> Outcome unit;
  (** [page.evaluate] of one of the two scroll functions *)
  pageScroll : Page -> ScrollRequest -> Outcome unit;
  pageTitle : Page -> Outcome string;
  (** [page.waitForFunction(() => document.readyState === 'complete')] *)
  pageWaitComplete : Page -> Outcome unit;
  pageSetViewport : Page -> Z -> Z -> Outcome unit;
  (** [page.screenshot] as a JPEG of the viewport, already in base 64 *)
  pageScreenshot : Page -> Z -> Outcome string;
  (** [page.evaluate] storing the snapshot options in the window *)
  pageSetSnapshotOpts : Page -> string -> Outcome unit;
  (** [page.$$eval(selector, els => els.length)] *)
  pageCount : Page -> string -> Outcome nat;
  (** the document a [page.$$eval] callback runs in *)
  pageDocument : Page -> Outcome Document;
  updateLocationStateRendering : string -> Outcome unit;
  updateLocationStateImage : nat -> string -> Outcome unit
}.

(** *** The monad of the asynchronous functions *)

(** An [async] function: a world transformer that ends with a value or a
    thrown value. The world reached before a throw is kept. *)
Definition M (A : Type) : Type := World -> Outcome A * World.

Definition ret {A} (a : A) : M A := fun w => (Ok a, w).

Definition bind {A B} (c : M A) (f : A -> M B) : M B :=
  fun w =>
    match c w with
    | (Ok a, w1) => f a w1
    | (Throw e, w1) => (Throw e, w1)
    end.

Definition throw {A} (e : Thrown) : M A := fun w => (Throw e, w).

(** [try { body } catch (error) { handler }] *)
Definition tryCatch {A} (body : M A) (handler : Thrown -> M A) : M A :=
  fun w =>
    match body w with
    | (Ok a, w1) => (Ok a, w1)
    | (Throw e, w1) => handler e w1
    end.

(** [await] of an engine call. *)
Definition await {A} (o : Outcome A) : M A := fun w => (o, w).

Definition modify (f : World -> World) : M unit := fun w => (Ok tt, f w).
Definition gets {A} (f : World -> A) : M A := fun w => (Ok (f w), w).

Declare Scope js_scope.
Delimit Scope js_scope with js.
Notation "x <- c ;; k" := (bind c (fun x => k))
  (at level 61, c at next level, right associativity) : js_scope.
Notation "c ;; k" := (bind c (fun _ => k))
  (at level 61, right associativity) : js_scope.
Open Scope js_scope.

Definition setBrowser (b : option Browser) : M unit :=
  modify (fun w => mkWorld b (globalPages w) (messages w) (rendering w)
                     (image w) (console w) (timers w)).
Definition setPages (ps : list (string * Page)) : M unit :=
  modify (fun w => mkWorld (globalBrowser w) ps (messages w) (rendering w)
                     (image w) (console w) (timers w)).
Definition addSystemMessage (line : string) : M unit :=
  modify (fun w => mkWorld (globalBrowser w) (globalPages w)
                     (messages w ++ [line])%list (rendering w)
                     (image w) (console w) (timers w)).
Definition setRendering (r : string) : M unit :=
  modify (fun w => mkWorld (globalBrowser w) (globalPages w) (messages w)
                     (Some r) (image w) (console w) (timers w)).
Definition setImage (i : string) : M unit :=
  modify (fun w => mkWorld (globalBrowser w) (globalPages w) (messages w)
                     (rendering w) (Some i) (console w) (timers w)).
Definition consoleWrite (l : ConsoleLine) : M unit :=
  modify (fun w => mkWorld (globalBrowser w) (globalPages w) (messages w)
                     (rendering w) (image w) (console w ++ [l])%list
                     (timers w)).
(** [await new Promise((r) => setTimeout(r, ms))] *)
Definition sleep (ms : Z) : M unit :=
  modify (fun w => mkWorld (globalBrowser w) (globalPages w) (messages w)
                     (rendering w) (image w) (console w)
                     (timers w ++ [ms])%list).

(* ===================================================================== *)
(** ** The tab registry (chrome-actions) *)
(* ===================================================================== *)

Module MapOps.

(** [Map.prototype.get] *)
Fixpoint get (name : string) (m : list (string * Page)) : option Page :=
  match m with
  | [] => None
  | (k, v) :: rest => if String.eqb k name then Some v else get name rest
  end.

(** [Map.prototype.has] *)
Definition has (name : string) (m : list (string * Page)) : bool :=
  match get name m with Some _ => true | None => false end.

(** [Map.prototype.set]: an existing key keeps its place and takes the new
    value, a new key goes last. *)
Fixpoint set (name : string) (p : Page) (m : list (string * Page))
  : list (string * Page) :=
  match m with
  | [] => [(name, p)]
  | (k, v) :: rest =>
      if String.eqb k name then (k, p) :: rest else (k, v) :: set name p rest
  end.

(** [Map.prototype.delete] *)
Fixpoint delete (name : string) (m : list (string * Page))
  : list (string * Page) :=
  match m with
  | [] => []
  | (k, v) :: rest =>
      if String.eqb k name then rest else (k, v) :: delete name rest
  end.

(** [Array.from(m.keys())] *)
Definition keys (m : list (string * Page)) : list string := map fst m.

(** [m.values().next().value] *)
Definition firstValue (m : list (string * Page)) : option Page :=
  match m with
  | [] => None
  | (_, v) :: _ => Some v
  end.

End MapOps.

(** An optional parameter with a default: [undefined] takes the default. *)
Definition orDefault {A} (o : option A) (d : A) : A :=
  match o with Some a => a | None => d end.

(** Truthiness of an optional string: present and not empty. *)
Definition truthyOpt (o : option string) : bool :=
  match o with Some s => Js.truthy s | None => false end.

Definition getChromePage (tabName : option string) : M (option Page) :=
  if negb (truthyOpt tabName) then
    gets (fun w => MapOps.firstValue (globalPages w))
  else
    gets (fun w => MapOps.get (orDefault tabName EmptyString) (globalPages w)).

Definition getChromePageNames : M (list string) :=
  gets (fun w => MapOps.keys (globalPages w)).

Definition possiblePaths (E : Engine) : list string :=
  let user := orDefault (envUsername E) "undefined" in
  [ "C:\Program Files\Google\Chrome\Application\chrome.exe";
    "C:\Program Files (x86)\Google\Chrome\Application\chrome.exe";
    "C:\Users\" ++ user ++ "\AppData\Local\Google\Chrome\Application\chrome.exe";
    "C:\Users\" ++ user ++ "\AppData\Local\Google\Chrome\Application\chrome.exe" ].

Definition findChromeExecutable (E : Engine) : option string :=
  find (existsSync E) (possiblePaths E).

(** The [catch] of the registry functions: log, then throw again. *)
Definition logAndRethrow {A} (label : string) (e : Thrown) : M A :=
  consoleWrite (ConsoleError label (errorMessage e)) ;;
  throw e.

Definition launchChromeBrowser (E : Engine) (url tabName : option string)
  : M unit :=
  let url := orDefault url "https://www.instagram.com/" in
  let tabName := orDefault tabName "default" in
  tryCatch
    ( old <- gets globalBrowser ;;
      match old with
      | Some b =>
          await (browserClose E b) ;;
          setBrowser None ;;
          setPages []
      | None => ret tt
      end ;;
      match findChromeExecutable E with
      | None =>
          throw (ErrorObject
            "Chrome executable not found. Please make sure Google Chrome is installed.")
      | Some chromePath =>
          let launchOptions :=
            mkLaunchOptions false chromePath
              ["--no-sandbox"; "--disable-setuid-sandbox"; "--start-maximized"]
              None in
          b <- await (puppeteerLaunch E launchOptions) ;;
          setBrowser (Some b) ;;
          newPage_ <- await (newPage E b) ;;
          pages <- gets globalPages ;;
          setPages (MapOps.set tabName newPage_ pages) ;;
          (if Js.truthy url then await (pageGoto E newPage_ url) else ret tt) ;;
          consoleWrite
            (ConsoleLog ("Chrome browser launched successfully with tab: "
                         ++ tabName))
      end )
    (logAndRethrow "Error launching Chrome browser:").

Definition closeChromeBrowser (E : Engine) : M unit :=
  tryCatch
    ( old <- gets globalBrowser ;;
      match old with
      | Some b =>
          await (browserClose E b) ;;
          setBrowser None ;;
          setPages [] ;;
          consoleWrite (ConsoleLog "Chrome browser closed successfully")
      | None =>
          consoleWrite (ConsoleLog "No browser instance was running")
      end )
    (logAndRethrow "Error closing browser:").

Definition createNewTab (E : Engine) (tabName : string) (url : option string)
  : M unit :=
  tryCatch
    ( browser <- gets globalBrowser ;;
      match browser with
      | None =>
          throw (ErrorObject "Browser not launched. Please launch browser first.")
      | Some b =>
          pages <- gets globalPages ;;
          if MapOps.has tabName pages then
            throw (ErrorObject
              ("Tab with name " ++ String Sanitizer.dquote tabName
               ++ String Sanitizer.dquote " already exists."))
          else
            newPage_ <- await (newPage E b) ;;
            pages <- gets globalPages ;;
            setPages (MapOps.set tabName newPage_ pages) ;;
            (if truthyOpt url
             then await (pageGoto E newPage_ (orDefault url EmptyString))
             else ret tt) ;;
            consoleWrite (ConsoleLog ("New tab created: " ++ tabName))
      end )
    (logAndRethrow "Error creating new tab:").

Definition tabNotFound (tabName : string) : Thrown :=
  ErrorObject ("Tab " ++ String Sanitizer.dquote tabName
               ++ String Sanitizer.dquote " not found.").

Definition switchToTab (E : Engine) (tabName : string) : M unit :=
  tryCatch
    ( pages <- gets globalPages ;;
      match MapOps.get tabName pages with
      | None => throw (tabNotFound tabName)
      | Some page => await (pageBringToFront E page)
      end )
    (logAndRethrow "Error switching to tab:").

Definition closeTab (E : Engine) (tabName : string) : M unit :=
  tryCatch
    ( pages <- gets globalPages ;;
      match MapOps.get tabName pages with
      | None => throw (tabNotFound tabName)
      | Some page =>
          await (pageClose E page) ;;
          pages <- gets globalPages ;;
          setPages (MapOps.delete tabName pages) ;;
          consoleWrite (ConsoleLog ("Tab closed: " ++ tabName))
      end )
    (logAndRethrow "Error closing tab:").

(* ===================================================================== *)
(** ** Numbers in template strings *)
(* ===================================================================== *)

(** Durations and distances are whole numbers here. [numberToString] is
    what a template prints for such a number (below 10^21 in size). *)
Module Num.

Definition digit (n : nat) : ascii := ascii_of_nat (48 + n).

Fixpoint digitsFuel (fuel : nat) (n : N) (acc : string) : string :=
  match fuel with
  | O => acc
  | S fuel' =>
      let acc' := String (digit (N.to_nat (n mod 10))) acc in
      if (n <? 10)%N then acc' else digitsFuel fuel' (n / 10)%N acc'
  end.

Definition natural (n : N) : string :=
  digitsFuel (S (N.to_nat (N.log2 n))) n EmptyString.

Definition numberToString (z : Z) : string :=
  if (z <? 0)%Z then "-" ++ natural (Z.to_N (- z)) else natural (Z.to_N z).

(** The decimals of a number of thousandths, without trailing zeros. *)
Definition thousandths (r : N) : string :=
  let d1 := (r / 100)%N in
  let d2 := ((r / 10) mod 10)%N in
  let d3 := (r mod 10)%N in
  let c n := String (digit (N.to_nat n)) EmptyString in
  if (r =? 0)%N then EmptyString
  else if (d3 =? 0)%N then
         if (d2 =? 0)%N then "." ++ c d1 else "." ++ c d1 ++ c d2
       else "." ++ c d1 ++ c d2 ++ c d3.

(** What a template prints for [z / 1000]. *)
Definition dividedByThousand (z : Z) : string :=
  let a := Z.to_N (Z.abs z) in
  (if (z <? 0)%Z then "-" else EmptyString)
  ++ natural (a / 1000)%N ++ thousandths (a mod 1000)%N.

End Num.

(* ===================================================================== *)
(** ** Code that runs inside the page *)
(* ===================================================================== *)

Module InPage.

Definition nl : string := String "010"%char EmptyString.

(** [containsSearchTerm] of the snapshot callback. *)
Definition containsSearchTerm (element : Element) (term : string) : bool :=
  if negb (Js.truthy term) then true
  else
    let text := Js.toLowerCase (textContent element) in
    let termLower := Js.toLowerCase term in
    let hashtagTerm := "#" ++ termLower in
    Js.includes text termLower || Js.includes text hashtagTerm.

(** The elements whose markup goes into the snapshot, before cleaning:
    the matching descendants of the scope root under a search term, the
    base elements otherwise. [None] is the [TypeError] of calling
    [querySelectorAll] on a missing scope root. *)
Definition keptElements (doc : Document) (searchTerm : string)
  : option (list Element) :=
  let baseElements :=
    match mainElement doc with
    | Some mainEl => [mainEl]
    | None => bodyElements doc
    end in
  if Js.truthy searchTerm then
    let scopeRoot :=
      match baseElements with
      | e :: _ => Some e
      | [] => documentBody doc
      end in
    match scopeRoot with
    | Some root =>
        Some (filter (fun el => containsSearchTerm el searchTerm)
                     (descendants root))
    | None => None
    end
  else Some baseElements.

(** The callback of the second [page.$$eval]: the snapshot text. *)
Definition snapshot (doc : Document) (searchTerm : string) : Outcome string :=
  let headMeta := Js.join nl (map outerHTML (headMetas doc)) in
  match keptElements doc searchTerm with
  | None =>
      Throw (ErrorObject
        "Cannot read properties of null (reading 'querySelectorAll')")
  | Some kept =>
      let body :=
        Js.join (nl ++ nl)
                (map (fun el => Sanitizer.cleanHtml (outerHTML el)) kept) in
      Ok (if Js.truthy headMeta then headMeta ++ nl ++ nl ++ body else body)
  end.

(** *** Scrolling to the bottom *)

(** [document.documentElement] as the interval callback reads it. *)
Record Viewport : Type := mkViewport {
  scrollTop : Z;
  scrollHeight : Z;
  clientHeight : Z
}.

(** The largest scroll offset the document allows. *)
Definition maxScrollTop (v : Viewport) : Z :=
  Z.max 0 (scrollHeight v - clientHeight v).

(** [window.scrollBy(0, dy)]: the offset moves and is clamped to the
    document. *)
Definition scrollBy (dy : Z) (v : Viewport) : Viewport :=
  mkViewport (Z.max 0 (Z.min (scrollTop v + dy) (maxScrollTop v)))
             (scrollHeight v) (clientHeight v).

Definition distance : Z := 800.

(** One run of the interval callback: the measures are read, the window
    scrolls, and the measures read before the scroll decide whether the
    interval is cleared. *)
Definition tick (v : Viewport) : Viewport * bool :=
  let v' := scrollBy distance v in
  (v', (scrollTop v + clientHeight v >=? scrollHeight v - 10)%Z).

(** Between two callbacks the page may load or drop content: the
    document takes a new height and the browser keeps the offset inside
    it. *)
Definition reflow (height : Z) (v : Viewport) : Viewport :=
  scrollBy 0 (mkViewport (scrollTop v) height (clientHeight v)).

(** The interval, run for at most [fuel] callbacks (one every 100 ms).
    [heights k] is the scroll height the callback number [k] finds. The
    result is the viewport when the promise resolves and the number of
    callbacks run, or [None] when the fuel is spent first. *)
Fixpoint scrollToBottom (heights : nat -> Z) (fuel k : nat) (v : Viewport)
  : option (Viewport * nat) :=
  match fuel with
  | O => None
  | S fuel' =>
      let (v', done) := tick (reflow (heights k) v) in
      if done then Some (v', S k)
      else scrollToBottom heights fuel' (S k) v'
  end.

(** Callbacks that suffice on a page that is never higher than [bound]:
    a callback that does not clear the interval moves the window down by
    more than the 10 pixels of tolerance. *)
Definition ticksNeeded (bound : Z) (v : Viewport) : nat :=
  Z.to_nat (Z.max 0 (bound - clientHeight v) / 11) + 2.

End InPage.

(* ===================================================================== *)
(** ** The actions *)
(* ===================================================================== *)

Module Actions.

Section WithAgent.

Variable E : Engine.
(** [this.agent.model.name] *)
Variable agentName : string.

Definition say (text : string) : M unit :=
  addSystemMessage ("[" ++ agentName ++ "] " ++ text).

(** The [catch] of every [execute]: one line for the sink. *)
Definition report (label : string) (e : Thrown) : M unit :=
  say (label ++ errorMessage e).

Definition notLaunched : Thrown :=
  ErrorObject "Browser not launched. Please run launch_browser first.".

(** [getChromePage] followed by the check every page action starts with. *)
Definition requirePage (tabName : option string) : M Page :=
  page <- getChromePage tabName ;;
  match page with
  | Some p => ret p
  | None => throw notLaunched
  end.

(** [if (action.waitAfterMs && action.waitAfterMs > 0) await sleep] *)
Definition settle (waitAfterMs : option Z) : M unit :=
  match waitAfterMs with
  | Some ms => if (ms >? 0)%Z then sleep ms else ret tt
  | None => ret tt
  end.

Definition ChromeLaunchAction (headless : option bool)
    (url tabName : option string) : M unit :=
  tryCatch
    ( launchChromeBrowser E url tabName ;;
      let result :=
        "Successfully launched Chrome browser in visible mode for supervision." in
      let result :=
        if truthyOpt url
        then result ++ " Navigated to: " ++ orDefault url EmptyString
        else result in
      let result :=
        if truthyOpt tabName
        then result ++ " Created tab: " ++ orDefault tabName EmptyString
        else result in
      say result )
    (report "Error launching Chrome: ").

Definition ChromeCloseAction : M unit :=
  tryCatch
    ( closeChromeBrowser E ;;
      say "Successfully closed Chrome browser" )
    (report "Error closing browser: ").

Definition CreateTabAction (tabName : string) (url : option string) : M unit :=
  tryCatch
    ( createNewTab E tabName url ;;
      let result := "Successfully created new tab: " ++ tabName in
      let result :=
        if truthyOpt url
        then result ++ " and navigated to: " ++ orDefault url EmptyString
        else result in
      say result )
    (report "Error creating tab: ").

Definition SwitchTabAction (tabName : string) : M unit :=
  tryCatch
    ( switchToTab E tabName ;;
      say ("Successfully switched to tab: " ++ tabName) )
    (report "Error switching tab: ").

Definition CloseTabAction (tabName : string) : M unit :=
  tryCatch
    ( closeTab E tabName ;;
      say ("Successfully closed tab: " ++ tabName) )
    (report "Error closing tab: ").

Definition ListTabsAction : M unit :=
  tryCatch
    ( tabNames <- getChromePageNames ;;
      match tabNames with
      | [] => say "No tabs are currently open."
      | _ => say ("Currently open tabs: " ++ Js.join ", " tabNames)
      end )
    (report "Error listing tabs: ").

Definition BrowserClickAction (selector : string) (waitAfterMs : option Z)
    (tabName : option string) : M unit :=
  tryCatch
    ( page <- requirePage tabName ;;
      found <- await (pageQuery E page selector) ;;
      if negb found then
        say ("Element not found for selector: " ++ selector)
      else
        await (pageClick E page selector 50%Z) ;;
        settle waitAfterMs ;;
        say ("Clicked element: " ++ selector) )
    (report "Error clicking element: ").

Inductive Direction : Type := Down | Up.

Definition directionName (d : Direction) : string :=
  match d with Down => "down" | Up => "up" end.

Definition BrowserScrollAction (direction : option Direction)
    (pixels : option Z) (toBottom : option bool) (waitAfterMs : option Z)
    (tabName : option string) : M unit :=
  tryCatch
    ( page <- requirePage tabName ;;
      (if orDefault toBottom false then
         await (pageScroll E page ScrollToBottom)
       else
         let delta :=
           ((match direction with Some Up => -1 | _ => 1 end)
            * orDefault pixels 1000)%Z in
         await (pageScroll E page (ScrollBy delta))) ;;
      settle waitAfterMs ;;
      let opts :=
        if orDefault toBottom false then ["toBottom: true"]
        else ["direction: " ++ directionName (orDefault direction Down);
              "pixels: " ++ Num.numberToString (orDefault pixels 1000%Z)] in
      say ("Scrolled page (" ++ Js.join ", " opts ++ ")") )
    (report "Error scrolling page: ").

(** [action.milliseconds || 3000] *)
Definition waitTime (milliseconds : option Z) : Z :=
  match milliseconds with
  | Some ms => if (ms =? 0)%Z then 3000%Z else ms
  | None => 3000%Z
  end.

Definition BrowserWaitAction (milliseconds : option Z) : M unit :=
  tryCatch
    ( let waitTime := waitTime milliseconds in
      sleep waitTime ;;
      say ("Waited for " ++ Num.numberToString waitTime ++ "ms ("
           ++ Num.dividedByThousand waitTime ++ "s)") )
    (report "Error during wait: ").

Definition BrowserNavigateAction (url : string) (tabName : option string)
  : M unit :=
  tryCatch
    ( page <- requirePage tabName ;;
      await (pageGoto E page url) ;;
      title <- await (pageTitle E page) ;;
      say ("Successfully navigated to " ++ url ++ ". Page title: " ++ title) )
    (report ("Error navigating to " ++ url ++ ": ")).

Definition BrowserWaitForNavigationAction (strategy tabName : option string)
  : M unit :=
  tryCatch
    ( page <- requirePage tabName ;;
      await (pageWaitComplete E page) ;;
      sleep 3000%Z ;;
      say ("Navigation completed with strategy: "
           ++ (if truthyOpt strategy then orDefault strategy EmptyString
               else "all")) )
    (report "Error waiting for navigation: ").

Definition ViewScreenAction (input tabName : option string) : M unit :=
  tryCatch
    ( page <- requirePage tabName ;;
      let has flag :=
        match input with
        | Some i => Js.includes i flag
        | None => false
        end in
      (* quality * 100 *)
      let quality := if has "high" then 100%Z else 80%Z in
      let maxWidth := if has "small" then 800%Z else 1200%Z in
      await (pageSetViewport E page maxWidth 600%Z) ;;
      base64 <- await (pageScreenshot E page quality) ;;
      await (updateLocationStateImage E 0 ("data:image/jpeg;base64," ++ base64)) ;;
      setImage ("data:image/jpeg;base64," ++ base64) ;;
      say "Screenshot captured and saved" )
    (report "Error taking screenshot: ").

Definition limit : Z := 100000.

(** [html.length > limit ? html.slice(0, limit) : html] *)
Definition truncate (html : string) : string :=
  if (Js.length html >? limit)%Z then Js.slice html 0 limit else html.

(** The search term as the page sees it: [action.searchTerm || ''] *)
Definition termOf (searchTerm : option string) : string :=
  if truthyOpt searchTerm then orDefault searchTerm EmptyString
  else EmptyString.

(** The options are stored in the window by a first evaluation and read
    back by the callback of the last one; the term is handed over here. *)
Definition BrowserSnapshotDomAction (searchTerm tabName : option string)
  : M unit :=
  tryCatch
    ( page <- requirePage tabName ;;
      let selector := "body" in
      let term := termOf searchTerm in
      await (pageSetSnapshotOpts E page term) ;;
      count <- await (pageCount E page selector) ;;
      match count with
      | O => say ("No elements found matching selector: " ++ selector)
      | S _ =>
          doc <- await (pageDocument E page) ;;
          html <- await (InPage.snapshot doc term) ;;
          let truncated := truncate html in
          await (updateLocationStateRendering E truncated) ;;
          setRendering truncated ;;
          say "DOM snapshot captured and saved to location rendering"
      end )
    (report "Error capturing DOM snapshot: ").

End WithAgent.

(** The named operations the orchestrator can issue, with their
    arguments as [call.arguments] carries them. *)
Inductive Action : Type :=
| launch_browser (headless : option bool) (url tabName : option string)
| close_browser
| create_tab (tabName : string) (url : option string)
| switch_tab (tabName : string)
| close_tab (tabName : string)
| list_tabs
| browser_click (selector : string) (waitAfterMs : option Z)
                (tabName : option string)
| browser_scroll (direction : option Direction) (pixels : option Z)
                 (toBottom : option bool) (waitAfterMs : option Z)
                 (tabName : option string)
| browser_wait (milliseconds : option Z)
| browser_navigate (url : string) (tabName : option string)
| browser_wait_for_navigation (strategy tabName : option string)
| view_screen (input tabName : option string)
| browser_snapshot_dom (searchTerm tabName : option string).

Definition execute (E : Engine) (agentName : string) (a : Action) : M unit :=
  match a with
  | launch_browser h u t => ChromeLaunchAction E agentName h u t
  | close_browser => ChromeCloseAction E agentName
  | create_tab t u => CreateTabAction E agentName t u
  | switch_tab t => SwitchTabAction E agentName t
  | close_tab t => CloseTabAction E agentName t
  | list_tabs => ListTabsAction agentName
  | browser_click s w t => BrowserClickAction E agentName s w t
  | browser_scroll d p b w t => BrowserScrollAction E agentName d p b w t
  | browser_wait ms => BrowserWaitAction agentName ms
  | browser_navigate u t => BrowserNavigateAction E agentName u t
  | browser_wait_for_navigation s t =>
      BrowserWaitForNavigationAction E agentName s t
  | view_screen i t => ViewScreenAction E agentName i t
  | browser_snapshot_dom s t => BrowserSnapshotDomAction E agentName s t
  end.

End Actions.

(* ===================================================================== *)
(** ** Registry operations and the registry invariant *)
(* ===================================================================== *)

Module Registry.

Inductive Op : Type :=
| Launch (url tabName : option string)
| Close
| CreateTab (tabName : string) (url : option string)
| SwitchTab (tabName : string)
| CloseTab (tabName : string)
| GetTab (tabName : option string)
| ListTabNames.

(** The world an operation leaves, whether it returned or threw. *)
Definition after (E : Engine) (op : Op) (w : World) : World :=
  match op with
  | Launch url tabName => snd (launchChromeBrowser E url tabName w)
  | Close => snd (closeChromeBrowser E w)
  | CreateTab tabName url => snd (createNewTab E tabName url w)
  | SwitchTab tabName => snd (switchToTab E tabName w)
  | CloseTab tabName => snd (closeTab E tabName w)
  | GetTab tabName => snd (getChromePage tabName w)
  | ListTabNames => snd (getChromePageNames w)
  end.

(** No tab without a session. *)
Definition invariant (w : World) : Prop :=
  globalBrowser w = None -> globalPages w = [].

(** No session is registered. *)
Definition noSession (w : World) : Prop :=
  globalBrowser w = None /\ globalPages w = [].

Definition failed {A} (r : Outcome A * World) : Prop :=
  exists e, fst r = Throw e.

End Registry.

(* ===================================================================== *)
(** ** What an operation writes to the reporting sink *)
(* ===================================================================== *)

Module Sink.

(** An operation that gives the sink nothing. *)
Definition quiet {A} (c : M A) : Prop :=
  forall w, messages (snd (c w)) = messages w.

(** An operation that gives the sink exactly one line when it returns
    and nothing when it throws. *)
Definition once {A} (c : M A) : Prop :=
  forall w,
    match c w with
    | (Ok _, w') => exists line, messages w' = (messages w ++ [line])%list
    | (Throw _, w') => messages w' = messages w
    end.


End Sink.

(* ===================================================================== *)
(** ** Notions used to state and prove the properties of the sanitizer *)
(* ===================================================================== *)

Module Text.
Import Regex.

(** [c] does not occur in [s]. *)
Fixpoint avoids (c : ascii) (s : string) : bool :=
  match s with
  | EmptyString => true
  | String b s' => negb (Ascii.eqb b c) && avoids c s'
  end.


(** Not an ASCII letter: a character that ignoring case does not change. *)
Definition caseless (c : ascii) : bool :=
  let n := Js.code c in
  (negb ((65 <=? n) && (n <=? 90)) && negb ((97 <=? n) && (n <=? 122)))%N.


(** Runs of spaces replaced by one space, written as a recursion of its
    own: [inRun] says that the previous character was a space. *)
Fixpoint collapse (inRun : bool) (s : string) : string :=
  match s with
  | EmptyString => EmptyString
  | String c s' =>
      if Js.isSpace c then
        if inRun then collapse true s' else String " " (collapse true s')
      else String c (collapse false s')
  end.

(** The replacement of [\s+] by one space, from the middle of a match
    of which [skip] characters are left. *)
Definition spaceOut (s : string) (skip : nat) : string :=
  replaceFrom false Sanitizer.reSpaces (fun _ _ => " ") s skip.

(** Every space of [s] is the character SPACE and follows a character
    that is not a space; [afterSpace] says that a space came just before. *)
Fixpoint spaced (afterSpace : bool) (s : string) : bool :=
  match s with
  | EmptyString => true
  | String c s' =>
      if Js.isSpace c then
        negb afterSpace && Ascii.eqb c " " && spaced true s'
      else spaced false s'
  end.

(** [spaced], and moreover the last character is not a space. *)
Fixpoint tidyAfter (afterSpace : bool) (s : string) : bool :=
  match s with
  | EmptyString => negb afterSpace
  | String c s' =>
      if Js.isSpace c then
        negb afterSpace && Ascii.eqb c " " && tidyAfter true s'
      else tidyAfter false s'
  end.

(** Every captured group is free of [c]. *)
Definition capturesAvoid (c : ascii) (caps : captures) : bool :=
  forallb (fun nv => avoids c (snd nv)) caps.

(** A result of the matcher whose captures are free of [c]. *)
Definition cleanResult (c : ascii) (o : option (string * captures)) : Prop :=
  match o with
  | Some (_, caps) => capturesAvoid c caps = true
  | None => True
  end.

(** Normalized text: empty, or single spaces between the first and the
    last character, neither of which is a space. *)
Definition tidy (s : string) : bool :=
  match s with
  | EmptyString => true
  | _ => tidyAfter true s
  end.

End Text.

(* ===================================================================== *)
(** ** The list of influencers served to the web page (web.ts) *)
(* ===================================================================== *)

(** The other uses of regular expressions: [match] without the [g] flag
    and [split]. *)
Module RegexOps.
Import Regex.

(** [r?] *)
Definition optional (r : regex) : regex := Alt r Empty.

(** [s.match(/r/)]: the captures of the first match, looked for from the
    left at every position, the end of the text included. *)
Fixpoint search (ignoreCase : bool) (r : regex) (s : string)
  : option captures :=
  match exec ignoreCase r s with
  | Some (_, caps) => Some caps
  | None =>
      match s with
      | EmptyString => None
      | String _ s' => search ignoreCase r s'
      end
  end.

Definition consHead (c : ascii) (pieces : list string) : list string :=
  match pieces with
  | p :: rest => String c p :: rest
  | [] => [String c EmptyString]
  end.

(** [s.split(/r/)] for a pattern without groups, on what is left of the
    text: [skip] characters of the current separator are still to be passed
    over, [fresh] says that the current piece is still empty. An empty
    match does not split at the start of a piece. *)
Fixpoint splitFrom (ignoreCase : bool) (r : regex) (s : string) (skip : nat)
    (fresh : bool) : list string :=
  match s with
  | EmptyString => [EmptyString]
  | String c s' =>
      match skip with
      | S n => splitFrom ignoreCase r s' n true
      | O =>
          match exec ignoreCase r s with
          | Some (S n, _) => EmptyString :: splitFrom ignoreCase r s' n true
          | Some (O, _) =>
              if fresh then consHead c (splitFrom ignoreCase r s' 0 false)
              else EmptyString
                   :: consHead c (splitFrom ignoreCase r s' 0 false)
          | None => consHead c (splitFrom ignoreCase r s' 0 false)
          end
      end
  end.

Definition split (ignoreCase : bool) (r : regex) (s : string) : list string :=
  match s with
  | EmptyString =>
      match exec ignoreCase r EmptyString with
      | Some _ => []
      | None => [EmptyString]
      end
  | _ => splitFrom ignoreCase r s 0 true
  end.

End RegexOps.

Module Web.
Import Regex RegexOps.

Record InfluencerItem : Type := mkInfluencer {
  username : string;
  name : string;
  bio : string;
  followers : option string;
  following : option string
}.

(** [s.split(sep)] for a separator of one character. *)
Fixpoint splitOn (sep : ascii) (s : string) : list string :=
  match s with
  | EmptyString => [EmptyString]
  | String c s' =>
      if Ascii.eqb c sep then EmptyString :: splitOn sep s'
      else consHead c (splitOn sep s')
  end.

(** [[\d,\.]] *)
Definition countChar (c : ascii) : bool :=
  let n := Js.code c in
  (((48 <=? n) && (n <=? 57)) || (n =? 44) || (n =? 46))%N.

(** [[km]] under the [i] flag *)
Definition unitChar (c : ascii) : bool :=
  let n := Js.code c in
  ((n =? 107) || (n =? 75) || (n =? 109) || (n =? 77))%N.

(** [<label>\s*([\d,\.]+[km]?)] *)
Definition reCount (label : string) : regex :=
  seqs [lits label; star Js.isSpace;
        Group 1 (Seq (plus countChar) (optional (Class unitChar)))].

Definition reFollowers : regex := reCount "followers:".
Definition reFollowing : regex := reCount "following:".


(** [m ? m[1] : undefined] *)
Definition firstGroup (m : option captures) : option string :=
  match m with
  | Some caps => capture 1 caps
  | None => None
  end.

(** The callback of [lines.map]: one line of the canvas, of the form
    [@handle | name | followers: N | following: M]. *)
Definition parseLine (line : string) : InfluencerItem :=
  let parts := map Js.trim (splitOn "|" line) in
  let handlePart := nth 0 parts EmptyString in
  let namePart := nth 1 parts EmptyString in
  let followersMatch := search true reFollowers line in
  let followingMatch := search true reFollowing line in
  let username :=
    if Js.startsWith "@" handlePart
    then Js.slice handlePart 1 (Js.length handlePart)
    else handlePart in
  let followers := firstGroup followersMatch in
  let following := firstGroup followingMatch in
  let bio := if 15 <? String.length namePart then namePart else EmptyString in
  let displayName :=
    if 15 <? String.length namePart then username else namePart in
  mkInfluencer username
    (if Js.truthy displayName then displayName else username)
    bio followers following.


(** Every character of [s] passes the test [p]. *)
Fixpoint allChars (p : ascii -> bool) (s : string) : bool :=
  match s with
  | EmptyString => true
  | String c s' => p c && allChars p s'
  end.

(** A count as the agents write it: digits, commas and dots, then
    possibly one of the letters k and m. *)
Definition isCount (s : string) : Prop :=
  exists digits unit,
    s = digits ++ unit
    /\ digits <> EmptyString
    /\ allChars countChar digits = true
    /\ (unit = EmptyString
        \/ exists u, unit = String u EmptyString /\ unitChar u = true).

(** A character of a handle: no white space, no bar, no colon. *)
Definition handleChar (c : ascii) : bool :=
  negb (Js.isSpace c) && negb (Ascii.eqb c "|") && negb (Ascii.eqb c ":").

(** A line of the canvas in the form the agents are told to write. *)
Definition formatLine (handle displayName followers following : string)
  : string :=
  "@" ++ handle ++ " | " ++ displayName ++ " | followers: " ++ followers
  ++ " | following: " ++ following.

End Web.

(* ===================================================================== *)
(** ** Notions used to state the properties of the actions *)
(* ===================================================================== *)

Module ActionNotions.
Import Actions.

(** The tab an action works on, for the actions that work on a page. *)
Definition targetTab (a : Action) : option (option string) :=
  match a with
  | browser_click _ _ t => Some t
  | browser_scroll _ _ _ _ t => Some t
  | browser_navigate _ t => Some t
  | browser_wait_for_navigation _ t => Some t
  | view_screen _ t => Some t
  | browser_snapshot_dom _ t => Some t
  | _ => None
  end.

(** What the [catch] of a page action writes before the error message. *)
Definition errorLabel (a : Action) : string :=
  match a with
  | browser_click _ _ _ => "Error clicking element: "
  | browser_scroll _ _ _ _ _ => "Error scrolling page: "
  | browser_navigate url _ => "Error navigating to " ++ url ++ ": "
  | browser_wait_for_navigation _ _ => "Error waiting for navigation: "
  | view_screen _ _ => "Error taking screenshot: "
  | browser_snapshot_dom _ _ => "Error capturing DOM snapshot: "
  | _ => EmptyString
  end.

(** The world with one more line in the reporting sink. *)
Definition withMessage (w : World) (line : string) : World :=
  mkWorld (globalBrowser w) (globalPages w) (messages w ++ [line])%list
    (rendering w) (image w) (console w) (timers w).

(** [action.input?.includes(flag)] *)
Definition inputHas (input : option string) (flag : string) : bool :=
  match input with
  | Some i => Js.includes i flag
  | None => false
  end.

(** Everything an action can change beside the reporting sink. *)
Definition effects (w : World)
  : option Browser * list (string * Page) * option string * option string
    * list ConsoleLine * list Z :=
  (globalBrowser w, globalPages w, rendering w, image w, console w, timers w).

End ActionNotions.

(* ===================================================================== *)
(** ** Concrete engines and pages *)
(* ===================================================================== *)

Module Samples.

Definition emptyDocument : Document := mkDocument [] None [] None.

(** An engine described by its answers to the calls that matter; every
    other call succeeds. Chrome, when installed, is at the first path. *)
Definition engineWith (chromeInstalled : bool) (launch : Outcome Browser)
    (closed : Outcome unit) (page : Outcome Page) (goto : Outcome unit)
    (bodies : nat) (doc : Outcome Document) : Engine :=
  {| envUsername := Some "samo";
     existsSync := fun path =>
       chromeInstalled
       && String.eqb path
            "C:\Program Files\Google\Chrome\Application\chrome.exe";
     puppeteerLaunch := fun _ => launch;
     browserClose := fun _ => closed;
     newPage := fun _ => page;
     pageGoto := fun _ _ => goto;
     pageBringToFront := fun _ => Ok tt;
     pageClose := fun _ => Ok tt;
     pageQuery := fun _ _ => Ok true;
     pageClick := fun _ _ _ => Ok tt;
     pageScroll := fun _ _ => Ok tt;
     pageTitle := fun _ => Ok "Instagram";
     pageWaitComplete := fun _ => Ok tt;
     pageSetViewport := fun _ _ _ => Ok tt;
     pageScreenshot := fun _ _ => Ok "/9j/4AAQ";
     pageSetSnapshotOpts := fun _ _ => Ok tt;
     pageCount := fun _ _ => Ok bodies;
     pageDocument := fun _ => doc;
     updateLocationStateRendering := fun _ => Ok tt;
     updateLocationStateImage := fun _ _ => Ok tt |}.

(** Everything works; the browser is handle 1 and every page handle 7. *)
Definition workingEngine : Engine :=
  engineWith true (Ok 1) (Ok tt) (Ok 7) (Ok tt) 1 (Ok emptyDocument).

(** No Chrome on the machine. *)
Definition noChromeEngine : Engine :=
  engineWith false (Ok 1) (Ok tt) (Ok 7) (Ok tt) 1 (Ok emptyDocument).

(** The browser starts, but the first page cannot be created. *)
Definition noPageEngine : Engine :=
  engineWith true (Ok 1) (Ok tt)
    (Throw (ErrorObject "Protocol error (Target.createTarget): Target closed"))
    (Ok tt) 1 (Ok emptyDocument).

(** The browser starts, the page is created, the navigation fails. *)
Definition noNetworkEngine : Engine :=
  engineWith true (Ok 1) (Ok tt) (Ok 7)
    (Throw (ErrorObject "net::ERR_NAME_NOT_RESOLVED")) 1 (Ok emptyDocument).

(** A world with a session and the two tabs the web front end opens. *)
(** An element whose text carries a tag. *)
Definition taggedPost : Element :=
  Node "<span>Best #Busan_Food spots</span>" "Best #Busan_Food spots" [].

(** [n] times the letter a. *)
Fixpoint letters (n : nat) : string :=
  match n with
  | O => EmptyString
  | S n' => String "a" (letters n')
  end.

Definition paragraph : Element := Node "<p>a</p>" "a" [].

(** A [meta] element with a description of [n] letters. *)
Definition description (n : nat) : Element :=
  Node ("<meta name=" ++ String Sanitizer.dquote "description"
        ++ String Sanitizer.dquote " content="
        ++ String Sanitizer.dquote (letters n)
        ++ String Sanitizer.dquote ">")
       EmptyString [].

(** A page without main element: the given [meta] elements in its head,
    the given elements in its body. *)
Definition pageOf (metas ps : list Element) : Document :=
  let inner := Js.join EmptyString (map outerHTML ps) in
  let body := Node ("<body>" ++ inner ++ "</body>")
                   (Js.join EmptyString (map textContent ps)) ps in
  mkDocument metas None [body] (Some body).

Definition smallPage : Document := pageOf [description 3] [paragraph].

(** A description long enough for the snapshot of one paragraph under
    the search term [a] to be exactly 100000 characters long. *)
Definition pageAtCap : Document :=
  pageOf [description (Z.to_nat 99954)] [paragraph].

(** The same head, and a second paragraph in the body. *)
Definition pageOverCap : Document :=
  pageOf [description (Z.to_nat 99954)] [paragraph; paragraph].

Definition servingEngine (doc : Document) : Engine :=
  engineWith true (Ok 1) (Ok tt) (Ok 7) (Ok tt) 1 (Ok doc).

(** A page of 2000 pixels that loads 1000 more at every callback until it
    is 6000 high. *)
Definition loadingPage (k : nat) : Z := Z.min (2000 + 1000 * Z.of_nat k) 6000.

(** A page that grows by 1000 pixels at every callback, for ever. *)
Definition endlessPage (k : nat) : Z := 2000 + 1000 * Z.of_nat k.

Definition twoTabs : World :=
  mkWorld (Some 1) [("post_list", 7); ("post_profile", 8)] [] None None [] [].

(** The world after a snapshot of [doc] under the search term [a]. *)
Definition afterSnapshot (doc : Document) : World :=
  snd (Actions.execute (servingEngine doc) "Samo"
         (Actions.browser_snapshot_dom (Some "a") None) twoTabs).

(** Two pages compared: the snapshot of the first is over the cap, that
    of the second is not, and both are stored as the same text. *)
Definition capCheck (doc1 doc2 : Document) : bool :=
  match InPage.snapshot doc1 "a", InPage.snapshot doc2 "a" with
  | Ok over, Ok atCap =>
      (Js.length over >? Actions.limit)%Z
      && (Js.length atCap <=? Actions.limit)%Z
      && String.eqb (Actions.truncate over) (Actions.truncate atCap)
  | _, _ => false
  end.

End Samples.

(* ===================================================================== *)
(** * Properties *)
(* ===================================================================== *)

(** ** The dispatcher never throws and reports one line *)

Module SinkFacts.
Import Sink Actions.

Lemma quiet_ret {A} (a : A) : quiet (ret a).
Proof. intro w; reflexivity. Qed.

Lemma quiet_throw {A} (e : Thrown) : quiet (@throw A e).
Proof. intro w; reflexivity. Qed.

Lemma quiet_await {A} (o : Outcome A) : quiet (await o).
Proof. intro w; reflexivity. Qed.

Lemma quiet_gets {A} (f : World -> A) : quiet (gets f).
Proof. intro w; reflexivity. Qed.

Lemma quiet_modify (f : World -> World) :
  (forall w, messages (f w) = messages w) -> quiet (modify f).
Proof. intros H w; apply H. Qed.

Lemma quiet_bind {A B} (c : M A) (f : A -> M B) :
  quiet c -> (forall a, quiet (f a)) -> quiet (bind c f).
Proof.
  intros Hc Hf w. unfold bind.
  specialize (Hc w). destruct (c w) as [[a | e] w1]; simpl in *.
  - rewrite Hf. exact Hc.
  - exact Hc.
Qed.

Lemma quiet_tryCatch {A} (body : M A) (h : Thrown -> M A) :
  quiet body -> (forall e, quiet (h e)) -> quiet (tryCatch body h).
Proof.
  intros Hb Hh w. unfold tryCatch.
  specialize (Hb w). destruct (body w) as [[a | e] w1]; simpl in *.
  - exact Hb.
  - rewrite Hh. exact Hb.
Qed.

Lemma quiet_setBrowser b : quiet (setBrowser b).
Proof. apply quiet_modify; reflexivity. Qed.
Lemma quiet_setPages ps : quiet (setPages ps).
Proof. apply quiet_modify; reflexivity. Qed.
Lemma quiet_setRendering r : quiet (setRendering r).
Proof. apply quiet_modify; reflexivity. Qed.
Lemma quiet_setImage i : quiet (setImage i).
Proof. apply quiet_modify; reflexivity. Qed.
Lemma quiet_consoleWrite l : quiet (consoleWrite l).
Proof. apply quiet_modify; reflexivity. Qed.
Lemma quiet_sleep ms : quiet (sleep ms).
Proof. apply quiet_modify; reflexivity. Qed.

Create HintDb sink discriminated.
#[global] Hint Resolve quiet_ret quiet_throw quiet_await quiet_gets
  quiet_setBrowser quiet_setPages quiet_setRendering quiet_setImage
  quiet_consoleWrite quiet_sleep : sink.

(** Solves [quiet] goals by following the shape of the program. *)
Ltac quiet_step :=
  match goal with
  | |- quiet (bind _ _) => apply quiet_bind; [ | intro ]
  | |- quiet (tryCatch _ _) => apply quiet_tryCatch; [ | intro ]
  | |- quiet (match ?x with _ => _ end) => destruct x
  | |- quiet (let _ := _ in _) => cbv zeta
  | |- quiet _ => solve [ auto with sink ]
  end.
Ltac quiet_tac := repeat quiet_step.

Lemma quiet_logAndRethrow {A} label e : quiet (@logAndRethrow A label e).
Proof. unfold logAndRethrow. quiet_tac. Qed.

Lemma quiet_getChromePage t : quiet (getChromePage t).
Proof. unfold getChromePage. quiet_tac. Qed.

Lemma quiet_getChromePageNames : quiet getChromePageNames.
Proof. unfold getChromePageNames. quiet_tac. Qed.

Lemma quiet_launchChromeBrowser E u t : quiet (launchChromeBrowser E u t).
Proof. unfold launchChromeBrowser. quiet_tac; apply quiet_logAndRethrow. Qed.

Lemma quiet_closeChromeBrowser E : quiet (closeChromeBrowser E).
Proof. unfold closeChromeBrowser. quiet_tac; apply quiet_logAndRethrow. Qed.

Lemma quiet_createNewTab E t u : quiet (createNewTab E t u).
Proof. unfold createNewTab. quiet_tac; apply quiet_logAndRethrow. Qed.

Lemma quiet_switchToTab E t : quiet (switchToTab E t).
Proof. unfold switchToTab. quiet_tac; apply quiet_logAndRethrow. Qed.

Lemma quiet_closeTab E t : quiet (closeTab E t).
Proof. unfold closeTab. quiet_tac; apply quiet_logAndRethrow. Qed.

Lemma quiet_requirePage t : quiet (requirePage t).
Proof. unfold requirePage. quiet_tac. apply quiet_getChromePage. Qed.

Lemma quiet_settle ms : quiet (settle ms).
Proof. unfold settle. quiet_tac. Qed.

#[global] Hint Resolve quiet_getChromePage quiet_getChromePageNames
  quiet_launchChromeBrowser
  quiet_closeChromeBrowser quiet_createNewTab quiet_switchToTab
  quiet_closeTab quiet_requirePage quiet_settle : sink.

Lemma once_say name text : once (say name text).
Proof. intro w. simpl. eexists; reflexivity. Qed.


#[global] Hint Resolve once_say : sink.



End SinkFacts.


(** ** The tab registry *)

Module RegistryFacts.
Import Registry.

(** Runs the monadic code of the registry symbolically: every answer of
    the engine and every test is split. *)
Ltac unfold_registry :=
  unfold launchChromeBrowser, closeChromeBrowser, createNewTab, switchToTab,
    closeTab, getChromePage, getChromePageNames, logAndRethrow, tryCatch,
    bind, gets, await, modify, ret, throw, setBrowser, setPages,
    consoleWrite in *.

Ltac split_answers :=
  repeat (simpl in *;
          match goal with
          | |- context [match ?o with _ => _ end] =>
              lazymatch o with
              | context [match _ with _ => _ end] => fail
              | _ => destruct o eqn:?
              end
          end).

Lemma has_false_get name m : MapOps.has name m = false -> MapOps.get name m = None.
Proof. unfold MapOps.has. destruct (MapOps.get name m); congruence. Qed.

Lemma get_set_same name p m : MapOps.get name (MapOps.set name p m) = Some p.
Proof.
  induction m as [| [k v] m IH]; simpl.
  - rewrite String.eqb_refl. reflexivity.
  - destruct (String.eqb k name) eqn:Hk; simpl; rewrite Hk; auto.
Qed.

Lemma get_set_other name k p m :
  k <> name -> MapOps.get k (MapOps.set name p m) = MapOps.get k m.
Proof.
  intro Hne. induction m as [| [k' v] m IH]; simpl.
  - destruct (String.eqb name k) eqn:Hk; [ | reflexivity].
    apply String.eqb_eq in Hk. congruence.
  - destruct (String.eqb k' name) eqn:Hk'; simpl.
    + apply String.eqb_eq in Hk'. subst k'.
      destruct (String.eqb name k) eqn:Hk; [ | reflexivity].
      apply String.eqb_eq in Hk. congruence.
    + rewrite IH. reflexivity.
Qed.

(** A name the map does not hold occurs once among the keys after [set]. *)
Lemma count_set_fresh name p m :
  MapOps.get name m = None ->
  count_occ string_dec (MapOps.keys (MapOps.set name p m)) name = 1.
Proof.
  induction m as [| [k v] m IH]; simpl; intro Hg.
  - destruct (string_dec name name); congruence.
  - destruct (String.eqb k name) eqn:Hk; [discriminate | ].
    simpl. destruct (string_dec k name) as [-> | _].
    + rewrite String.eqb_refl in Hk. discriminate.
    + apply IH. exact Hg.
Qed.

Lemma keys_set_fresh name p m :
  MapOps.get name m = None ->
  MapOps.keys (MapOps.set name p m) = (MapOps.keys m ++ [name])%list.
Proof.
  induction m as [| [k v] m IH]; simpl; intro Hg.
  - reflexivity.
  - destruct (String.eqb k name) eqn:Hk; [discriminate | ].
    simpl. rewrite IH by exact Hg. reflexivity.
Qed.

(** The invariant, operation by operation. *)
Lemma invariant_after (E : Engine) (op : Op) (w : World) :
  invariant w -> invariant (after E op w).
Proof.
  unfold invariant. intro Hw.
  destruct op; unfold after; unfold_registry; split_answers;
    simpl; intros; subst; try congruence; auto.
  all: try (rewrite Hw in * by assumption; simpl in *; congruence).
Qed.

End RegistryFacts.

(** C9. Every registry operation (launch, close, create a tab, switch to
    a tab, close a tab, look a tab up, list the names) keeps the invariant
    that a null browser handle comes with an empty registry, whatever the
    engine answers and whether the operation returns or throws. *)
Theorem registry_invariant_kept :
  forall (E : Engine) (op : Registry.Op) (w : World),
    Registry.invariant w -> Registry.invariant (Registry.after E op w).
Proof. exact RegistryFacts.invariant_after. Qed.

Lemma registry_invariant_kept_witness :
  Registry.invariant Samples.twoTabs
  /\ Registry.invariant
       (Registry.after Samples.workingEngine Registry.Close Samples.twoTabs).
Proof.
  assert (H : Registry.invariant Samples.twoTabs).
  { unfold Registry.invariant; simpl; intro; discriminate. }
  split; [exact H | ].
  apply (registry_invariant_kept Samples.workingEngine Registry.Close
           Samples.twoTabs H).
Defined.

(** Hence the invariant after any sequence of operations from the start
    of the process, each with an engine of its own. *)
Lemma registry_invariant_reachable (steps : list (Engine * Registry.Op)) :
  Registry.invariant
    (fold_left (fun w s => Registry.after (fst s) (snd s) w) steps initialWorld).
Proof.
  assert (H : Registry.invariant initialWorld) by (intro; reflexivity).
  revert H. generalize initialWorld.
  induction steps as [| [E op] steps IH]; simpl; intros w H.
  - exact H.
  - apply IH. apply RegistryFacts.invariant_after. exact H.
Qed.

(** C3, as the code has it. From a state that satisfies the registry
    invariant, when the previous session (if any) closes without error:
    a launch that fails because no browser executable is found, or because
    the engine refuses to start a browser, throws and leaves no session
    registered (null handle, empty registry); a launch that fails because
    the first page cannot be created throws and leaves the handle of the
    new browser registered, with an empty registry; a launch that fails
    in the first navigation throws and leaves both the new handle and the
    new tab registered. *)
Theorem launch_failure_leaves_no_session :
  forall (E : Engine) (url tabName : option string) (w : World),
    Registry.invariant w ->
    (forall b, globalBrowser w = Some b -> browserClose E b = Ok tt) ->
    let r := launchChromeBrowser E url tabName w in
    let address := orDefault url "https://www.instagram.com/" in
    ((findChromeExecutable E = None
      \/ forall opts, exists e, puppeteerLaunch E opts = Throw e) ->
     Registry.failed r /\ Registry.noSession (snd r))
    /\ (forall path b e,
          findChromeExecutable E = Some path ->
          (forall opts, puppeteerLaunch E opts = Ok b) ->
          newPage E b = Throw e ->
          Registry.failed r
          /\ globalBrowser (snd r) = Some b /\ globalPages (snd r) = [])
    /\ (forall path b p e,
          findChromeExecutable E = Some path ->
          (forall opts, puppeteerLaunch E opts = Ok b) ->
          newPage E b = Ok p ->
          Js.truthy address = true ->
          pageGoto E p address = Throw e ->
          Registry.failed r
          /\ globalBrowser (snd r) = Some b
          /\ globalPages (snd r) = [(orDefault tabName "default", p)]).
Proof.
  intros E url tabName w Hinv Hclose r address. subst r address.
  unfold Registry.failed, Registry.noSession, Registry.invariant in *.
  RegistryFacts.unfold_registry.
  assert (Hpages : globalBrowser w = None -> globalPages w = []) by exact Hinv.
  destruct (globalBrowser w) as [b0 |] eqn:Hb;
    [rewrite (Hclose b0 eq_refl); clear Hpages
    | specialize (Hpages eq_refl)];
    simpl.
  all: split; [ | split].
  all: try (intros [Hnone | Hlaunch];
            [rewrite Hnone
            | match goal with
              | |- context [match ?f with Some _ => _ | None => _ end] =>
                  destruct f as [path |]; simpl
              end;
              [match goal with
               | |- context [puppeteerLaunch _ ?o] =>
                   destruct (Hlaunch o) as [e He]; rewrite He
               end | ]]).
  all: try (intros path b e Hpath Hlaunch Hpage;
            rewrite Hpath; simpl; rewrite Hlaunch; simpl; rewrite Hpage).
  all: try (intros path b p e Hpath Hlaunch Hpage Htruthy Hgoto;
            rewrite Hpath; simpl; rewrite Hlaunch; simpl; rewrite Hpage;
            simpl; rewrite Htruthy; simpl; rewrite Hgoto).
  all: simpl; try rewrite Hpages;
    (split; [eexists; reflexivity | split; (reflexivity || assumption)]).
Qed.

Lemma launch_failure_leaves_no_session_witness :
  (Registry.failed
     (launchChromeBrowser Samples.noChromeEngine None None Samples.twoTabs)
   /\ Registry.noSession
        (snd (launchChromeBrowser Samples.noChromeEngine None None
                Samples.twoTabs)))
  /\ globalBrowser
       (snd (launchChromeBrowser Samples.noPageEngine None None
               Samples.twoTabs)) = Some 1
  /\ globalPages
       (snd (launchChromeBrowser Samples.noNetworkEngine None
               (Some "post_list") Samples.twoTabs)) = [("post_list", 7)].
Proof.
  assert (Hinv : Registry.invariant Samples.twoTabs).
  { unfold Registry.invariant; simpl; intro; discriminate. }
  split; [ | split].
  - apply (launch_failure_leaves_no_session Samples.noChromeEngine None None
             Samples.twoTabs Hinv).
    + intros b _. reflexivity.
    + left. reflexivity.
  - pose proof (launch_failure_leaves_no_session Samples.noPageEngine None
                  None Samples.twoTabs Hinv) as H.
    destruct H as [_ [H _]]; [intros b _; reflexivity | ].
    refine (proj1 (proj2 (H _ 1 _ eq_refl _ eq_refl))).
    intro opts. reflexivity.
  - pose proof (launch_failure_leaves_no_session Samples.noNetworkEngine None
                  (Some "post_list") Samples.twoTabs Hinv) as H.
    destruct H as [_ [_ H]]; [intros b _; reflexivity | ].
    refine (proj2 (proj2 (H _ 1 7 _ eq_refl _ eq_refl eq_refl eq_refl))).
    intro opts. reflexivity.
Defined.

(** C3 as stated fails: the browser starts and the first page cannot be
    created; the launch throws and the handle of the new browser stays in
    [globalBrowser]. *)
Lemma launch_failure_keeps_browser :
  Registry.failed
    (launchChromeBrowser Samples.noPageEngine None None initialWorld)
  /\ ~ Registry.noSession
         (snd (launchChromeBrowser Samples.noPageEngine None None initialWorld)).
Proof.
  split.
  - eexists. reflexivity.
  - intros [Hb _]. simpl in Hb. discriminate.
Qed.

(** The same after a failed first navigation: browser and tab both stay. *)
Lemma launch_navigation_failure_keeps_tab :
  launchChromeBrowser Samples.noNetworkEngine None (Some "post_list")
    initialWorld
  = (Throw (ErrorObject "net::ERR_NAME_NOT_RESOLVED"),
     mkWorld (Some 1) [("post_list", 7)] [] None None
       [ConsoleError "Error launching Chrome browser:"
          "net::ERR_NAME_NOT_RESOLVED"] []).
Proof. reflexivity. Qed.

(** C4. [createNewTab] throws when no session exists and throws when the
    name is already registered, and in both cases the browser handle and
    the registry are what they were. When it returns, the name occurs
    exactly once among the registered names and every tab registered before
    is still registered, with the same page. It does return when a session
    exists, the name is new and the engine creates (and, if asked, loads)
    the page. *)
Theorem createNewTab_registry :
  forall (E : Engine) (n : string) (url : option string) (w : World),
    let r := createNewTab E n url w in
    (globalBrowser w = None ->
       Registry.failed r
       /\ globalBrowser (snd r) = globalBrowser w
       /\ globalPages (snd r) = globalPages w)
    /\ (MapOps.has n (globalPages w) = true ->
          Registry.failed r
          /\ globalBrowser (snd r) = globalBrowser w
          /\ globalPages (snd r) = globalPages w)
    /\ (fst r = Ok tt ->
          count_occ string_dec (MapOps.keys (globalPages (snd r))) n = 1
          /\ forall k p, MapOps.get k (globalPages w) = Some p ->
                         MapOps.get k (globalPages (snd r)) = Some p)
    /\ (forall b p,
          globalBrowser w = Some b ->
          MapOps.has n (globalPages w) = false ->
          newPage E b = Ok p ->
          (truthyOpt url = true ->
           pageGoto E p (orDefault url EmptyString) = Ok tt) ->
          fst r = Ok tt).
Proof.
  intros E n url w r. subst r. unfold Registry.failed.
  RegistryFacts.unfold_registry.
  destruct (globalBrowser w) as [b |] eqn:Hb; simpl.
  2: { repeat split; intros; try discriminate; eauto. }
  destruct (MapOps.has n (globalPages w)) eqn:Hhas; simpl.
  { repeat split; intros; try discriminate; eauto. }
  split; [discriminate | ]. split; [discriminate | ].
  pose proof (RegistryFacts.has_false_get _ _ Hhas) as Hget.
  split.
  - destruct (newPage E b) as [p | e]; simpl; [ | discriminate].
    destruct (truthyOpt url); simpl.
    + destruct (pageGoto E p (orDefault url EmptyString)); simpl;
        [ | discriminate].
      intros _. split.
      * apply RegistryFacts.count_set_fresh. exact Hget.
      * intros k q Hk. rewrite RegistryFacts.get_set_other; [exact Hk | ].
        intro Heq. subst k. congruence.
    + intros _. split.
      * apply RegistryFacts.count_set_fresh. exact Hget.
      * intros k q Hk. rewrite RegistryFacts.get_set_other; [exact Hk | ].
        intro Heq. subst k. congruence.
  - intros b0 p Hb0 _ Hp Hgoto. injection Hb0 as <-.
    rewrite Hp. simpl.
    destruct (truthyOpt url); simpl.
    + rewrite (Hgoto eq_refl). reflexivity.
    + reflexivity.
Qed.

Lemma createNewTab_registry_witness :
  (* a duplicate name: thrown, nothing changed *)
  (Registry.failed
     (createNewTab Samples.workingEngine "post_list" None Samples.twoTabs)
   /\ globalPages
        (snd (createNewTab Samples.workingEngine "post_list" None
                Samples.twoTabs))
      = globalPages Samples.twoTabs)
  (* no session: thrown, nothing changed *)
  /\ (Registry.failed
        (createNewTab Samples.workingEngine "t" None initialWorld)
      /\ globalPages
           (snd (createNewTab Samples.workingEngine "t" None initialWorld))
         = globalPages initialWorld)
  (* a new name: one tab of that name, the others kept *)
  /\ (count_occ string_dec
        (MapOps.keys
           (globalPages
              (snd (createNewTab Samples.workingEngine "t3"
                      (Some "https://www.instagram.com/") Samples.twoTabs))))
        "t3" = 1
      /\ MapOps.get "post_profile"
           (globalPages
              (snd (createNewTab Samples.workingEngine "t3"
                      (Some "https://www.instagram.com/") Samples.twoTabs)))
         = Some 8).
Proof.
  pose proof (createNewTab_registry Samples.workingEngine "post_list" None
                Samples.twoTabs) as [_ [Hdup _]].
  pose proof (createNewTab_registry Samples.workingEngine "t" None
                initialWorld) as [Hnone _].
  pose proof (createNewTab_registry Samples.workingEngine "t3"
                (Some "https://www.instagram.com/") Samples.twoTabs)
    as [_ [_ [Hok Hruns]]].
  split; [ | split].
  - destruct (Hdup eq_refl) as [Hf [_ Hp]]. split; [exact Hf | exact Hp].
  - destruct (Hnone eq_refl) as [Hf [_ Hp]]. split; [exact Hf | exact Hp].
  - assert (Hr : fst (createNewTab Samples.workingEngine "t3"
                        (Some "https://www.instagram.com/") Samples.twoTabs)
                 = Ok tt).
    { apply (Hruns 1 7); reflexivity. }
    destruct (Hok Hr) as [Hc Hk]. split; [exact Hc | ].
    apply Hk. reflexivity.
Defined.

(** C7, as the code has it. Without a session, the close action returns
    without throwing and changes neither handle nor registry; the line
    about no instance running goes to the process console, and the line
    given to the reporting sink is the success line. With a session whose
    browser closes without error, the handle becomes null and the registry
    empty, and the sink receives the same success line. *)
Theorem close_browser_outcome :
  forall (E : Engine) (agentName : string) (w : World),
    let r := Actions.execute E agentName Actions.close_browser w in
    let success := "[" ++ agentName ++ "] Successfully closed Chrome browser" in
    (globalBrowser w = None ->
       fst r = Ok tt
       /\ globalBrowser (snd r) = None
       /\ globalPages (snd r) = globalPages w
       /\ console (snd r)
          = (console w ++ [ConsoleLog "No browser instance was running"])%list
       /\ messages (snd r) = (messages w ++ [success])%list)
    /\ (forall b,
          globalBrowser w = Some b -> browserClose E b = Ok tt ->
          fst r = Ok tt
          /\ globalBrowser (snd r) = None
          /\ globalPages (snd r) = []
          /\ messages (snd r) = (messages w ++ [success])%list).
Proof.
  intros E agentName w r success. subst r success. simpl.
  unfold Actions.ChromeCloseAction, Actions.say, Actions.report,
    addSystemMessage.
  RegistryFacts.unfold_registry.
  split.
  - intro Hb. rewrite Hb. simpl. repeat split; auto.
  - intros b Hb Hc. rewrite Hb, Hc. simpl. repeat split; auto.
Qed.

Lemma close_browser_outcome_witness :
  fst (Actions.execute Samples.workingEngine "Samo" Actions.close_browser
         initialWorld) = Ok tt
  /\ globalPages
       (snd (Actions.execute Samples.workingEngine "Samo"
               Actions.close_browser Samples.twoTabs)) = [].
Proof.
  pose proof (close_browser_outcome Samples.workingEngine "Samo" initialWorld)
    as [Hnone _].
  pose proof (close_browser_outcome Samples.workingEngine "Samo"
                Samples.twoTabs) as [_ Hsome].
  split.
  - destruct (Hnone eq_refl) as [H _]. exact H.
  - destruct (Hsome 1 eq_refl eq_refl) as [_ [_ [H _]]]. exact H.
Defined.

(** C7 as stated fails: closing with no prior launch gives the sink
    the very line a real close gives it, and no other; the words about no
    instance running reach the console only. *)
Lemma close_without_session_reports_success :
  messages
    (snd (Actions.execute Samples.workingEngine "Samo" Actions.close_browser
            initialWorld))
  = ["[Samo] Successfully closed Chrome browser"]
  /\ messages
       (snd (Actions.execute Samples.workingEngine "Samo"
               Actions.close_browser Samples.twoTabs))
     = ["[Samo] Successfully closed Chrome browser"]
  /\ console
       (snd (Actions.execute Samples.workingEngine "Samo"
               Actions.close_browser initialWorld))
     = [ConsoleLog "No browser instance was running"]
  /\ forallb (fun line => negb (Js.includes line "No browser instance"))
       (messages
          (snd (Actions.execute Samples.workingEngine "Samo"
                  Actions.close_browser initialWorld)))
     = true.
Proof. repeat split. Qed.

(** ** The fixed wait *)

(** C10. A duration of 0 is treated as an omitted one: the wait action
    does the same thing in both cases, which is to sleep 3000 ms and report
    it; and whatever the argument, the duration slept is never 0. *)
Theorem wait_zero_is_default :
  forall (E : Engine) (agentName : string) (w : World),
    Actions.waitTime (Some 0%Z) = 3000%Z
    /\ Actions.waitTime None = 3000%Z
    /\ Actions.execute E agentName (Actions.browser_wait (Some 0%Z)) w
       = Actions.execute E agentName (Actions.browser_wait None) w
    /\ timers (snd (Actions.BrowserWaitAction agentName (Some 0%Z) w))
       = (timers w ++ [3000%Z])%list
    /\ messages (snd (Actions.BrowserWaitAction agentName (Some 0%Z) w))
       = (messages w
          ++ [("[" ++ agentName ++ "] Waited for 3000ms (3s)")%string])%list
    /\ forall milliseconds, Actions.waitTime milliseconds <> 0%Z.
Proof.
  intros E agentName w. repeat split.
  intros [ms |]; unfold Actions.waitTime.
  - destruct (ms =? 0)%Z eqn:H; [discriminate | ].
    apply Z.eqb_neq. exact H.
  - discriminate.
Qed.

(** ** The search-term filter *)

Module FilterFacts.

Lemma append_assoc (a b c : string) : (a ++ b) ++ c = a ++ (b ++ c).
Proof. induction a as [| x a IH]; simpl; [ | rewrite IH]; reflexivity. Qed.

Lemma startsWith_spec p s :
  Js.startsWith p s = true <-> exists post, s = p ++ post.
Proof.
  revert s. induction p as [| a p IH]; intro s; simpl.
  - split; [intros _; exists s; reflexivity | reflexivity].
  - destruct s as [| b s].
    + split; [discriminate | intros [post H]; discriminate].
    + rewrite andb_true_iff, Ascii.eqb_eq, IH. split.
      * intros [-> [post ->]]. exists post. reflexivity.
      * intros [post H]. injection H as -> ->. split; [reflexivity | eauto].
Qed.

Lemma includes_spec s p : Js.includes s p = true <-> Js.contains s p.
Proof.
  unfold Js.contains. induction s as [| c s IH].
  - simpl. rewrite orb_false_r, startsWith_spec. split.
    + intros [post H]. exists EmptyString, post. exact H.
    + intros [pre [post H]]. destruct pre; [eauto | discriminate].
  - change (Js.includes (String c s) p)
      with (Js.startsWith p (String c s) || Js.includes s p).
    rewrite orb_true_iff, startsWith_spec, IH. split.
    + intros [[post H] | [pre [post H]]].
      * exists EmptyString, post. exact H.
      * exists (String c pre), post. simpl. rewrite H. reflexivity.
    + intros [pre [post H]]. destruct pre as [| c' pre].
      * left. exists post. exact H.
      * right. injection H as _ H. eauto.
Qed.

Lemma truthy_nonempty t : t <> EmptyString -> Js.truthy t = true.
Proof. destruct t; [congruence | reflexivity]. Qed.

(** A text that contains the term after a hash mark contains the term:
    the second test of the filter never decides. *)
Lemma hashtag_test_redundant (element : Element) (term : string) :
  term <> EmptyString ->
  InPage.containsSearchTerm element term
  = Js.includes (Js.toLowerCase (textContent element)) (Js.toLowerCase term).
Proof.
  intro Hne. unfold InPage.containsSearchTerm.
  rewrite (truthy_nonempty _ Hne). simpl negb. cbv iota.
  destruct (Js.includes (Js.toLowerCase (textContent element))
              (Js.toLowerCase term)) eqn:H1; [reflexivity | ].
  destruct (Js.includes (Js.toLowerCase (textContent element))
              ("#" ++ Js.toLowerCase term)) eqn:H2; [ | reflexivity].
  apply includes_spec in H2. destruct H2 as [pre [post H2]].
  assert (H3 : Js.includes (Js.toLowerCase (textContent element))
                 (Js.toLowerCase term) = true).
  { apply includes_spec. exists (pre ++ "#"), post. rewrite H2.
    rewrite (append_assoc pre "#"). reflexivity. }
  congruence.
Qed.

End FilterFacts.

(** C5. Under a non-empty search term the filter keeps an element exactly
    when its text content, in lower case, contains the term in lower case
    or contains the hash mark followed by the term in lower case; the
    elements kept are the descendants of the scope root that pass the
    filter. Without a search term the filter passes every element and the
    scope root (the main element, else the body elements) is kept as it
    is. *)
Theorem containsSearchTerm_spec :
  forall (doc : Document) (element : Element) (t : string),
    (t <> EmptyString ->
       (InPage.containsSearchTerm element t = true <->
          Js.contains (Js.toLowerCase (textContent element))
                               (Js.toLowerCase t)
          \/ Js.contains (Js.toLowerCase (textContent element))
                                  ("#" ++ Js.toLowerCase t))
       /\ (forall root,
             match mainElement doc with
             | Some m => Some m
             | None => match bodyElements doc with
                       | b :: _ => Some b
                       | [] => documentBody doc
                       end
             end = Some root ->
             InPage.keptElements doc t
             = Some (filter (fun el => InPage.containsSearchTerm el t)
                            (descendants root))))
    /\ InPage.containsSearchTerm element EmptyString = true
    /\ InPage.keptElements doc EmptyString
       = Some (match mainElement doc with
               | Some m => [m]
               | None => bodyElements doc
               end).
Proof.
  intros doc element t. split; [ | split; reflexivity].
  intro Hne. split.
  - unfold InPage.containsSearchTerm.
    rewrite (FilterFacts.truthy_nonempty _ Hne). simpl negb. cbv iota.
    rewrite orb_true_iff, !FilterFacts.includes_spec. reflexivity.
  - intros root Hroot. unfold InPage.keptElements.
    rewrite (FilterFacts.truthy_nonempty _ Hne).
    destruct (mainElement doc) as [m |].
    + injection Hroot as ->. reflexivity.
    + destruct (bodyElements doc) as [| b bs].
      * rewrite Hroot. reflexivity.
      * injection Hroot as ->. reflexivity.
Qed.

Lemma containsSearchTerm_spec_witness :
  InPage.containsSearchTerm Samples.taggedPost "busan_food" = true.
Proof.
  destruct (containsSearchTerm_spec Samples.emptyDocument Samples.taggedPost
              "busan_food") as [H _].
  assert (Hne : "busan_food" <> EmptyString) by discriminate.
  destruct (H Hne) as [[_ Hback] _].
  apply Hback. right. exists "best ", " spots". reflexivity.
Defined.

(** ** Scrolling to the bottom *)

Module ScrollFacts.
Import InPage.

Lemma scrollToBottom_S heights fuel k v :
  scrollToBottom heights (S fuel) k v
  = let (v', done) := tick (reflow (heights k) v) in
    if done then Some (v', S k)
    else scrollToBottom heights fuel (S k) v'.
Proof. reflexivity. Qed.

(** After a reflow the offset is inside the document. *)
Lemma reflow_range h v :
  (0 <= scrollTop (reflow h v) <= maxScrollTop (reflow h v))%Z
  /\ scrollHeight (reflow h v) = h
  /\ clientHeight (reflow h v) = clientHeight v.
Proof. unfold reflow, scrollBy, maxScrollTop. simpl. lia. Qed.

(** The callback that clears the interval leaves the window at the
    bottom of the document it measured. *)
Lemma tick_done v v' :
  tick v = (v', true) ->
  scrollTop v' = maxScrollTop v'
  /\ scrollHeight v' = scrollHeight v /\ clientHeight v' = clientHeight v.
Proof.
  unfold tick, scrollBy, maxScrollTop, distance. intro H.
  injection H as <- Hd. simpl. apply Z.geb_le in Hd. lia.
Qed.

(** A callback that does not clear it finds the window more than 10
    pixels above the bottom and moves it down by more than 10 pixels. *)
Lemma tick_progress v v' :
  (0 <= scrollTop v)%Z ->
  tick v = (v', false) ->
  clientHeight v' = clientHeight v
  /\ (scrollTop v + 10 < maxScrollTop v)%Z
  /\ (scrollTop v + 10 < scrollTop v' <= maxScrollTop v)%Z.
Proof.
  unfold tick, scrollBy, maxScrollTop, distance. intros Hpos H.
  injection H as <- Hd. simpl.
  assert (Hlt : (scrollTop v + clientHeight v < scrollHeight v - 10)%Z).
  { destruct (Z.geb_spec (scrollTop v + clientHeight v) (scrollHeight v - 10));
      [discriminate | lia]. }
  lia.
Qed.

Section Bounded.

Variable heights : nat -> Z.
Variable bound : Z.
Hypothesis bounded : forall k, (heights k <= bound)%Z.

(** The largest offset any of the documents allows. *)
Let top (client : Z) : Z := Z.max 0 (bound - client).

Lemma scrollToBottom_enough (fuel : nat) :
  forall k v,
    let v0 := reflow (heights k) v in
    (scrollTop v0 = maxScrollTop v0 /\ 1 <= fuel)
    \/ Z.to_nat ((top (clientHeight v) - scrollTop v0) / 11) + 2 <= fuel ->
    exists vEnd n,
      k < n <= k + fuel
      /\ (forall extra,
            scrollToBottom heights (fuel + extra) k v = Some (vEnd, n))
      /\ scrollHeight vEnd = heights (n - 1)
      /\ scrollTop vEnd = maxScrollTop vEnd.
Proof.
  induction fuel as [| fuel IH]; intros k v v0 Hfuel; [lia | ].
  destruct (reflow_range (heights k) v) as [Hrange [Hh Hc]]. fold v0 in Hrange, Hh, Hc.
  destruct (tick v0) as [v' done] eqn:Ht. destruct done.
  - destruct (tick_done _ _ Ht) as [Hbot [Hh' Hc']].
    exists v', (S k). split; [lia | ]. split; [ | split].
    + intro extra. change (S fuel + extra) with (S (fuel + extra)).
      rewrite scrollToBottom_S. fold v0. rewrite Ht. reflexivity.
    + replace (S k - 1) with k by lia. congruence.
    + exact Hbot.
  - destruct (tick_progress _ _ (proj1 Hrange) Ht) as [Hc' [Hfar Hmove]].
    destruct Hfuel as [[Hbot _] | Hfuel]; [lia | ].
    assert (Hmax : (maxScrollTop v0 <= top (clientHeight v))%Z).
    { unfold maxScrollTop, top. rewrite Hh, Hc. specialize (bounded k). lia. }
    assert (Hone : (1 <= (top (clientHeight v) - scrollTop v0) / 11)%Z).
    { apply Z.div_le_lower_bound; lia. }
    set (v1 := reflow (heights (S k)) v').
    destruct (reflow_range (heights (S k)) v') as [Hrange1 [Hh1 Hc1]].
    fold v1 in Hrange1, Hh1, Hc1.
    assert (Hnext :
      (scrollTop v1 = maxScrollTop v1 /\ 1 <= fuel)
      \/ Z.to_nat ((top (clientHeight v') - scrollTop v1) / 11) + 2 <= fuel).
    { destruct (Z.eq_dec (scrollTop v1) (maxScrollTop v1)) as [Heq | Hne].
      - left. split; [exact Heq | lia].
      - right.
        assert (Hkeep : scrollTop v1 = scrollTop v').
        { unfold v1, reflow, scrollBy, maxScrollTop in *. simpl in *. lia. }
        rewrite Hc', Hc, Hkeep.
        assert ((top (clientHeight v) - scrollTop v') / 11 + 1
                <= (top (clientHeight v) - scrollTop v0) / 11)%Z.
        { replace (top (clientHeight v) - scrollTop v0)%Z
            with ((top (clientHeight v) - scrollTop v0 - 11) + 1 * 11)%Z by lia.
          rewrite Z.div_add by lia.
          assert ((top (clientHeight v) - scrollTop v') / 11
                  <= (top (clientHeight v) - scrollTop v0 - 11) / 11)%Z.
          { apply Z.div_le_mono; lia. }
          lia. }
        lia. }
    destruct (IH (S k) v' Hnext) as [vEnd [n [Hn [Hrun [Hlast Hbot]]]]].
    exists vEnd, n. split; [lia | ]. split; [ | split; assumption].
    intro extra. change (S fuel + extra) with (S (fuel + extra)).
    rewrite scrollToBottom_S. fold v0. rewrite Ht. apply Hrun.
Qed.

End Bounded.

(** On a page that grows by more than the window moves, the interval is
    never cleared: the bound on the height cannot be dropped. *)
Lemma scrollToBottom_endless fuel :
  forall k,
    scrollToBottom Samples.endlessPage fuel k
      (mkViewport (800 * Z.of_nat k) (Samples.endlessPage k) 500) = None.
Proof.
  induction fuel as [| fuel IH]; intro k; [reflexivity | ].
  rewrite scrollToBottom_S.
  assert (Ht : tick (reflow (Samples.endlessPage k)
                       (mkViewport (800 * Z.of_nat k)
                          (Samples.endlessPage k) 500))
               = (mkViewport (800 * Z.of_nat (S k)) (Samples.endlessPage k) 500,
                  false)).
  { unfold tick, reflow, scrollBy, maxScrollTop, distance,
      Samples.endlessPage. cbn [scrollTop scrollHeight clientHeight].
    f_equal.
    - f_equal. lia.
    - rewrite Z.geb_leb. apply Z.leb_gt. lia. }
  rewrite Ht. specialize (IH (S k)).
  assert (Hsame : forall h,
            scrollToBottom Samples.endlessPage fuel (S k)
              (mkViewport (800 * Z.of_nat (S k)) h 500)
            = scrollToBottom Samples.endlessPage fuel (S k)
                (mkViewport (800 * Z.of_nat (S k))
                   (Samples.endlessPage (S k)) 500)).
  { intro h. destruct fuel; [reflexivity | ]. reflexivity. }
  rewrite Hsame. exact IH.
Qed.

End ScrollFacts.

(** C8. On a page whose scroll height stays finite, that is, never
    exceeds some bound while the page loads or drops content between the
    callbacks, the interval that scrolls to the bottom is cleared after
    finitely many callbacks: [ticksNeeded] of them are enough, wherever the
    window starts. When the promise resolves, the scroll offset is within
    10 pixels of (in fact at) the largest offset allowed by the document
    as the last callback measured it. *)
Theorem scrollToBottom_terminates :
  forall (heights : nat -> Z) (bound : Z) (v : InPage.Viewport),
    (forall k, (heights k <= bound)%Z) ->
    exists vEnd n,
      (forall extra,
         InPage.scrollToBottom heights (InPage.ticksNeeded bound v + extra) 0 v
         = Some (vEnd, n))
      /\ 1 <= n <= InPage.ticksNeeded bound v
      /\ InPage.scrollHeight vEnd = heights (n - 1)
      /\ (InPage.maxScrollTop vEnd - 10 <= InPage.scrollTop vEnd
          <= InPage.maxScrollTop vEnd)%Z.
Proof.
  intros heights bound v Hb.
  destruct (ScrollFacts.scrollToBottom_enough heights bound Hb
              (InPage.ticksNeeded bound v) 0 v)
    as [vEnd [n [Hn [Hrun [Hlast Hbot]]]]].
  - right. unfold InPage.ticksNeeded.
    destruct (ScrollFacts.reflow_range (heights 0) v) as [Hrange _].
    assert ((Z.max 0 (bound - InPage.clientHeight v)
             - InPage.scrollTop (InPage.reflow (heights 0%nat) v)) / 11
            <= Z.max 0 (bound - InPage.clientHeight v) / 11)%Z.
    { apply Z.div_le_mono; lia. }
    assert (0 <= Z.max 0 (bound - InPage.clientHeight v) / 11)%Z.
    { apply Z.div_pos; lia. }
    lia.
  - exists vEnd, n. split; [exact Hrun | ]. split; [lia | ].
    split; [exact Hlast | ]. rewrite Hbot. lia.
Qed.

Lemma scrollToBottom_terminates_witness :
  (forall k, (Samples.loadingPage k <= 6000)%Z)
  /\ exists vEnd n,
       (forall extra,
          InPage.scrollToBottom Samples.loadingPage
            (InPage.ticksNeeded 6000 (InPage.mkViewport 0 2000 900) + extra) 0
            (InPage.mkViewport 0 2000 900)
          = Some (vEnd, n))
       /\ 1 <= n <= InPage.ticksNeeded 6000 (InPage.mkViewport 0 2000 900)
       /\ InPage.scrollHeight vEnd = Samples.loadingPage (n - 1)
       /\ (InPage.maxScrollTop vEnd - 10 <= InPage.scrollTop vEnd
           <= InPage.maxScrollTop vEnd)%Z.
Proof.
  assert (Hb : forall k, (Samples.loadingPage k <= 6000)%Z).
  { intro k. unfold Samples.loadingPage. lia. }
  split; [exact Hb | ].
  exact (scrollToBottom_terminates Samples.loadingPage 6000
           (InPage.mkViewport 0 2000 900) Hb).
Defined.

(** The run on that page: the eighth callback finds the window at the
    bottom of the page, by then 6000 pixels high. *)
Example scrollToBottom_loadingPage :
  InPage.scrollToBottom Samples.loadingPage 20 0 (InPage.mkViewport 0 2000 900)
  = Some (InPage.mkViewport 5100 6000 900, 8).
Proof. vm_compute. reflexivity. Qed.

(** ** The size bound of the snapshot *)

Module TruncateFacts.
Import Actions.

Lemma length_take n s :
  String.length (Js.take n s) = Nat.min n (String.length s).
Proof.
  revert s. induction n as [| n IH]; intros [| c s]; simpl; auto.
Qed.

Lemma drop_zero s : Js.drop 0 s = s.
Proof. destruct s; reflexivity. Qed.

(** [html.slice(0, limit)] of a longer string is its first [limit]
    characters. *)
Lemma slice_prefix s lim :
  (0 <= lim < Js.length s)%Z -> Js.slice s 0 lim = Js.take (Z.to_nat lim) s.
Proof.
  intro H. unfold Js.slice.
  replace (0 <? 0)%Z with false by reflexivity.
  destruct (lim <? 0)%Z eqn:Hneg; [apply Z.ltb_lt in Hneg; lia | ].
  rewrite (Z.min_l 0) by (unfold Js.length in *; lia).
  rewrite (Z.min_l lim) by lia.
  rewrite Z.sub_0_r, Z.max_l by lia.
  change (Z.to_nat 0) with 0. rewrite drop_zero. reflexivity.
Qed.

Lemma truncate_over html :
  (Js.length html > limit)%Z ->
  truncate html = Js.take (Z.to_nat limit) html
  /\ Js.length (truncate html) = limit.
Proof.
  intro H. unfold truncate.
  destruct (Js.length html >? limit)%Z eqn:Hgt.
  2: { rewrite Z.gtb_ltb in Hgt. apply Z.ltb_ge in Hgt. lia. }
  assert (Hl : (0 <= limit)%Z) by (unfold limit; lia).
  rewrite slice_prefix by lia. split; [reflexivity | ].
  unfold Js.length in *. rewrite length_take. lia.
Qed.

Lemma truncate_under html :
  (Js.length html <= limit)%Z -> truncate html = html.
Proof.
  intro H. unfold truncate.
  destruct (Js.length html >? limit)%Z eqn:Hgt; [ | reflexivity].
  rewrite Z.gtb_ltb in Hgt. apply Z.ltb_lt in Hgt. lia.
Qed.

(** A snapshot that goes through: what the world is afterwards. *)
Lemma snapshot_stored (E : Engine) (agentName : string)
    (searchTerm tabName : option string) (w : World)
    (page : Page) (n : nat) (doc : Document) (html : string) :
  getChromePage tabName w = (Ok (Some page), w) ->
  pageSetSnapshotOpts E page (termOf searchTerm) = Ok tt ->
  pageCount E page "body" = Ok (S n) ->
  pageDocument E page = Ok doc ->
  InPage.snapshot doc (termOf searchTerm) = Ok html ->
  updateLocationStateRendering E (truncate html) = Ok tt ->
  execute E agentName (browser_snapshot_dom searchTerm tabName) w
  = (Ok tt,
     mkWorld (globalBrowser w) (globalPages w)
       (messages w
        ++ [("[" ++ agentName
             ++ "] DOM snapshot captured and saved to location rendering")%string])%list
       (Some (truncate html)) (image w) (console w) (timers w)).
Proof.
  intros Hpage Hopts Hcount Hdoc Hsnap Hsink. simpl.
  unfold BrowserSnapshotDomAction, requirePage, tryCatch, bind.
  rewrite Hpage. unfold ret, await. rewrite Hopts, Hcount, Hdoc, Hsnap, Hsink.
  reflexivity.
Qed.

End TruncateFacts.

(** C2, as the code has it. For every snapshot that reaches the storing
    step (a tab is resolved, the page has a body, the evaluation in the
    page yields [html] and the rendering sink accepts the text): the text
    stored is [html] cut to its first 100000 characters, exactly 100000
    long, when [html] is longer than that, and [html] itself otherwise.
    Nothing else is recorded: beside the stored text the action leaves one
    line, the same in both cases, so no flag tells a truncated snapshot
    from a complete one. *)
Theorem snapshot_truncated_to_limit :
  forall (E : Engine) (agentName : string)
         (searchTerm tabName : option string) (w : World)
         (page : Page) (n : nat) (doc : Document) (html : string),
    getChromePage tabName w = (Ok (Some page), w) ->
    pageSetSnapshotOpts E page (Actions.termOf searchTerm) = Ok tt ->
    pageCount E page "body" = Ok (S n) ->
    pageDocument E page = Ok doc ->
    InPage.snapshot doc (Actions.termOf searchTerm) = Ok html ->
    updateLocationStateRendering E (Actions.truncate html) = Ok tt ->
    let r := Actions.execute E agentName
               (Actions.browser_snapshot_dom searchTerm tabName) w in
    fst r = Ok tt
    /\ rendering (snd r) = Some (Actions.truncate html)
    /\ ((Js.length html > Actions.limit)%Z ->
          Actions.truncate html = Js.take (Z.to_nat Actions.limit) html
          /\ Js.length (Actions.truncate html) = 100000%Z)
    /\ ((Js.length html <= Actions.limit)%Z -> Actions.truncate html = html)
    /\ messages (snd r)
       = (messages w
          ++ [("[" ++ agentName
               ++ "] DOM snapshot captured and saved to location rendering")%string])%list
    /\ (globalBrowser (snd r), globalPages (snd r), image (snd r),
        console (snd r), timers (snd r))
       = (globalBrowser w, globalPages w, image w, console w, timers w).
Proof.
  intros E agentName searchTerm tabName w page n doc html
         Hpage Hopts Hcount Hdoc Hsnap Hsink r.
  subst r.
  rewrite (TruncateFacts.snapshot_stored E agentName searchTerm tabName w
             page n doc html Hpage Hopts Hcount Hdoc Hsnap Hsink).
  cbn [fst snd rendering messages globalBrowser globalPages image console
       timers].
  repeat split.
  - apply TruncateFacts.truncate_over. assumption.
  - apply TruncateFacts.truncate_over. assumption.
  - apply TruncateFacts.truncate_under.
Qed.

Lemma snapshot_truncated_to_limit_witness :
  rendering (Samples.afterSnapshot Samples.smallPage)
  = Some (Actions.truncate
            ("<meta name=" ++ String Sanitizer.dquote "description"
             ++ String Sanitizer.dquote " content="
             ++ String Sanitizer.dquote "aaa"
             ++ String Sanitizer.dquote ">"
             ++ InPage.nl ++ InPage.nl ++ "<p>a</p>")).
Proof.
  set (html := "<meta name=" ++ String Sanitizer.dquote "description"
               ++ String Sanitizer.dquote " content="
               ++ String Sanitizer.dquote "aaa"
               ++ String Sanitizer.dquote ">"
               ++ InPage.nl ++ InPage.nl ++ "<p>a</p>").
  assert (Hsnap : InPage.snapshot Samples.smallPage
                    (Actions.termOf (Some "a")) = Ok html).
  { vm_compute. reflexivity. }
  assert (Hpage : getChromePage None Samples.twoTabs
                  = (Ok (Some 7), Samples.twoTabs)) by reflexivity.
  assert (Hsink : updateLocationStateRendering
                    (Samples.servingEngine Samples.smallPage)
                    (Actions.truncate html) = Ok tt) by reflexivity.
  pose proof (snapshot_truncated_to_limit
                (Samples.servingEngine Samples.smallPage) "Samo" (Some "a")
                None Samples.twoTabs 7 0 Samples.smallPage html
                Hpage eq_refl eq_refl eq_refl Hsnap Hsink) as H.
  cbv zeta in H. destruct H as [_ [H _]]. exact H.
Defined.

Module CapFacts.

Lemma capCheck_true :
  Samples.capCheck Samples.pageOverCap Samples.pageAtCap = true.
Proof. vm_compute. reflexivity. Qed.

Lemma afterSnapshot_stored doc html :
  InPage.snapshot doc "a" = Ok html ->
  Samples.afterSnapshot doc
  = mkWorld (Some 1) [("post_list", 7); ("post_profile", 8)]
      ["[Samo] DOM snapshot captured and saved to location rendering"]
      (Some (Actions.truncate html)) None [] [].
Proof.
  intro Hsnap. unfold Samples.afterSnapshot.
  rewrite (TruncateFacts.snapshot_stored (Samples.servingEngine doc) "Samo"
             (Some "a") None Samples.twoTabs 7 0 doc html);
    try reflexivity.
  exact Hsnap.
Qed.

(** Two pages that pass [capCheck] leave the same world. *)
Lemma capCheck_same_world doc1 doc2 :
  Samples.capCheck doc1 doc2 = true ->
  exists over atCap,
    InPage.snapshot doc1 "a" = Ok over
    /\ (Js.length over > Actions.limit)%Z
    /\ InPage.snapshot doc2 "a" = Ok atCap
    /\ (Js.length atCap <= Actions.limit)%Z
    /\ Samples.afterSnapshot doc1 = Samples.afterSnapshot doc2.
Proof.
  unfold Samples.capCheck. intro H.
  destruct (InPage.snapshot doc1 "a") as [over | ] eqn:H1; [ | discriminate].
  destruct (InPage.snapshot doc2 "a") as [atCap | ] eqn:H2; [ | discriminate].
  apply andb_true_iff in H. destruct H as [H Heq].
  apply andb_true_iff in H. destruct H as [Hover Hat].
  apply String.eqb_eq in Heq.
  exists over, atCap.
  split; [reflexivity | ].
  split; [rewrite Z.gtb_ltb in Hover; apply Z.ltb_lt in Hover; lia | ].
  split; [reflexivity | ].
  split; [apply Z.leb_le; exact Hat | ].
  rewrite (afterSnapshot_stored _ _ H1), (afterSnapshot_stored _ _ H2), Heq.
  reflexivity.
Qed.

End CapFacts.

(** C2 as stated fails, for want of a flag: of these two pages the first
    gives a snapshot over the cap and the second one at the cap, and the
    action leaves the same world after both, the same stored text and the
    same reported line; nothing it leaves says that the first was cut. *)
Lemma snapshot_truncation_not_flagged :
  exists over atCap,
    InPage.snapshot Samples.pageOverCap "a" = Ok over
    /\ (Js.length over > Actions.limit)%Z
    /\ InPage.snapshot Samples.pageAtCap "a" = Ok atCap
    /\ (Js.length atCap <= Actions.limit)%Z
    /\ Samples.afterSnapshot Samples.pageOverCap
       = Samples.afterSnapshot Samples.pageAtCap.
Proof.
  exact (CapFacts.capCheck_same_world Samples.pageOverCap Samples.pageAtCap
           CapFacts.capCheck_true).
Qed.

(** ** The sanitizer *)

Module RegexFacts.
Import Regex Text.

Lemma avoids_tail c b s : avoids c (String b s) = true -> avoids c s = true.
Proof. simpl. intro H. apply andb_true_iff in H. tauto. Qed.


(** A character that is no letter is only matched by itself, with and
    without the [i] flag. *)
Lemma sameChar_caseless ic c b :
  caseless c = true -> sameChar ic c b = true -> b = c.
Proof.
  unfold caseless, sameChar, Js.canonicalize, Js.code. intros Hc H.
  apply andb_true_iff in Hc. destruct Hc as [Hup Hlow].
  apply negb_true_iff in Hup, Hlow.
  destruct ic.
  - rewrite Hlow in H.
    destruct ((97 <=? N_of_ascii b) && (N_of_ascii b <=? 122))%N eqn:Hb.
    + apply Ascii.eqb_eq in H. exfalso.
      apply andb_true_iff in Hb. destruct Hb as [H1 H2].
      apply N.leb_le in H1, H2.
      assert (Hn : N_of_ascii c = (N_of_ascii b - 32)%N).
      { rewrite H. apply N_ascii_embedding. lia. }
      rewrite Hn in Hup.
      apply andb_false_iff in Hup. destruct Hup as [Hup | Hup];
        apply N.leb_gt in Hup; lia.
    + apply Ascii.eqb_eq in H. congruence.
  - apply Ascii.eqb_eq in H. congruence.
Qed.

Section Avoiding.

Variable c : ascii.

Lemma matchText_avoids ic t s s1 :
  matchText ic t s = Some s1 -> avoids c s = true -> avoids c s1 = true.
Proof.
  revert s. induction t as [| a t IH]; intros s H Hs; simpl in H.
  - injection H as <-. exact Hs.
  - destruct s as [| b s]; [discriminate | ].
    destruct (sameChar ic a b); [ | discriminate].
    apply (IH s H). apply (avoids_tail _ _ _ Hs).
Qed.






End Avoiding.

End RegexFacts.

Module SanitizerFacts.
Import Regex Text Sanitizer.

(** *** Markup-free text passes every removal untouched *)


(** *** The whitespace step, rule by rule *)

(** With a continuation that accepts anything, a greedy run of spaces
    takes them all. *)
Lemma repGreedy_spaces s caps :
  repGreedy Js.isSpace s (fun s1 => Some (s1, caps))
  = Some (Js.trimStart s, caps).
Proof.
  induction s as [| b s IH]; simpl.
  - reflexivity.
  - destruct (Js.isSpace b); [rewrite IH | ]; reflexivity.
Qed.

Lemma length_trimStart s : String.length (Js.trimStart s) <= String.length s.
Proof.
  induction s as [| b s IH]; simpl; [lia | ].
  destruct (Js.isSpace b); simpl; lia.
Qed.

(** The pattern [\s+] at the head of a text: the length of the leading
    run of spaces, if there is one. *)
Lemma exec_spaces s :
  exec false reSpaces s
  = match s with
    | EmptyString => None
    | String b s' =>
        if Js.isSpace b
        then Some (S (String.length s' - String.length (Js.trimStart s')), [])
        else None
    end.
Proof.
  unfold exec, reSpaces, plus. destruct s as [| b s]; simpl; [reflexivity | ].
  destruct (Js.isSpace b); [ | reflexivity].
  rewrite repGreedy_spaces.
  pose proof (length_trimStart s) as Hl.
  destruct (String.length (Js.trimStart s)) as [| m] eqn:Hm.
  - rewrite Nat.sub_0_r. reflexivity.
  - f_equal. f_equal. lia.
Qed.

(** The replacement of [\s+] by one space is [collapse]: from the start
    of a text, and from inside a run whose rest is being passed over. *)
Lemma spaceOut_collapse s :
  spaceOut s 0 = collapse false s
  /\ spaceOut s (String.length s - String.length (Js.trimStart s))
     = collapse true s.
Proof.
  unfold spaceOut. induction s as [| b s [IH0 IHrun]].
  - split; reflexivity.
  - assert (Hhead : replaceFrom false reSpaces (fun _ _ => " ") (String b s) 0
                    = collapse false (String b s)).
    { cbn [replaceFrom]. rewrite exec_spaces. cbn [collapse].
      destruct (Js.isSpace b).
      - rewrite IHrun. reflexivity.
      - rewrite IH0. reflexivity. }
    split; [exact Hhead | ].
    cbn [Js.trimStart collapse]. destruct (Js.isSpace b) eqn:Hb.
    + pose proof (length_trimStart s) as Hl.
      replace (String.length (String b s) - String.length (Js.trimStart s))
        with (S (String.length s - String.length (Js.trimStart s)))
        by (cbn [String.length]; lia).
      cbn [replaceFrom]. exact IHrun.
    + rewrite Nat.sub_diag. rewrite Hhead. cbn [collapse]. rewrite Hb.
      reflexivity.
Qed.

Lemma normalizeSpace_collapse s :
  normalizeSpace s = Js.trim (collapse false s).
Proof.
  unfold normalizeSpace, replaceAll.
  change (replaceFrom false reSpaces (fun _ _ => " ") s 0) with (spaceOut s 0).
  rewrite (proj1 (spaceOut_collapse s)). reflexivity.
Qed.

End SanitizerFacts.

Module SpaceFacts.
Import Text.

Lemma spaced_collapse s : forall b, spaced b (collapse b s) = true.
Proof.
  induction s as [| c s IH]; intro b; simpl; [reflexivity | ].
  destruct (Js.isSpace c) eqn:Hc.
  - destruct b; [apply IH | ].
    simpl. change (Js.isSpace " ") with true. cbv iota. simpl. apply IH.
  - simpl. rewrite Hc. apply IH.
Qed.

Lemma spaced_trimStart s : forall b,
  spaced b s = true -> spaced true (Js.trimStart s) = true.
Proof.
  induction s as [| c s IH]; intros b H; simpl in *; [reflexivity | ].
  destruct (Js.isSpace c) eqn:Hc.
  - apply andb_true_iff in H. destruct H as [_ H]. apply (IH true H).
  - simpl. rewrite Hc. exact H.
Qed.

Lemma tidyAfter_cons b c u :
  tidyAfter b (String c u)
  = if Js.isSpace c
    then negb b && Ascii.eqb c " " && tidyAfter true u
    else tidyAfter false u.
Proof. reflexivity. Qed.

(** Trimming the end of spaced text leaves nothing, or tidy text. *)
Lemma tidy_trimEnd s : forall b,
  spaced b s = true ->
  Js.trimEnd s = EmptyString \/ tidyAfter b (Js.trimEnd s) = true.
Proof.
  induction s as [| c s IH]; intros b H; [left; reflexivity | ].
  simpl in H. cbn [Js.trimEnd].
  destruct (Js.isSpace c) eqn:Hc.
  - apply andb_true_iff in H. destruct H as [H Hs].
    apply andb_true_iff in H. destruct H as [Hb Heq].
    destruct (IH true Hs) as [He | Ht].
    + left. rewrite He. reflexivity.
    + right. destruct (Js.trimEnd s) as [| d t] eqn:Hd; [discriminate | ].
      rewrite tidyAfter_cons, Hc, Hb, Heq, Ht. reflexivity.
  - right. destruct (IH false H) as [He | Ht].
    + rewrite He, tidyAfter_cons, Hc. reflexivity.
    + destruct (Js.trimEnd s) as [| d t] eqn:Hd.
      * rewrite tidyAfter_cons, Hc. reflexivity.
      * rewrite tidyAfter_cons, Hc. exact Ht.
Qed.

Lemma tidy_normalize s : tidy (Js.trim (collapse false s)) = true.
Proof.
  unfold Js.trim.
  pose proof (spaced_trimStart _ _ (spaced_collapse s false)) as H.
  destruct (tidy_trimEnd _ _ H) as [He | Ht].
  - rewrite He. reflexivity.
  - unfold tidy. destruct (Js.trimEnd _); [reflexivity | exact Ht].
Qed.

Lemma tidyAfter_weaken t : tidyAfter true t = true -> tidyAfter false t = true.
Proof.
  destruct t as [| c t]; simpl; [discriminate | ].
  destruct (Js.isSpace c); [discriminate | auto].
Qed.

Lemma collapse_tidy t : forall b, tidyAfter b t = true -> collapse b t = t.
Proof.
  induction t as [| c t IH]; intros b H; simpl in *; [reflexivity | ].
  destruct (Js.isSpace c) eqn:Hc.
  - apply andb_true_iff in H. destruct H as [H Ht].
    apply andb_true_iff in H. destruct H as [Hb Heq].
    apply negb_true_iff in Hb. subst b. apply Ascii.eqb_eq in Heq. subst c.
    rewrite (IH true Ht). reflexivity.
  - rewrite (IH false H). reflexivity.
Qed.

Lemma trimStart_tidy t : tidyAfter true t = true -> Js.trimStart t = t.
Proof.
  destruct t as [| c t]; simpl; [reflexivity | ].
  destruct (Js.isSpace c); [discriminate | reflexivity].
Qed.

Lemma trimEnd_tidy t : forall b, tidyAfter b t = true -> Js.trimEnd t = t.
Proof.
  induction t as [| c t IH]; intros b H; [reflexivity | ].
  simpl in H. cbn [Js.trimEnd].
  destruct (Js.isSpace c) eqn:Hc.
  - apply andb_true_iff in H. destruct H as [_ Ht].
    rewrite (IH true Ht).
    destruct t; [discriminate | reflexivity].
  - rewrite (IH false H). destruct t; reflexivity.
Qed.

(** Tidy text is a fixed point of the whitespace step. *)
Lemma normalize_tidy t :
  tidy t = true -> Js.trim (collapse false t) = t.
Proof.
  destruct t as [| c t]; [reflexivity | ].
  unfold tidy. intro H.
  rewrite (collapse_tidy _ false (tidyAfter_weaken _ H)).
  unfold Js.trim. rewrite (trimStart_tidy _ H). apply (trimEnd_tidy _ true H).
Qed.

Lemma avoids_collapse c s : forall b,
  c <> " "%char -> avoids c s = true -> avoids c (collapse b s) = true.
Proof.
  intros b Hc. revert b.
  induction s as [| d s IH]; intros b H; simpl in *; [reflexivity | ].
  apply andb_true_iff in H. destruct H as [Hd Hs].
  destruct (Js.isSpace d).
  - destruct b; [apply IH; exact Hs | ].
    cbn [avoids]. rewrite (IH true Hs).
    destruct (Ascii.eqb_spec " " c) as [Heq | Hne]; [congruence | reflexivity].
  - cbn [avoids]. rewrite Hd. apply IH. exact Hs.
Qed.

Lemma avoids_trimStart c s :
  avoids c s = true -> avoids c (Js.trimStart s) = true.
Proof.
  induction s as [| d s IH]; intro H; simpl in *; [reflexivity | ].
  destruct (Js.isSpace d); [ | exact H].
  apply IH. apply andb_true_iff in H. tauto.
Qed.

Lemma avoids_trimEnd c s :
  avoids c s = true -> avoids c (Js.trimEnd s) = true.
Proof.
  induction s as [| d s IH]; intro H; [reflexivity | ].
  simpl in H. apply andb_true_iff in H. destruct H as [Hd Hs].
  cbn [Js.trimEnd]. specialize (IH Hs).
  destruct (Js.trimEnd s) as [| e t].
  - destruct (Js.isSpace d); [reflexivity | ].
    simpl. rewrite Hd. reflexivity.
  - cbn [avoids] in *. rewrite Hd. exact IH.
Qed.

End SpaceFacts.

Module CleanFacts.
Import Text Sanitizer.




End CleanFacts.




(* ===================================================================== *)
(** * Further properties of the registry *)
(* ===================================================================== *)

Module MapFacts.

Lemma get_In_keys name m p :
  MapOps.get name m = Some p -> In name (MapOps.keys m).
Proof.
  induction m as [| [k v] m IH]; simpl; [discriminate | ].
  destruct (String.eqb_spec k name) as [-> | Hne]; [left; reflexivity | ].
  intro H. right. apply IH. exact H.
Qed.

Lemma get_None_keys name m :
  MapOps.get name m = None -> ~ In name (MapOps.keys m).
Proof.
  induction m as [| [k v] m IH]; simpl; [tauto | ].
  destruct (String.eqb_spec k name) as [-> | Hne]; [discriminate | ].
  intros H [Heq | Hin]; [congruence | exact (IH H Hin)].
Qed.

Lemma keys_None_get name m :
  ~ In name (MapOps.keys m) -> MapOps.get name m = None.
Proof.
  destruct (MapOps.get name m) as [p |] eqn:H; [ | reflexivity].
  intro Hn. exfalso. apply Hn. apply (get_In_keys _ _ _ H).
Qed.

(** [set] of a key the map holds keeps the keys and their order. *)
Lemma keys_set_present name p m :
  MapOps.has name m = true ->
  MapOps.keys (MapOps.set name p m) = MapOps.keys m.
Proof.
  unfold MapOps.has.
  induction m as [| [k v] m IH]; simpl; [discriminate | ].
  destruct (String.eqb k name) eqn:Hk; simpl; [reflexivity | ].
  intro H. rewrite IH by exact H. reflexivity.
Qed.

Lemma NoDup_keys_set name p m :
  NoDup (MapOps.keys m) -> NoDup (MapOps.keys (MapOps.set name p m)).
Proof.
  intro Hnd. destruct (MapOps.has name m) eqn:Hhas.
  - rewrite keys_set_present by exact Hhas. exact Hnd.
  - pose proof (RegistryFacts.has_false_get _ _ Hhas) as Hget.
    rewrite RegistryFacts.keys_set_fresh by exact Hget.
    apply NoDup_app; [exact Hnd | repeat constructor; simpl; tauto | ].
    intros k Hin [<- | []]. apply (get_None_keys _ _ Hget). exact Hin.
Qed.

Lemma keys_delete_incl name m k :
  In k (MapOps.keys (MapOps.delete name m)) -> In k (MapOps.keys m).
Proof.
  induction m as [| [k' v] m IH]; simpl; [tauto | ].
  destruct (String.eqb k' name); simpl; tauto.
Qed.

Lemma NoDup_keys_delete name m :
  NoDup (MapOps.keys m) -> NoDup (MapOps.keys (MapOps.delete name m)).
Proof.
  induction m as [| [k v] m IH]; simpl; intro H; [constructor | ].
  inversion H as [| ? ? Hnotin Hnd]; subst.
  destruct (String.eqb k name); simpl; [exact Hnd | ].
  constructor; [ | apply IH; exact Hnd].
  intro Hin. apply Hnotin. apply (keys_delete_incl _ _ _ Hin).
Qed.

(** With distinct keys, a deleted key is gone. *)
Lemma get_delete_same name m :
  NoDup (MapOps.keys m) -> MapOps.get name (MapOps.delete name m) = None.
Proof.
  induction m as [| [k v] m IH]; simpl; intro H; [reflexivity | ].
  inversion H as [| ? ? Hnotin Hnd]; subst.
  destruct (String.eqb_spec k name) as [-> | Hne].
  - apply keys_None_get. exact Hnotin.
  - simpl. destruct (String.eqb_spec k name); [congruence | ].
    apply IH. exact Hnd.
Qed.

Lemma get_delete_other name k m :
  k <> name -> MapOps.get k (MapOps.delete name m) = MapOps.get k m.
Proof.
  intro Hne. induction m as [| [k' v] m IH]; simpl; [reflexivity | ].
  destruct (String.eqb_spec k' name) as [-> | Hne'].
  - destruct (String.eqb_spec name k); [congruence | reflexivity].
  - simpl. rewrite IH. reflexivity.
Qed.

Lemma keys_delete name m :
  NoDup (MapOps.keys m) ->
  MapOps.keys (MapOps.delete name m) = remove string_dec name (MapOps.keys m).
Proof.
  induction m as [| [k v] m IH]; simpl; intro H; [reflexivity | ].
  inversion H as [| ? ? Hnotin Hnd]; subst.
  destruct (String.eqb_spec k name) as [-> | Hne].
  - destruct (string_dec name name); [ | congruence].
    symmetry. apply notin_remove. exact Hnotin.
  - simpl. destruct (string_dec name k); [congruence | ].
    rewrite IH by exact Hnd. reflexivity.
Qed.

(** Deleting a key just set on a map that did not hold it gives the map
    back. *)
Lemma delete_set_fresh name p m :
  MapOps.get name m = None -> MapOps.delete name (MapOps.set name p m) = m.
Proof.
  induction m as [| [k v] m IH]; simpl; intro H.
  - rewrite String.eqb_refl. reflexivity.
  - destruct (String.eqb k name) eqn:Hk; [discriminate | ].
    simpl. rewrite Hk, IH by exact H. reflexivity.
Qed.

End MapFacts.

(** X1. A tab that [createNewTab] has registered under a non-empty name
    is found again under that name, as the page the engine created, and
    its name comes last in the list of names. *)
Theorem createNewTab_then_lookup :
  forall (E : Engine) (n : string) (url : option string) (w : World),
    n <> EmptyString ->
    fst (createNewTab E n url w) = Ok tt ->
    let w' := snd (createNewTab E n url w) in
    exists b p,
      globalBrowser w = Some b /\ newPage E b = Ok p
      /\ getChromePage (Some n) w' = (Ok (Some p), w')
      /\ fst (getChromePageNames w')
         = Ok (MapOps.keys (globalPages w) ++ [n])%list.
Proof.
  intros E n url w Hn. RegistryFacts.unfold_registry.
  destruct (globalBrowser w) as [b |] eqn:Hb; simpl; [ | discriminate].
  destruct (MapOps.has n (globalPages w)) eqn:Hhas; simpl; [discriminate | ].
  pose proof (RegistryFacts.has_false_get _ _ Hhas) as Hget.
  destruct (newPage E b) as [p | e] eqn:Hp; simpl; [ | discriminate].
  assert (Htruthy : Js.truthy n = true).
  { destruct n; [congruence | reflexivity]. }
  destruct (truthyOpt url); simpl;
    [destruct (pageGoto E p (orDefault url EmptyString)); simpl;
       [ | discriminate] | ];
    intros _; exists b, p; unfold truthyOpt; rewrite Htruthy; simpl;
    rewrite RegistryFacts.get_set_same, RegistryFacts.keys_set_fresh by exact Hget;
    repeat split; (reflexivity || exact Hp).
Qed.

Lemma createNewTab_then_lookup_witness :
  getChromePage (Some "t3")
    (snd (createNewTab Samples.workingEngine "t3" None Samples.twoTabs))
  = (Ok (Some 7),
     snd (createNewTab Samples.workingEngine "t3" None Samples.twoTabs)).
Proof.
  assert (Hn : "t3" <> EmptyString) by discriminate.
  destruct (createNewTab_then_lookup Samples.workingEngine "t3" None
              Samples.twoTabs Hn eq_refl) as [b [p [_ [Hp [Hget _]]]]].
  injection Hp as <-. exact Hget.
Defined.

(** X2. The default tab, the one an action without tab name works on, is
    the oldest registered tab: creating a tab changes it only when no tab
    was registered, and an empty tab name stands for the default tab, so
    a tab registered under the empty name cannot be asked for by name. *)
Theorem default_tab_is_oldest :
  forall (E : Engine) (n : string) (url : option string) (w : World),
    fst (createNewTab E n url w) = Ok tt ->
    let w' := snd (createNewTab E n url w) in
    (globalPages w <> [] ->
       fst (getChromePage None w') = fst (getChromePage None w))
    /\ (globalPages w = [] ->
          exists p, fst (getChromePage None w') = Ok (Some p)
                    /\ MapOps.get n (globalPages w') = Some p)
    /\ fst (getChromePage (Some EmptyString) w') = fst (getChromePage None w').
Proof.
  intros E n url w. RegistryFacts.unfold_registry.
  destruct (globalBrowser w) as [b |] eqn:Hb; simpl; [ | discriminate].
  destruct (MapOps.has n (globalPages w)) eqn:Hhas; simpl; [discriminate | ].
  destruct (newPage E b) as [p | e]; simpl; [ | discriminate].
  assert (Hfirst : globalPages w <> [] ->
            MapOps.firstValue (MapOps.set n p (globalPages w))
            = MapOps.firstValue (globalPages w)).
  { destruct (globalPages w) as [| [k v] m] eqn:Hm; [congruence | ].
    intros _. unfold MapOps.has in Hhas. simpl in *.
    destruct (String.eqb k n); [discriminate | reflexivity]. }
  destruct (truthyOpt url); simpl;
    [destruct (pageGoto E p (orDefault url EmptyString)); simpl;
       [ | discriminate] | ];
    intros _; (split; [ | split]); try reflexivity.
  all: try (intro Hne; rewrite (Hfirst Hne); reflexivity).
  all: intro Hnil; rewrite Hnil; simpl; exists p;
    rewrite String.eqb_refl; split; reflexivity.
Qed.

Lemma default_tab_is_oldest_witness :
  fst (getChromePage None
         (snd (createNewTab Samples.workingEngine "t3" None Samples.twoTabs)))
  = fst (getChromePage None Samples.twoTabs).
Proof.
  destruct (default_tab_is_oldest Samples.workingEngine "t3" None
              Samples.twoTabs eq_refl) as [H _].
  apply H. discriminate.
Defined.

(** X3. When tab names are distinct and [closeTab] returns, the name is
    no longer registered, every other name still resolves to its page, the
    remaining names keep their order, and the browser handle is kept. *)
Theorem closeTab_unregisters :
  forall (E : Engine) (n : string) (w : World),
    NoDup (MapOps.keys (globalPages w)) ->
    fst (closeTab E n w) = Ok tt ->
    let w' := snd (closeTab E n w) in
    MapOps.get n (globalPages w') = None
    /\ (forall k, k <> n ->
          MapOps.get k (globalPages w') = MapOps.get k (globalPages w))
    /\ MapOps.keys (globalPages w')
       = remove string_dec n (MapOps.keys (globalPages w))
    /\ globalBrowser w' = globalBrowser w.
Proof.
  intros E n w Hnd. RegistryFacts.unfold_registry.
  destruct (MapOps.get n (globalPages w)) as [p |]; simpl; [ | discriminate].
  destruct (pageClose E p); simpl; [ | discriminate].
  intros _. split; [apply MapFacts.get_delete_same; exact Hnd | ].
  split; [intros k Hk; apply MapFacts.get_delete_other; exact Hk | ].
  split; [apply MapFacts.keys_delete; exact Hnd | reflexivity].
Qed.

Lemma closeTab_unregisters_witness :
  MapOps.keys
    (globalPages (snd (closeTab Samples.workingEngine "post_list"
                         Samples.twoTabs)))
  = ["post_profile"].
Proof.
  assert (Hnd : NoDup (MapOps.keys (globalPages Samples.twoTabs))).
  { simpl. repeat constructor; simpl; intuition discriminate. }
  destruct (closeTab_unregisters Samples.workingEngine "post_list"
              Samples.twoTabs Hnd eq_refl) as [_ [_ [H _]]].
  exact H.
Defined.

(** X4. Switching to or closing a tab that is not registered throws the
    tab-not-found error and changes neither handle nor registry; the
    actions report it in one line that quotes the name. *)
Theorem unregistered_tab_not_found :
  forall (E : Engine) (agentName n : string) (w : World),
    MapOps.get n (globalPages w) = None ->
    let quoted := "Tab " ++ String Sanitizer.dquote n
                  ++ String Sanitizer.dquote " not found." in
    (fst (switchToTab E n w) = Throw (ErrorObject quoted)
     /\ globalBrowser (snd (switchToTab E n w)) = globalBrowser w
     /\ globalPages (snd (switchToTab E n w)) = globalPages w)
    /\ (fst (closeTab E n w) = Throw (ErrorObject quoted)
        /\ globalBrowser (snd (closeTab E n w)) = globalBrowser w
        /\ globalPages (snd (closeTab E n w)) = globalPages w)
    /\ messages (snd (Actions.execute E agentName (Actions.switch_tab n) w))
       = (messages w
          ++ [("[" ++ agentName ++ "] Error switching tab: " ++ quoted)%string])%list
    /\ messages (snd (Actions.execute E agentName (Actions.close_tab n) w))
       = (messages w
          ++ [("[" ++ agentName ++ "] Error closing tab: " ++ quoted)%string])%list.
Proof.
  intros E agentName n w Hget quoted. subst quoted. simpl.
  unfold Actions.SwitchTabAction, Actions.CloseTabAction, Actions.say,
    Actions.report, addSystemMessage, tabNotFound.
  RegistryFacts.unfold_registry. rewrite Hget. simpl.
  repeat split.
Qed.

Lemma unregistered_tab_not_found_witness :
  messages
    (snd (Actions.execute Samples.workingEngine "Samo"
            (Actions.switch_tab "missing") Samples.twoTabs))
  = [("[Samo] Error switching tab: Tab " ++ String Sanitizer.dquote "missing"
      ++ String Sanitizer.dquote " not found.")%string].
Proof.
  destruct (unregistered_tab_not_found Samples.workingEngine "Samo" "missing"
              Samples.twoTabs eq_refl) as [_ [_ [H _]]].
  exact H.
Defined.

(** X5. Tab names stay distinct: every registry operation, whatever the
    engine answers and whether it returns or throws, takes a registry
    without repeated names to a registry without repeated names. *)
Theorem tab_names_stay_distinct :
  forall (E : Engine) (op : Registry.Op) (w : World),
    NoDup (MapOps.keys (globalPages w)) ->
    NoDup (MapOps.keys (globalPages (Registry.after E op w))).
Proof.
  intros E op w Hnd.
  destruct op; unfold Registry.after; RegistryFacts.unfold_registry;
    RegistryFacts.split_answers; simpl;
    try exact Hnd; try constructor;
    try (apply MapFacts.NoDup_keys_set; try exact Hnd; constructor);
    try (apply MapFacts.NoDup_keys_delete; exact Hnd).
  all: first [simpl; tauto | constructor].
Qed.

Lemma tab_names_stay_distinct_witness :
  NoDup (MapOps.keys
           (globalPages
              (Registry.after Samples.workingEngine
                 (Registry.CreateTab "t3" None) Samples.twoTabs))).
Proof.
  apply (tab_names_stay_distinct Samples.workingEngine
           (Registry.CreateTab "t3" None) Samples.twoTabs).
  simpl. repeat constructor; simpl; intuition discriminate.
Defined.

(** X6. A launch that returns leaves exactly one session and exactly one
    tab, the one named in the request (or [default]): every tab of the
    previous session is gone. *)
Theorem launch_leaves_one_tab :
  forall (E : Engine) (url tabName : option string) (w : World),
    Registry.invariant w ->
    fst (launchChromeBrowser E url tabName w) = Ok tt ->
    exists b p,
      globalBrowser (snd (launchChromeBrowser E url tabName w)) = Some b
      /\ globalPages (snd (launchChromeBrowser E url tabName w))
         = [(orDefault tabName "default", p)].
Proof.
  intros E url tabName w Hinv. unfold Registry.invariant in Hinv.
  RegistryFacts.unfold_registry.
  assert (Hpages : globalBrowser w = None -> globalPages w = []) by exact Hinv.
  destruct (globalBrowser w) as [b0 |] eqn:Hb;
    [destruct (browserClose E b0); simpl; [ | discriminate]; clear Hpages
    | specialize (Hpages eq_refl)]; simpl.
  all: RegistryFacts.split_answers; simpl; try discriminate.
  all: intros _; eexists; eexists; try rewrite Hpages; split; reflexivity.
Qed.

Lemma launch_leaves_one_tab_witness :
  exists b p,
    globalBrowser
      (snd (launchChromeBrowser Samples.workingEngine None (Some "t1")
              Samples.twoTabs)) = Some b
    /\ globalPages
         (snd (launchChromeBrowser Samples.workingEngine None (Some "t1")
                 Samples.twoTabs)) = [("t1", p)].
Proof.
  apply (launch_leaves_one_tab Samples.workingEngine None (Some "t1")
           Samples.twoTabs).
  - unfold Registry.invariant; simpl; intro; discriminate.
  - reflexivity.
Defined.

(** X7. Creating a tab and closing it again gives the registry back as it
    was, names, pages and order. *)
Theorem createNewTab_closeTab_round_trip :
  forall (E : Engine) (n : string) (url : option string) (w : World),
    fst (createNewTab E n url w) = Ok tt ->
    (forall p, pageClose E p = Ok tt) ->
    let w1 := snd (createNewTab E n url w) in
    fst (closeTab E n w1) = Ok tt
    /\ globalPages (snd (closeTab E n w1)) = globalPages w
    /\ globalBrowser (snd (closeTab E n w1)) = globalBrowser w.
Proof.
  intros E n url w Hok Hclose. revert Hok. RegistryFacts.unfold_registry.
  destruct (globalBrowser w) as [b |] eqn:Hb; simpl; [ | discriminate].
  destruct (MapOps.has n (globalPages w)) eqn:Hhas; simpl; [discriminate | ].
  pose proof (RegistryFacts.has_false_get _ _ Hhas) as Hget.
  destruct (newPage E b) as [p | e]; simpl; [ | discriminate].
  destruct (truthyOpt url); simpl;
    [destruct (pageGoto E p (orDefault url EmptyString)); simpl;
       [ | discriminate] | ];
    intros _; rewrite RegistryFacts.get_set_same; simpl;
    rewrite Hclose; simpl;
    rewrite (MapFacts.delete_set_fresh _ _ _ Hget); repeat split; auto.
Qed.

Lemma createNewTab_closeTab_round_trip_witness :
  globalPages
    (snd (closeTab Samples.workingEngine "t3"
            (snd (createNewTab Samples.workingEngine "t3" None
                    Samples.twoTabs))))
  = globalPages Samples.twoTabs.
Proof.
  destruct (createNewTab_closeTab_round_trip Samples.workingEngine "t3" None
              Samples.twoTabs eq_refl (fun _ => eq_refl)) as [_ [H _]].
  exact H.
Defined.

(** X8. When the engine fails to close the running browser, closing
    throws that error and so does a launch, and both leave the running
    session registered as it was, handle and tabs. *)
Theorem close_failure_keeps_session :
  forall (E : Engine) (url tabName : option string) (w : World)
         (b : Browser) (e : Thrown),
    globalBrowser w = Some b ->
    browserClose E b = Throw e ->
    (fst (closeChromeBrowser E w) = Throw e
     /\ globalBrowser (snd (closeChromeBrowser E w)) = Some b
     /\ globalPages (snd (closeChromeBrowser E w)) = globalPages w)
    /\ (fst (launchChromeBrowser E url tabName w) = Throw e
        /\ globalBrowser (snd (launchChromeBrowser E url tabName w)) = Some b
        /\ globalPages (snd (launchChromeBrowser E url tabName w))
           = globalPages w).
Proof.
  intros E url tabName w b e Hb Hclose. RegistryFacts.unfold_registry.
  rewrite Hb, Hclose. simpl. rewrite Hb. repeat split.
Qed.

Lemma close_failure_keeps_session_witness :
  globalPages
    (snd (closeChromeBrowser
            (Samples.engineWith true (Ok 1)
               (Throw (ErrorObject "Protocol error: Connection closed."))
               (Ok 7) (Ok tt) 1 (Ok Samples.emptyDocument))
            Samples.twoTabs))
  = globalPages Samples.twoTabs.
Proof.
  destruct (close_failure_keeps_session
              (Samples.engineWith true (Ok 1)
                 (Throw (ErrorObject "Protocol error: Connection closed."))
                 (Ok 7) (Ok tt) 1 (Ok Samples.emptyDocument))
              None None Samples.twoTabs 1
              (ErrorObject "Protocol error: Connection closed.")
              eq_refl eq_refl) as [[_ [_ H]] _].
  exact H.
Defined.



(* ===================================================================== *)
(** * Further properties of the actions *)
(* ===================================================================== *)

(** X10. An action that works on a page, when no tab can be resolved
    for it (no tab registered, or none under the name given), does
    nothing but report, in one line, that the browser is not launched and
    that [launch_browser] is to be run first. *)
Theorem no_tab_reports_not_launched :
  forall (E : Engine) (agentName : string) (a : Actions.Action)
         (tab : option string) (w : World),
    ActionNotions.targetTab a = Some tab ->
    getChromePage tab w = (Ok None, w) ->
    Actions.execute E agentName a w
    = (Ok tt,
       ActionNotions.withMessage w
         ("[" ++ agentName ++ "] " ++ ActionNotions.errorLabel a
          ++ "Browser not launched. Please run launch_browser first.")).
Proof.
  intros E agentName a tab w Ht Hpage.
  destruct a; simpl in Ht; try discriminate; injection Ht as ->; simpl;
    match goal with
    | |- ?c _ _ _ _ _ _ _ _ = _ => unfold c
    | |- ?c _ _ _ _ _ _ _ = _ => unfold c
    | |- ?c _ _ _ _ _ _ = _ => unfold c
    | |- ?c _ _ _ _ _ = _ => unfold c
    | |- ?c _ _ _ _ = _ => unfold c
    end;
    unfold Actions.requirePage, tryCatch, bind; rewrite Hpage; reflexivity.
Qed.

Lemma no_tab_reports_not_launched_witness :
  messages
    (snd (Actions.execute Samples.workingEngine "Samo"
            (Actions.browser_navigate "https://www.instagram.com/" None)
            initialWorld))
  = ["[Samo] Error navigating to https://www.instagram.com/: Browser not launched. Please run launch_browser first."].
Proof.
  rewrite (no_tab_reports_not_launched Samples.workingEngine "Samo"
             (Actions.browser_navigate "https://www.instagram.com/" None)
             None initialWorld eq_refl eq_refl).
  reflexivity.
Defined.

(** X11. A click on a selector that matches nothing is reported as an
    element not found and is no error: the page is not clicked, nothing is
    slept and nothing else changes. A click that goes through sleeps the
    settle time exactly when it is positive, before the line is
    reported. *)
Theorem click_outcomes :
  forall (E : Engine) (agentName selector : string) (waitAfterMs : option Z)
         (tab : option string) (w : World) (page : Page),
    getChromePage tab w = (Ok (Some page), w) ->
    let r := Actions.execute E agentName
               (Actions.browser_click selector waitAfterMs tab) w in
    (pageQuery E page selector = Ok false ->
       r = (Ok tt,
            ActionNotions.withMessage w
              ("[" ++ agentName ++ "] Element not found for selector: "
               ++ selector)))
    /\ (pageQuery E page selector = Ok true ->
        pageClick E page selector 50%Z = Ok tt ->
        fst r = Ok tt
        /\ messages (snd r)
           = (messages w
              ++ [("[" ++ agentName ++ "] Clicked element: " ++ selector)%string])%list
        /\ timers (snd r)
           = (timers w
              ++ match waitAfterMs with
                 | Some ms => if (ms >? 0)%Z then [ms] else []
                 | None => []
                 end)%list).
Proof.
  intros E agentName selector waitAfterMs tab w page Hpage r. subst r. simpl.
  unfold Actions.BrowserClickAction, Actions.requirePage, tryCatch, bind.
  rewrite Hpage. unfold ret, await. split.
  - intro Hq. rewrite Hq. reflexivity.
  - intros Hq Hc. rewrite Hq, Hc. simpl.
    destruct waitAfterMs as [ms |]; simpl;
      [destruct (ms >? 0)%Z | ]; simpl; rewrite ?app_nil_r; repeat split.
Qed.

Lemma click_outcomes_witness :
  timers
    (snd (Actions.execute Samples.workingEngine "Samo"
            (Actions.browser_click "a.post" (Some 300%Z) None)
            Samples.twoTabs))
  = [300%Z].
Proof.
  destruct (click_outcomes Samples.workingEngine "Samo" "a.post"
              (Some 300%Z) None Samples.twoTabs 7 eq_refl) as [_ H].
  destruct (H eq_refl eq_refl) as [_ [_ Ht]]. exact Ht.
Defined.

(** X12. The screenshot action reads its input through two substring
    tests and nothing else: two inputs that agree on containing [high] and
    on containing [small] give the same run, so the flag [full] of the
    description changes nothing, and so does a flag in capitals. When the
    engine accepts the viewport (800 wide under [small], else 1200, and 600
    high) and takes the picture (quality 100 under [high], else 80), the
    image slot holds the picture as a JPEG data address. *)
Theorem view_screen_flags :
  forall (E : Engine) (agentName : string) (input1 input2 tab : option string)
         (w : World),
    (ActionNotions.inputHas input1 "high" = ActionNotions.inputHas input2 "high" ->
     ActionNotions.inputHas input1 "small" = ActionNotions.inputHas input2 "small" ->
     Actions.execute E agentName (Actions.view_screen input1 tab) w
     = Actions.execute E agentName (Actions.view_screen input2 tab) w)
    /\ Actions.execute E agentName (Actions.view_screen (Some "full") tab) w
       = Actions.execute E agentName (Actions.view_screen None tab) w
    /\ Actions.execute E agentName (Actions.view_screen (Some "HIGH") tab) w
       = Actions.execute E agentName (Actions.view_screen None tab) w
    /\ (forall page base64,
          getChromePage tab w = (Ok (Some page), w) ->
          pageSetViewport E page
            (if ActionNotions.inputHas input1 "small" then 800 else 1200)%Z
            600%Z = Ok tt ->
          pageScreenshot E page
            (if ActionNotions.inputHas input1 "high" then 100 else 80)%Z
          = Ok base64 ->
          updateLocationStateImage E 0 ("data:image/jpeg;base64," ++ base64)
          = Ok tt ->
          image (snd (Actions.execute E agentName
                        (Actions.view_screen input1 tab) w))
          = Some ("data:image/jpeg;base64," ++ base64)).
Proof.
  intros E agentName input1 input2 tab w.
  assert (Hgen : forall i1 i2,
            ActionNotions.inputHas i1 "high" = ActionNotions.inputHas i2 "high" ->
            ActionNotions.inputHas i1 "small" = ActionNotions.inputHas i2 "small" ->
            Actions.execute E agentName (Actions.view_screen i1 tab) w
            = Actions.execute E agentName (Actions.view_screen i2 tab) w).
  { intros i1 i2 Hh Hs. simpl. unfold Actions.ViewScreenAction.
    change (match i1 with Some i => Js.includes i "high" | None => false end)
      with (ActionNotions.inputHas i1 "high").
    change (match i1 with Some i => Js.includes i "small" | None => false end)
      with (ActionNotions.inputHas i1 "small").
    change (match i2 with Some i => Js.includes i "high" | None => false end)
      with (ActionNotions.inputHas i2 "high").
    change (match i2 with Some i => Js.includes i "small" | None => false end)
      with (ActionNotions.inputHas i2 "small").
    rewrite Hh, Hs. reflexivity. }
  split; [apply Hgen | ].
  split; [apply Hgen; reflexivity | ].
  split; [apply Hgen; reflexivity | ].
  intros page base64 Hpage Hview Hshot Hsink. simpl.
  unfold Actions.ViewScreenAction, Actions.requirePage, tryCatch, bind.
  rewrite Hpage. unfold ret, await.
  change (match input1 with Some i => Js.includes i "high" | None => false end)
    with (ActionNotions.inputHas input1 "high").
  change (match input1 with Some i => Js.includes i "small" | None => false end)
    with (ActionNotions.inputHas input1 "small").
  rewrite Hview, Hshot, Hsink. reflexivity.
Qed.

Lemma view_screen_flags_witness :
  Actions.execute Samples.workingEngine "Samo"
    (Actions.view_screen (Some "full high") None) Samples.twoTabs
  = Actions.execute Samples.workingEngine "Samo"
      (Actions.view_screen (Some "high") None) Samples.twoTabs.
Proof.
  destruct (view_screen_flags Samples.workingEngine "Samo"
              (Some "full high") (Some "high") None Samples.twoTabs)
    as [H _].
  apply H; reflexivity.
Defined.

(** X13. The strategy given to the wait for navigation changes nothing
    but the wording of the line reported: whatever it is, the action waits
    for the page to be complete, then sleeps 3000 ms, and an omitted or
    empty strategy is reported as [all]. *)
Theorem wait_for_navigation_ignores_strategy :
  forall (E : Engine) (agentName : string) (strategy1 strategy2 tab : option string)
         (w : World),
    let run s := Actions.execute E agentName
                   (Actions.browser_wait_for_navigation s tab) w in
    fst (run strategy1) = fst (run strategy2)
    /\ ActionNotions.effects (snd (run strategy1))
       = ActionNotions.effects (snd (run strategy2))
    /\ run (Some EmptyString) = run None
    /\ (forall page,
          getChromePage tab w = (Ok (Some page), w) ->
          pageWaitComplete E page = Ok tt ->
          timers (snd (run strategy1)) = (timers w ++ [3000%Z])%list
          /\ messages (snd (run None))
             = (messages w
                ++ [("[" ++ agentName
                     ++ "] Navigation completed with strategy: all")%string])%list).
Proof.
  intros E agentName strategy1 strategy2 tab w run. subst run. simpl.
  unfold Actions.BrowserWaitForNavigationAction, Actions.requirePage,
    Actions.say, Actions.report, addSystemMessage, sleep, tryCatch, bind,
    modify, ret, throw, await, ActionNotions.effects.
  destruct (getChromePage tab w) as [[[page |] | e] w1] eqn:Hpage; simpl.
  - destruct (pageWaitComplete E page) as [[] | e] eqn:Hwait; simpl;
      (split; [reflexivity | ]); (split; [reflexivity | ]);
      (split; [reflexivity | ]); intros page' Hp' Hw';
      injection Hp' as <- <-.
    + split; reflexivity.
    + rewrite Hwait in Hw'. discriminate.
  - (split; [reflexivity | ]); (split; [reflexivity | ]);
      (split; [reflexivity | ]); intros page' Hp' Hw'; discriminate.
  - (split; [reflexivity | ]); (split; [reflexivity | ]);
      (split; [reflexivity | ]); intros page' Hp' Hw'; discriminate.
Qed.

Lemma wait_for_navigation_ignores_strategy_witness :
  timers
    (snd (Actions.execute Samples.workingEngine "Samo"
            (Actions.browser_wait_for_navigation (Some "networkidle0") None)
            Samples.twoTabs))
  = [3000%Z].
Proof.
  destruct (wait_for_navigation_ignores_strategy Samples.workingEngine "Samo"
              (Some "networkidle0") None None Samples.twoTabs)
    as [_ [_ [_ H]]].
  destruct (H 7 eq_refl eq_refl) as [Ht _]. exact Ht.
Defined.

(** X14. Scrolling to the bottom takes precedence over direction and
    distance, which are then ignored; otherwise an omitted direction is
    down and an omitted distance 1000 pixels, and scrolling up by a
    distance asks the engine for the same scroll as scrolling down by its
    opposite, the two runs differing in the reported line alone. *)
Theorem scroll_request :
  forall (E : Engine) (agentName : string)
         (direction1 direction2 : option Actions.Direction)
         (pixels1 pixels2 waitAfterMs : option Z) (tab : option string)
         (w : World) (p : Z),
    Actions.execute E agentName
      (Actions.browser_scroll direction1 pixels1 (Some true) waitAfterMs tab) w
    = Actions.execute E agentName
        (Actions.browser_scroll direction2 pixels2 (Some true) waitAfterMs tab) w
    /\ Actions.execute E agentName
         (Actions.browser_scroll None None None waitAfterMs tab) w
       = Actions.execute E agentName
           (Actions.browser_scroll (Some Actions.Down) (Some 1000%Z)
              (Some false) waitAfterMs tab) w
    /\ (let up := Actions.execute E agentName
                    (Actions.browser_scroll (Some Actions.Up) (Some p) None
                       waitAfterMs tab) w in
        let down := Actions.execute E agentName
                      (Actions.browser_scroll (Some Actions.Down) (Some (- p)%Z)
                         None waitAfterMs tab) w in
        fst up = fst down
        /\ ActionNotions.effects (snd up) = ActionNotions.effects (snd down)).
Proof.
  intros E agentName direction1 direction2 pixels1 pixels2 waitAfterMs tab w p.
  split; [reflexivity | ]. split; [reflexivity | ].
  simpl. unfold Actions.BrowserScrollAction, Actions.requirePage, Actions.say,
    Actions.report, Actions.settle, addSystemMessage, sleep, tryCatch, bind,
    modify, ret, throw, await, ActionNotions.effects.
  replace (-1 * orDefault (Some p) 1000)%Z with (- p)%Z
    by (unfold orDefault; lia).
  replace (1 * orDefault (Some (- p)%Z) 1000)%Z with (- p)%Z
    by (unfold orDefault; lia).
  destruct (getChromePage tab w) as [[[page |] | e] w1]; simpl;
    try (split; reflexivity).
  destruct (pageScroll E page (ScrollBy (- p))) as [[] | e]; simpl;
    try (split; reflexivity).
  destruct waitAfterMs as [ms |]; simpl;
    [destruct (ms >? 0)%Z | ]; simpl; split; reflexivity.
Qed.

(* ===================================================================== *)
(** * Further properties of the snapshot *)
(* ===================================================================== *)

Module SnapshotFacts.
Import Actions.

Lemma truncate_bound html : (Js.length (truncate html) <= limit)%Z.
Proof.
  destruct (Z_le_gt_dec (Js.length html) limit) as [Hle | Hgt].
  - rewrite (TruncateFacts.truncate_under _ Hle). exact Hle.
  - destruct (TruncateFacts.truncate_over _ Hgt) as [_ H]. rewrite H. lia.
Qed.

Lemma filter_none {A} (f : A -> bool) (l : list A) :
  (forall x, In x l -> f x = false) -> filter f l = [].
Proof.
  induction l as [| x l IH]; simpl; intro H; [reflexivity | ].
  rewrite (H x) by (left; reflexivity). apply IH.
  intros y Hy. apply H. right. exact Hy.
Qed.

End SnapshotFacts.

(** X15. A snapshot of a page on which the selector [body] matches no
    element reports that no element was found and stores nothing: the
    rendering slot keeps what it held. *)
Theorem snapshot_without_body :
  forall (E : Engine) (agentName : string) (searchTerm tab : option string)
         (w : World) (page : Page),
    getChromePage tab w = (Ok (Some page), w) ->
    pageSetSnapshotOpts E page (Actions.termOf searchTerm) = Ok tt ->
    pageCount E page "body" = Ok 0 ->
    Actions.execute E agentName (Actions.browser_snapshot_dom searchTerm tab) w
    = (Ok tt,
       ActionNotions.withMessage w
         ("[" ++ agentName ++ "] No elements found matching selector: body")).
Proof.
  intros E agentName searchTerm tab w page Hpage Hopts Hcount. simpl.
  unfold Actions.BrowserSnapshotDomAction, Actions.requirePage, tryCatch, bind.
  rewrite Hpage. unfold ret, await. rewrite Hopts, Hcount. reflexivity.
Qed.

Lemma snapshot_without_body_witness :
  rendering
    (snd (Actions.execute
            (Samples.engineWith true (Ok 1) (Ok tt) (Ok 7) (Ok tt) 0
               (Ok Samples.emptyDocument))
            "Samo" (Actions.browser_snapshot_dom None None) Samples.twoTabs))
  = None.
Proof.
  rewrite (snapshot_without_body
             (Samples.engineWith true (Ok 1) (Ok tt) (Ok 7) (Ok tt) 0
                (Ok Samples.emptyDocument))
             "Samo" None None Samples.twoTabs 7 eq_refl eq_refl eq_refl).
  reflexivity.
Defined.

(** X16. A search term that no descendant of the scope root contains is
    not reported as such: the snapshot is the head metadata followed by a
    blank line, or the empty text when the head has none, and the action
    stores it and reports a captured snapshot. *)
Theorem snapshot_without_match :
  forall (E : Engine) (agentName term : string) (tab : option string)
         (w : World) (page : Page) (n : nat) (doc : Document) (root : Element),
    term <> EmptyString ->
    match mainElement doc with
    | Some m => Some m
    | None => match bodyElements doc with
              | b :: _ => Some b
              | [] => documentBody doc
              end
    end = Some root ->
    (forall el, In el (descendants root) ->
                InPage.containsSearchTerm el term = false) ->
    let headMeta := Js.join InPage.nl (map outerHTML (headMetas doc)) in
    let html := if Js.truthy headMeta
                then headMeta ++ InPage.nl ++ InPage.nl else EmptyString in
    InPage.snapshot doc term = Ok html
    /\ (getChromePage tab w = (Ok (Some page), w) ->
        pageSetSnapshotOpts E page term = Ok tt ->
        pageCount E page "body" = Ok (S n) ->
        pageDocument E page = Ok doc ->
        updateLocationStateRendering E (Actions.truncate html) = Ok tt ->
        let w' := snd (Actions.execute E agentName
                         (Actions.browser_snapshot_dom (Some term) tab) w) in
        rendering w' = Some (Actions.truncate html)
        /\ messages w'
           = (messages w
              ++ [("[" ++ agentName
                   ++ "] DOM snapshot captured and saved to location rendering")%string])%list).
Proof.
  intros E agentName term tab w page n doc root Hne Hroot Hnone headMeta html.
  assert (Hsnap : InPage.snapshot doc term = Ok html).
  { unfold InPage.snapshot, InPage.keptElements.
    rewrite (FilterFacts.truthy_nonempty _ Hne).
    assert (Hscope :
      match
        match mainElement doc with
        | Some mainEl => [mainEl]
        | None => bodyElements doc
        end
      with
      | e :: _ => Some e
      | [] => documentBody doc
      end = Some root).
    { destruct (mainElement doc); [exact Hroot | ].
      destruct (bodyElements doc); exact Hroot. }
    rewrite Hscope. rewrite (SnapshotFacts.filter_none _ _ Hnone).
    subst html headMeta. simpl.
    destruct (Js.truthy (Js.join InPage.nl (map outerHTML (headMetas doc))));
      [ | reflexivity].
    f_equal. }
  split; [exact Hsnap | ].
  intros Hpage Hopts Hcount Hdoc Hsink w'. subst w'.
  assert (Hterm : Actions.termOf (Some term) = term).
  { unfold Actions.termOf, truthyOpt.
    rewrite (FilterFacts.truthy_nonempty _ Hne). reflexivity. }
  rewrite (TruncateFacts.snapshot_stored E agentName (Some term) tab w page n
             doc html Hpage);
    try rewrite Hterm; try assumption.
  split; reflexivity.
Qed.

Lemma snapshot_without_match_witness :
  InPage.snapshot Samples.smallPage "zzz"
  = Ok (Js.join InPage.nl (map outerHTML (headMetas Samples.smallPage))
        ++ InPage.nl ++ InPage.nl).
Proof.
  assert (Hne : "zzz" <> EmptyString) by discriminate.
  pose proof (snapshot_without_match Samples.workingEngine "Samo" "zzz" None
                Samples.twoTabs 7 0 Samples.smallPage
                (Node "<body><p>a</p></body>" "a" [Samples.paragraph])
                Hne eq_refl) as H.
  destruct H as [H _].
  - intros el [<- | []]. reflexivity.
  - exact H.
Defined.

(** X17. Whatever the page and whatever the engine answers, the text a
    snapshot stores is never longer than 100000 characters: after the
    action the rendering slot holds what it held before, or a text within
    the cap. *)
Theorem rendering_within_cap :
  forall (E : Engine) (agentName : string) (searchTerm tab : option string)
         (w : World),
    let w' := snd (Actions.execute E agentName
                     (Actions.browser_snapshot_dom searchTerm tab) w) in
    rendering w' = rendering w
    \/ exists r, rendering w' = Some r /\ (Js.length r <= 100000)%Z.
Proof.
  intros E agentName searchTerm tab w w'. subst w'. simpl.
  unfold Actions.BrowserSnapshotDomAction, Actions.requirePage,
    Actions.say, Actions.report, addSystemMessage, setRendering, tryCatch,
    bind, modify, ret, throw, await.
  destruct (getChromePage tab w) as [[[page |] | e] w1] eqn:Hpage.
  2, 3: unfold getChromePage, gets in Hpage;
    destruct (negb (truthyOpt tab)); injection Hpage as _ <-; left; reflexivity.
  assert (Hw : w1 = w).
  { unfold getChromePage, gets in Hpage.
    destruct (negb (truthyOpt tab)); injection Hpage as _ <-; reflexivity. }
  subst w1. simpl.
  destruct (pageSetSnapshotOpts E page (Actions.termOf searchTerm)); simpl;
    [ | left; reflexivity].
  destruct (pageCount E page "body") as [[| n] | e]; simpl;
    [left; reflexivity | | left; reflexivity].
  destruct (pageDocument E page) as [doc | e]; simpl; [ | left; reflexivity].
  destruct (InPage.snapshot doc (Actions.termOf searchTerm)) as [html | e];
    simpl; [ | left; reflexivity].
  destruct (updateLocationStateRendering E (Actions.truncate html)); simpl;
    [ | left; reflexivity].
  right. exists (Actions.truncate html). split; [reflexivity | ].
  apply SnapshotFacts.truncate_bound.
Qed.

(* ===================================================================== *)
(** * Further properties of the sanitizer and of the filter *)
(* ===================================================================== *)

Module TidyFacts.
Import Text.

(** In tidy text no two spaces meet. *)
Lemma tidyAfter_no_double t : forall b,
  tidyAfter b t = true -> Js.includes t "  " = false.
Proof.
  induction t as [| c t IH]; intros b H; [reflexivity | ].
  change (Js.includes (String c t) "  ")
    with (Js.startsWith "  " (String c t) || Js.includes t "  ").
  rewrite SpaceFacts.tidyAfter_cons in H.
  destruct (Js.isSpace c) eqn:Hc.
  - apply andb_true_iff in H. destruct H as [_ Ht].
    rewrite (IH true Ht), orb_false_r.
    destruct t as [| d t]; [discriminate | ].
    rewrite SpaceFacts.tidyAfter_cons in Ht.
    destruct (Js.isSpace d) eqn:Hd; [discriminate | ].
    cbn [Js.startsWith].
    destruct (Ascii.eqb_spec " " d) as [<- | _]; [discriminate Hd | ].
    cbn [andb]. apply andb_false_r.
  - rewrite (IH false H), orb_false_r. cbn [Js.startsWith].
    destruct (Ascii.eqb_spec " " c) as [<- | _]; [discriminate Hc | reflexivity].
Qed.

(** In tidy text the only white space is the character SPACE. *)
Lemma tidyAfter_only_space c t : forall b,
  tidyAfter b t = true -> Js.isSpace c = true -> c <> " "%char ->
  avoids c t = true.
Proof.
  induction t as [| d t IH]; intros b H Hc Hne; [reflexivity | ].
  rewrite SpaceFacts.tidyAfter_cons in H. cbn [avoids].
  destruct (Js.isSpace d) eqn:Hd.
  - apply andb_true_iff in H. destruct H as [H Ht].
    apply andb_true_iff in H. destruct H as [_ Heq].
    apply Ascii.eqb_eq in Heq. subst d.
    rewrite (IH true Ht Hc Hne).
    destruct (Ascii.eqb_spec " " c); [congruence | reflexivity].
  - rewrite (IH false H Hc Hne).
    destruct (Ascii.eqb_spec d c); [congruence | reflexivity].
Qed.

End TidyFacts.

(** X18. Whatever the markup, the sanitized text is normalized: it has
    no white space at either end, no two spaces in a row and no white space
    other than the character SPACE (no tab, no line break), so trimming it
    or normalizing its spaces again changes nothing. *)
Theorem cleanHtml_output_tidy :
  forall s : string,
    let out := Sanitizer.cleanHtml s in
    Text.tidy out = true
    /\ Js.trim out = out
    /\ Js.includes out "  " = false
    /\ (forall c, Js.isSpace c = true -> c <> " "%char ->
                  Text.avoids c out = true)
    /\ Sanitizer.normalizeSpace out = out.
Proof.
  intros s out.
  assert (Ht : Text.tidy out = true).
  { subst out. unfold Sanitizer.cleanHtml.
    rewrite SanitizerFacts.normalizeSpace_collapse.
    apply SpaceFacts.tidy_normalize. }
  assert (Hn : Sanitizer.normalizeSpace out = out).
  { rewrite SanitizerFacts.normalizeSpace_collapse.
    apply SpaceFacts.normalize_tidy. exact Ht. }
  split; [exact Ht | ]. clearbody out. clear s.
  destruct out as [| c t] eqn:Hout.
  - split; [reflexivity | ]. split; [reflexivity | ].
    split; [reflexivity | exact Hn].
  - unfold Text.tidy in Ht. rewrite <- Hout in *. clear Hout.
    split; [ | split; [ | split]].
    + unfold Js.trim. rewrite (SpaceFacts.trimStart_tidy _ Ht).
      apply (SpaceFacts.trimEnd_tidy _ true Ht).
    + apply (TidyFacts.tidyAfter_no_double _ true Ht).
    + intros d Hd Hne. apply (TidyFacts.tidyAfter_only_space _ _ true Ht Hd Hne).
    + exact Hn.
Qed.

Lemma cleanHtml_output_tidy_witness :
  Text.avoids "009"
    (Sanitizer.cleanHtml ("<p> a" ++ String "009" "b </p>")) = true.
Proof.
  apply (proj1 (proj2 (proj2 (proj2
           (cleanHtml_output_tidy ("<p> a" ++ String "009" "b </p>")))))).
  - vm_compute. reflexivity.
  - discriminate.
Defined.

Module InventFacts.
Import Regex Text Sanitizer.

Lemma avoids_app c a b :
  avoids c (a ++ b) = avoids c a && avoids c b.
Proof.
  induction a as [| x a IH]; simpl; [reflexivity | ].
  rewrite IH, andb_assoc. reflexivity.
Qed.

Lemma avoids_take c n s : avoids c s = true -> avoids c (Js.take n s) = true.
Proof.
  revert s. induction n as [| n IH]; intros [| x s] H; simpl in *; auto.
  apply andb_true_iff in H. destruct H as [Hx Hs].
  rewrite Hx, (IH _ Hs). reflexivity.
Qed.

Lemma capture_avoids c n caps v :
  capturesAvoid c caps = true -> capture n caps = Some v -> avoids c v = true.
Proof.
  induction caps as [| [m u] caps IH]; simpl; [discriminate | ].
  intro H. apply andb_true_iff in H. destruct H as [Hu Hc].
  destruct (Nat.eqb m n); [intro Hv; injection Hv as <-; exact Hu | ].
  apply IH. exact Hc.
Qed.

Section Inventing.

Variable c : ascii.

Lemma rep_clean greedy p s (k : string -> option (string * captures)) :
  (forall s1, avoids c s1 = true -> cleanResult c (k s1)) ->
  avoids c s = true -> cleanResult c (rep greedy p s k).
Proof.
  intros Hk. destruct greedy; simpl.
  - induction s as [| b s IH]; intro Hs; simpl.
    + apply Hk. exact Hs.
    + destruct (p b); [ | apply Hk; exact Hs].
      specialize (IH (RegexFacts.avoids_tail _ _ _ Hs)).
      destruct (repGreedy p s k); [exact IH | apply Hk; exact Hs].
  - induction s as [| b s IH]; intro Hs; simpl.
    + pose proof (Hk _ Hs) as H. destruct (k EmptyString); [exact H | exact I].
    + pose proof (Hk _ Hs) as H. destruct (k (String b s)); [exact H | ].
      destruct (p b); [ | exact I].
      apply IH. apply (RegexFacts.avoids_tail _ _ _ Hs).
Qed.

(** Matching a text free of [c] captures only text free of [c]. *)
Lemma run_clean ic r :
  forall s caps (k : cont),
    (forall s1 caps1, avoids c s1 = true -> capturesAvoid c caps1 = true ->
                      cleanResult c (k s1 caps1)) ->
    avoids c s = true -> capturesAvoid c caps = true ->
    cleanResult c (run ic r s caps k).
Proof.
  induction r as [| a | p | r1 IH1 r2 IH2 | r1 IH1 r2 IH2 | one greedy p
                  | n r1 IH1 | n]; intros s caps k Hk Hs Hc; simpl.
  - apply Hk; assumption.
  - destruct s as [| b s]; [exact I | ].
    destruct (sameChar ic a b); [ | exact I].
    apply Hk; [apply (RegexFacts.avoids_tail _ _ _ Hs) | exact Hc].
  - destruct s as [| b s]; [exact I | ].
    destruct (p b); [ | exact I].
    apply Hk; [apply (RegexFacts.avoids_tail _ _ _ Hs) | exact Hc].
  - apply IH1; [ | exact Hs | exact Hc].
    intros s1 caps1 Hs1 Hc1. apply IH2; assumption.
  - pose proof (IH1 s caps k Hk Hs Hc) as H1.
    destruct (run ic r1 s caps k); [exact H1 | ].
    apply IH2; assumption.
  - destruct one.
    + destruct s as [| b s]; [exact I | ].
      destruct (p b); [ | exact I].
      apply rep_clean; [ | apply (RegexFacts.avoids_tail _ _ _ Hs)].
      intros s1 Hs1. apply Hk; assumption.
    + apply rep_clean; [ | exact Hs]. intros s1 Hs1. apply Hk; assumption.
  - apply IH1; [ | exact Hs | exact Hc].
    intros s1 caps1 Hs1 Hc1. apply Hk; [exact Hs1 | ].
    simpl. rewrite Hc1, (avoids_take _ _ _ Hs). reflexivity.
  - destruct (capture n caps) as [t |]; [ | apply Hk; assumption].
    destruct (matchText ic t s) as [s1 |] eqn:Ht; [ | exact I].
    apply Hk; [apply (RegexFacts.matchText_avoids _ _ _ _ _ Ht Hs) | exact Hc].
Qed.

Lemma exec_clean ic r s n caps :
  avoids c s = true -> exec ic r s = Some (n, caps) ->
  capturesAvoid c caps = true.
Proof.
  intros Hs. unfold exec.
  pose proof (run_clean ic r s [] (fun s1 caps1 => Some (s1, caps1))) as H.
  destruct (run ic r s [] (fun s1 caps1 => Some (s1, caps1)))
    as [[s1 caps1] |]; [ | discriminate].
  intro Heq. injection Heq as _ <-.
  apply H; [intros ? ? _ Hc; exact Hc | exact Hs | reflexivity].
Qed.

(** A replacement that brings no [c] of its own leaves the text free of
    [c]. *)
Lemma replaceFrom_avoids ic r f s :
  (forall m caps, capturesAvoid c caps = true -> avoids c (f m caps) = true) ->
  forall skip, avoids c s = true -> avoids c (replaceFrom ic r f s skip) = true.
Proof.
  intro Hf. induction s as [| b s IH]; intros skip Hs.
  - simpl. destruct skip; [ | reflexivity].
    destruct (exec ic r EmptyString) as [[n caps] |] eqn:He; [ | reflexivity].
    apply Hf. apply (exec_clean _ _ _ _ _ Hs He).
  - pose proof (RegexFacts.avoids_tail _ _ _ Hs) as Ht.
    cbn [replaceFrom]. destruct skip as [| skip]; [ | apply IH; exact Ht].
    destruct (exec ic r (String b s)) as [[[| n] caps] |] eqn:He.
    + rewrite avoids_app, (Hf _ _ (exec_clean _ _ _ _ _ Hs He)).
      cbn [avoids andb]. rewrite (IH 0 Ht).
      simpl in Hs. apply andb_true_iff in Hs. destruct Hs as [Hb _].
      rewrite Hb. reflexivity.
    + rewrite avoids_app, (Hf _ _ (exec_clean _ _ _ _ _ Hs He)).
      apply IH. exact Ht.
    + cbn [avoids]. rewrite (IH 0 Ht).
      simpl in Hs. apply andb_true_iff in Hs. destruct Hs as [Hb _].
      rewrite Hb. reflexivity.
Qed.

Lemma remove_avoids ic r s :
  avoids c s = true -> avoids c (remove ic r s) = true.
Proof.
  intro Hs. unfold remove, replaceAll.
  apply replaceFrom_avoids; [reflexivity | exact Hs].
Qed.

Hypothesis notInTemplate : avoids c (anchorOnlyHref EmptyString []) = true.

Lemma anchorOnlyHref_avoids m caps :
  capturesAvoid c caps = true -> avoids c (anchorOnlyHref m caps) = true.
Proof.
  intro Hc. unfold anchorOnlyHref in *.
  assert (Hh : avoids c match capture 2 caps with
                        | Some h => h
                        | None => EmptyString
                        end = true).
  { destruct (capture 2 caps) as [h |] eqn:Hcap; [ | reflexivity].
    apply (capture_avoids _ _ _ _ Hc Hcap). }
  simpl in notInTemplate.
  rewrite avoids_app. cbn [avoids]. rewrite avoids_app. cbn [avoids].
  rewrite Hh.
  repeat (apply andb_true_iff in notInTemplate;
          destruct notInTemplate as [? notInTemplate]).
  repeat (apply andb_true_iff; split); try assumption; reflexivity.
Qed.

Lemma stripMarkup_avoids s :
  avoids c s = true -> avoids c (stripMarkup s) = true.
Proof.
  intro Hs. unfold stripMarkup.
  repeat first
    [ apply remove_avoids
    | apply replaceFrom_avoids; [apply anchorOnlyHref_avoids | ] ].
  exact Hs.
Qed.

End Inventing.

End InventFacts.

(** X19. The sanitizer adds no content of its own: apart from the space
    and the characters of the rewritten anchor tag (the opening tag with
    an empty link target), a character that does not occur in the markup
    does not occur in the sanitized text. *)
Theorem cleanHtml_invents_nothing :
  forall (c : ascii) (s : string),
    c <> " "%char ->
    Text.avoids c (Sanitizer.anchorOnlyHref EmptyString []) = true ->
    Text.avoids c s = true ->
    Text.avoids c (Sanitizer.cleanHtml s) = true.
Proof.
  intros c s Hsp Htpl Hs. unfold Sanitizer.cleanHtml.
  rewrite SanitizerFacts.normalizeSpace_collapse. unfold Js.trim.
  apply SpaceFacts.avoids_trimEnd, SpaceFacts.avoids_trimStart,
    SpaceFacts.avoids_collapse; [exact Hsp | ].
  apply InventFacts.stripMarkup_avoids; assumption.
Qed.

Lemma cleanHtml_invents_nothing_witness :
  Text.avoids "#"
    (Sanitizer.cleanHtml "<div class=x><b>busan food</b>  <i>today</i></div>")
  = true.
Proof.
  apply cleanHtml_invents_nothing; [discriminate | reflexivity | reflexivity].
Defined.

Module CaseFacts.

Lemma lowerChar_idempotent c : Js.lowerChar (Js.lowerChar c) = Js.lowerChar c.
Proof.
  destruct c as [[] [] [] [] [] [] [] []]; vm_compute; reflexivity.
Qed.

Lemma toLowerCase_idempotent s :
  Js.toLowerCase (Js.toLowerCase s) = Js.toLowerCase s.
Proof.
  induction s as [| c s IH]; simpl; [reflexivity | ].
  rewrite lowerChar_idempotent, IH. reflexivity.
Qed.

Lemma truthy_toLowerCase s : Js.truthy (Js.toLowerCase s) = Js.truthy s.
Proof. destruct s; reflexivity. Qed.

End CaseFacts.

(** X20. The second test of the filter, for the term after a hash mark,
    never decides: under a non-empty term an element is kept exactly when
    its text in lower case contains the term in lower case, so a search for
    a word also keeps the elements that carry it as a tag, and the hash
    mark need not be tried. *)
Theorem hash_test_never_decides :
  forall (element : Element) (term : string),
    term <> EmptyString ->
    InPage.containsSearchTerm element term
    = Js.includes (Js.toLowerCase (textContent element)) (Js.toLowerCase term)
    /\ (Js.includes (Js.toLowerCase (textContent element))
          ("#" ++ Js.toLowerCase term) = true ->
        InPage.containsSearchTerm element term = true).
Proof.
  intros element term Hne.
  pose proof (FilterFacts.hashtag_test_redundant element term Hne) as H.
  split; [exact H | ].
  intro Hhash. unfold InPage.containsSearchTerm.
  rewrite (FilterFacts.truthy_nonempty _ Hne). simpl negb. cbv iota.
  rewrite Hhash. apply orb_true_r.
Qed.

Lemma hash_test_never_decides_witness :
  InPage.containsSearchTerm Samples.taggedPost "Busan_Food"
  = Js.includes (Js.toLowerCase (textContent Samples.taggedPost))
      (Js.toLowerCase "Busan_Food").
Proof.
  assert (Hne : "Busan_Food" <> EmptyString) by discriminate.
  exact (proj1 (hash_test_never_decides Samples.taggedPost "Busan_Food" Hne)).
Defined.

(** X21. The filter ignores case on both sides: putting the search term
    or the text of the element in lower case does not change whether the
    element is kept. *)
Theorem filter_ignores_case :
  forall (markup text term : string) (children : list Element),
    InPage.containsSearchTerm (Node markup text children)
      (Js.toLowerCase term)
    = InPage.containsSearchTerm (Node markup text children) term
    /\ InPage.containsSearchTerm (Node markup (Js.toLowerCase text) children)
         term
       = InPage.containsSearchTerm (Node markup text children) term.
Proof.
  intros markup text term children. unfold InPage.containsSearchTerm. simpl.
  rewrite CaseFacts.truthy_toLowerCase, !CaseFacts.toLowerCase_idempotent.
  split; reflexivity.
Qed.

(* ===================================================================== *)
(** * Properties of the list of influencers (web.ts) *)
(* ===================================================================== *)



Module MatchFacts.
Import Regex RegexOps.

Lemma length_app (a b : string) :
  String.length (a ++ b) = String.length a + String.length b.
Proof. induction a as [| x a IH]; simpl; [ | rewrite IH]; reflexivity. Qed.

Lemma take_app_exact (a b : string) :
  Js.take (String.length a) (a ++ b) = a.
Proof. induction a as [| x a IH]; simpl; [destruct b | rewrite IH]; reflexivity. Qed.

(** The text matched, recovered from what the match left. *)
Lemma take_matched (a b : string) :
  Js.take (String.length (a ++ b) - String.length b) (a ++ b) = a.
Proof.
  rewrite length_app. replace (String.length a + String.length b
                               - String.length b) with (String.length a) by lia.
  apply take_app_exact.
Qed.

(** A repetition that succeeds has taken characters that pass the test
    and has handed the rest to the continuation. *)
Lemma rep_from_cont greedy p s (k : string -> option (string * captures)) res :
  rep greedy p s k = Some res ->
  exists pre s1,
    s = pre ++ s1 /\ Web.allChars p pre = true /\ k s1 = Some res.
Proof.
  destruct greedy; simpl.
  - induction s as [| b s IH]; simpl; intro H.
    + exists EmptyString, EmptyString. auto.
    + destruct (p b) eqn:Hb.
      * destruct (repGreedy p s k) as [r |] eqn:Hr.
        -- destruct (IH H) as [pre [s1 [Hs [Hp Hk]]]].
           exists (String b pre), s1. simpl. rewrite Hb, Hp.
           repeat split; congruence.
        -- exists EmptyString, (String b s). auto.
      * exists EmptyString, (String b s). auto.
  - induction s as [| b s IH]; simpl; intro H.
    + destruct (k EmptyString) as [r |] eqn:Hk; [ | discriminate].
      exists EmptyString, EmptyString. repeat split; congruence.
    + destruct (k (String b s)) as [r |] eqn:Hk.
      * exists EmptyString, (String b s). repeat split; congruence.
      * destruct (p b) eqn:Hb; [ | discriminate].
        destruct (IH H) as [pre [s1 [Hs [Hp Hk1]]]].
        exists (String b pre), s1. simpl. rewrite Hb, Hp.
        repeat split; congruence.
Qed.

(** The result of a match is a result of its continuation. *)
Lemma run_from_cont ic r :
  forall s caps (k : cont) res,
    run ic r s caps k = Some res ->
    exists s1 caps1, k s1 caps1 = Some res.
Proof.
  induction r as [| a | p | r1 IH1 r2 IH2 | r1 IH1 r2 IH2 | one greedy p
                  | n r1 IH1 | n]; intros s caps k res; simpl; intro H.
  - eauto.
  - destruct s as [| b s]; [discriminate | ].
    destruct (sameChar ic a b); [eauto | discriminate].
  - destruct s as [| b s]; [discriminate | ].
    destruct (p b); [eauto | discriminate].
  - destruct (IH1 _ _ _ _ H) as [s1 [caps1 H1]]. apply (IH2 _ _ _ _ H1).
  - destruct (run ic r1 s caps k) as [r |] eqn:Hr.
    + injection H as <-. apply (IH1 _ _ _ _ Hr).
    + apply (IH2 _ _ _ _ H).
  - destruct one.
    + destruct s as [| b s]; [discriminate | ].
      destruct (p b); [ | discriminate].
      destruct (rep_from_cont _ _ _ _ _ H) as [pre [s1 [_ [_ Hk]]]]. eauto.
    + destruct (rep_from_cont _ _ _ _ _ H) as [pre [s1 [_ [_ Hk]]]]. eauto.
  - destruct (IH1 _ _ _ _ H) as [s1 [caps1 H1]]. eauto.
  - destruct (capture n caps) as [t |]; [ | eauto].
    destruct (matchText ic t s); [eauto | discriminate].
Qed.

Lemma search_exec ic r s caps :
  search ic r s = Some caps -> exists s' n, exec ic r s' = Some (n, caps).
Proof.
  induction s as [| b s IH]; simpl.
  - destruct (exec ic r EmptyString) as [[n c] |] eqn:He; [ | discriminate].
    intro H. injection H as <-. eauto.
  - destruct (exec ic r (String b s)) as [[n c] |] eqn:He.
    + intro H. injection H as <-. eauto.
    + exact IH.
Qed.

(** What the group of a count pattern captures is a count. *)
Lemma exec_count label s n caps :
  exec true (Web.reCount label) s = Some (n, caps) ->
  exists v, capture 1 caps = Some v /\ Web.isCount v.
Proof.
  unfold exec, Web.reCount. cbn [seqs].
  destruct (run true _ s [] _) as [[sEnd capsEnd] |] eqn:Hrun; [ | discriminate].
  intro H. injection H as _ <-.
  cbn [run] in Hrun.
  destruct (run_from_cont _ _ _ _ _ _ Hrun) as [s1 [caps1 H1]]. clear Hrun.
  destruct (run_from_cont _ _ _ _ _ _ H1) as [s2 [caps2 H2]]. clear H1.
  unfold plus, optional in H2. cbn [run] in H2.
  destruct s2 as [| b s2]; [discriminate | ].
  destruct (Web.countChar b) eqn:Hb; [ | discriminate].
  destruct (rep_from_cont _ _ _ _ _ H2) as [pre [s3 [Hs [Hpre Hk]]]].
  clear H2. subst s2.
  assert (Hcases :
    (exists c s4, s3 = String c s4 /\ Web.unitChar c = true
       /\ capsEnd
          = (1, Js.take (String.length (String b (pre ++ String c s4))
                         - String.length s4)
                  (String b (pre ++ String c s4))) :: caps2)
    \/ capsEnd
       = (1, Js.take (String.length (String b (pre ++ s3)) - String.length s3)
               (String b (pre ++ s3))) :: caps2).
  { destruct s3 as [| c s4].
    - right. injection Hk as _ <-. reflexivity.
    - destruct (Web.unitChar c) eqn:Hc.
      + left. exists c, s4. injection Hk as _ <-. auto.
      + right. injection Hk as _ <-. reflexivity. }
  destruct Hcases as [[c [s4 [-> [Hc ->]]]] | ->].
  - exists (String b pre ++ String c EmptyString). split.
    + cbn [capture Nat.eqb]. f_equal.
      change (String b (pre ++ String c s4))
        with (String b pre ++ String c s4).
      replace (String b pre ++ String c s4)
        with ((String b pre ++ String c EmptyString) ++ s4)
        by (rewrite FilterFacts.append_assoc; reflexivity).
      apply take_matched.
    + exists (String b pre), (String c EmptyString).
      split; [reflexivity | ]. split; [discriminate | ].
      split; [simpl; rewrite Hb, Hpre; reflexivity | ].
      right. exists c. auto.
  - exists (String b pre). split.
    + cbn [capture Nat.eqb]. f_equal.
      change (String b (pre ++ s3)) with (String b pre ++ s3).
      apply take_matched.
    + exists (String b pre), EmptyString.
      split; [ | split; [discriminate | split; [ | left; reflexivity]]].
      * clear. induction (String b pre) as [| x a IH]; simpl;
          [ | rewrite <- IH]; reflexivity.
      * simpl. rewrite Hb, Hpre. reflexivity.
Qed.

End MatchFacts.

(** X23. The numbers of followers and of following served, when served
    at all, are counts as written: digits, commas and dots, at least one,
    with at most one letter k or m after them, in either case; nothing
    else of the line gets into them. *)
Theorem counts_well_formed :
  forall (line v : string),
    (Web.followers (Web.parseLine line) = Some v -> Web.isCount v)
    /\ (Web.following (Web.parseLine line) = Some v -> Web.isCount v).
Proof.
  intros line v. unfold Web.parseLine.
  cbn [Web.followers Web.following]. unfold Web.firstGroup.
  split.
  - destruct (RegexOps.search true Web.reFollowers line) as [caps |] eqn:Hs;
      [ | discriminate].
    destruct (MatchFacts.search_exec _ _ _ _ Hs) as [s' [n He]].
    destruct (MatchFacts.exec_count _ _ _ _ He) as [u [Hu Hc]].
    rewrite Hu. intro H. injection H as <-. exact Hc.
  - destruct (RegexOps.search true Web.reFollowing line) as [caps |] eqn:Hs;
      [ | discriminate].
    destruct (MatchFacts.search_exec _ _ _ _ Hs) as [s' [n He]].
    destruct (MatchFacts.exec_count _ _ _ _ He) as [u [Hu Hc]].
    rewrite Hu. intro H. injection H as <-. exact Hc.
Qed.

Lemma counts_well_formed_witness :
  Web.isCount "37.5k".
Proof.
  apply (proj1 (counts_well_formed
                  "@busan_eats | Busan Eats | followers: 37.5k | following: 12"
                  "37.5k")).
  vm_compute. reflexivity.
Defined.

Module LineFacts.
Import Regex RegexOps Text.

(** A run of literals matches as the comparison of texts does. *)
Lemma run_lits ic L : forall s caps (k : cont),
  run ic (lits L) s caps k
  = match matchText ic L s with
    | Some s1 => k s1 caps
    | None => None
    end.
Proof.
  induction L as [| a L IH]; intros s caps k; [reflexivity | ].
  destruct L as [| a' L].
  - simpl. destruct s as [| b s]; [reflexivity | ].
    destruct (sameChar ic a b); reflexivity.
  - change (lits (String a (String a' L)))
      with (Seq (Lit a) (lits (String a' L))).
    cbn [run]. destruct s as [| b s]; [reflexivity | ].
    cbn [matchText]. destruct (sameChar ic a b); [ | reflexivity].
    apply IH.
Qed.

(** What a text compared with success has in the place of a character
    that is no letter. *)
Lemma matchText_keeps c L : forall s rest,
  caseless c = true ->
  avoids c L = false ->
  matchText true L s = Some rest ->
  avoids c (Js.take (String.length L) s) = false.
Proof.
  induction L as [| a L IH]; intros s rest Hc HL H; [discriminate | ].
  destruct s as [| b s]; [discriminate | ].
  cbn [matchText] in H. destruct (sameChar true a b) eqn:Hab; [ | discriminate].
  cbn [String.length Js.take avoids] in *.
  destruct (Ascii.eqb_spec a c) as [-> | Hne].
  - apply (RegexFacts.sameChar_caseless _ _ _ Hc) in Hab. subst b.
    rewrite Ascii.eqb_refl. reflexivity.
  - cbn [negb andb] in HL. rewrite (IH _ _ Hc HL H). apply andb_false_r.
Qed.

Lemma search_found ic r s n caps :
  exec ic r s = Some (n, caps) -> search ic r s = Some caps.
Proof. intro H. destruct s; simpl; rewrite H; reflexivity. Qed.

(** The search passes over a stretch at no place of which the pattern
    matches. *)
Lemma search_skip ic r rest : forall pre,
  (forall a b c, pre = a ++ String b c ->
                 exec ic r (String b c ++ rest) = None) ->
  search ic r (pre ++ rest) = search ic r rest.
Proof.
  induction pre as [| x pre IH]; intro H; [reflexivity | ].
  cbn [append search].
  pose proof (H EmptyString x pre eq_refl) as H0. cbn [append] in H0.
  rewrite H0.
  apply IH. intros a b c ->. apply (H (String x a) b c). reflexivity.
Qed.

Lemma exec_count_no_label L s :
  matchText true L s = None -> exec true (Web.reCount L) s = None.
Proof.
  intro H. unfold exec, Web.reCount. cbn [seqs run].
  rewrite run_lits, H. reflexivity.
Qed.

(** A greedy repetition takes the whole run when the rest of the pattern
    accepts what follows it. *)
Lemma repGreedy_whole p (k : string -> option (string * captures)) rest res :
  forall pre,
    Web.allChars p pre = true ->
    k rest = Some res ->
    (rest = EmptyString \/ exists c r, rest = String c r /\ p c = false) ->
    repGreedy p (pre ++ rest) k = Some res.
Proof.
  induction pre as [| b pre IH]; intros Hpre Hk Hrest.
  - cbn [append]. destruct Hrest as [-> | [c [r [-> Hc]]]]; simpl.
    + exact Hk.
    + rewrite Hc. exact Hk.
  - cbn [Web.allChars] in Hpre. apply andb_true_iff in Hpre.
    destruct Hpre as [Hb Hpre].
    cbn [append repGreedy]. rewrite Hb, (IH Hpre Hk Hrest). reflexivity.
Qed.

Lemma countChar_facts c :
  Web.countChar c = true ->
  Js.isSpace c = false /\ Web.unitChar c = false
  /\ sameChar true "f" c = false.
Proof.
  destruct c as [[] [] [] [] [] [] [] []]; vm_compute; intro H;
    try discriminate H; auto.
Qed.

Lemma unitChar_facts c :
  Web.unitChar c = true ->
  Web.countChar c = false /\ sameChar true "f" c = false.
Proof.
  destruct c as [[] [] [] [] [] [] [] []]; vm_compute; intro H;
    try discriminate H; auto.
Qed.

Lemma append_empty (s : string) : s ++ EmptyString = s.
Proof. induction s as [| x s IH]; simpl; [ | rewrite IH]; reflexivity. Qed.

(** The group of a count pattern on a count followed by the end of the
    line or by a blank. *)
Lemma run_count_group v rest :
  Web.isCount v ->
  (rest = EmptyString \/ exists r, rest = String " " r) ->
  run true (Group 1 (Seq (plus Web.countChar) (optional (Class Web.unitChar))))
      (v ++ rest) [] (fun s1 caps1 => Some (s1, caps1))
  = Some (rest, [(1, v)]).
Proof.
  intros [digits [unit [-> [Hne [Hd Hu]]]]] Hrest.
  destruct digits as [| d ds]; [congruence | ].
  cbn [Web.allChars] in Hd. apply andb_true_iff in Hd. destruct Hd as [Hd Hds].
  unfold plus, optional.
  remember ((String d ds ++ unit) ++ rest) as s eqn:Hs.
  cbn [run]. rewrite Hs at 1.
  cbn [append]. rewrite Hd. rewrite FilterFacts.append_assoc.
  assert (Hgroup : forall u,
            (1, Js.take (String.length s - String.length rest) s) :: u
            = (1, String d ds ++ unit) :: u).
  { intro u. rewrite Hs. rewrite MatchFacts.take_matched. reflexivity. }
  apply repGreedy_whole; [exact Hds | | ].
  - destruct Hu as [-> | [u [-> Hu]]].
    + cbn [append].
      destruct Hrest as [-> | [r ->]].
      * rewrite Hgroup. reflexivity.
      * replace (Web.unitChar " ") with false by (vm_compute; reflexivity).
        rewrite Hgroup. reflexivity.
    + cbn [append]. rewrite Hu. rewrite Hgroup. reflexivity.
  - destruct Hu as [-> | [u [-> Hu]]].
    + cbn [append]. destruct Hrest as [-> | [r ->]]; [left; reflexivity | ].
      right. exists " "%char, r. split; [reflexivity | ].
      vm_compute. reflexivity.
    + right. exists u, rest. split; [reflexivity | ].
      apply (unitChar_facts _ Hu).
Qed.

(** The pattern of a count at its label. *)
Lemma exec_count_found L s spaces v rest :
  matchText true L s = Some (spaces ++ v ++ rest) ->
  Web.allChars Js.isSpace spaces = true ->
  Web.isCount v ->
  (rest = EmptyString \/ exists r, rest = String " " r) ->
  exists n, exec true (Web.reCount L) s = Some (n, [(1, v)]).
Proof.
  intros HL Hsp Hv Hrest.
  unfold exec, Web.reCount. cbn [seqs]. cbn [run].
  rewrite run_lits, HL. unfold star at 1. cbn [run]. unfold rep.
  rewrite (repGreedy_whole Js.isSpace _ (v ++ rest) (rest, [(1, v)])).
  - eauto.
  - exact Hsp.
  - apply (run_count_group v rest Hv Hrest).
  - destruct Hv as [digits [unit [-> [Hne [Hd _]]]]].
    destruct digits as [| d ds]; [congruence | ].
    right. exists d, ((ds ++ unit) ++ rest). split; [reflexivity | ].
    cbn [Web.allChars] in Hd. apply andb_true_iff in Hd.
    apply (countChar_facts d (proj1 Hd)).
Qed.


Lemma trimEnd_space s : Js.trimEnd (s ++ " ") = Js.trimEnd s.
Proof.
  induction s as [| c s IH]; [reflexivity | ].
  cbn [append Js.trimEnd]. rewrite IH. reflexivity.
Qed.

Lemma trimEnd_keep c s :
  Js.isSpace c = false -> Js.trimEnd (String c s) = String c (Js.trimEnd s).
Proof.
  intro Hc. cbn [Js.trimEnd]. rewrite Hc. destruct (Js.trimEnd s); reflexivity.
Qed.

Lemma length_trimEnd s : String.length (Js.trimEnd s) <= String.length s.
Proof.
  induction s as [| c s IH]; [simpl; lia | ].
  cbn [Js.trimEnd]. destruct (Js.trimEnd s) as [| x t].
  - destruct (Js.isSpace c); cbn [String.length]; lia.
  - cbn [String.length] in *. lia.
Qed.

(** A text that [trim] leaves alone has no white space at either end. *)
Lemma trim_fixed s :
  Js.trim s = s ->
  Js.trimEnd s = s
  /\ match s with String c _ => Js.isSpace c = false | EmptyString => True end.
Proof.
  unfold Js.trim. intro H.
  destruct s as [| c s]; [auto | ].
  destruct (Js.isSpace c) eqn:Hc.
  - exfalso. cbn [Js.trimStart] in H. rewrite Hc in H.
    pose proof (length_trimEnd (Js.trimStart s)) as H1.
    pose proof (SanitizerFacts.length_trimStart s) as H2.
    rewrite H in H1. cbn [String.length] in H1. lia.
  - cbn [Js.trimStart] in H. rewrite Hc in H. auto.
Qed.

Lemma trim_padded s : Js.trim s = s -> Js.trim (" " ++ s ++ " ") = s.
Proof.
  intro H. destruct (trim_fixed s H) as [He Hs].
  unfold Js.trim. change (" " ++ s ++ " ") with (String " " (s ++ " ")).
  cbn [Js.trimStart].
  replace (Js.isSpace " ") with true by (vm_compute; reflexivity).
  destruct s as [| c s]; [reflexivity | ].
  cbn [append Js.trimStart]. rewrite Hs.
  change (String c (s ++ " ")) with (String c s ++ " ").
  rewrite trimEnd_space. exact He.
Qed.

Lemma trim_handle h : Js.trim h = h -> Js.trim ("@" ++ h ++ " ") = "@" ++ h.
Proof.
  intro H. destruct (trim_fixed h H) as [He _].
  unfold Js.trim. change ("@" ++ h ++ " ") with (String "@" (h ++ " ")).
  cbn [Js.trimStart].
  replace (Js.isSpace "@") with false by (vm_compute; reflexivity).
  rewrite trimEnd_keep by (vm_compute; reflexivity).
  rewrite trimEnd_space, He. reflexivity.
Qed.

Lemma take_whole s : Js.take (String.length s) s = s.
Proof. induction s as [| c s IH]; simpl; [ | rewrite IH]; reflexivity. Qed.

(** [s.slice(1)] of a text that is not empty. *)
Lemma slice_tail c s : Js.slice (String c s) 1 (Js.length (String c s)) = s.
Proof.
  assert (Hlen : Js.length (String c s)
                 = (Z.of_nat (String.length s) + 1)%Z).
  { unfold Js.length. cbn [String.length]. lia. }
  unfold Js.slice. rewrite Hlen.
  set (n := Z.of_nat (String.length s)).
  assert (Hn : (0 <= n)%Z) by (unfold n; lia).
  replace (1 <? 0)%Z with false by reflexivity.
  replace (n + 1 <? 0)%Z with false by (symmetry; apply Z.ltb_ge; lia).
  replace (Z.min 1 (n + 1)) with 1%Z by lia.
  replace (Z.max (Z.min (n + 1) (n + 1) - 1) 0) with n by lia.
  unfold n. rewrite Nat2Z.id.
  change (Z.to_nat 1) with 1. cbn [Js.drop]. apply take_whole.
Qed.

Lemma splitOn_bar a b :
  avoids "|" a = true ->
  Web.splitOn "|" (a ++ String "|" b) = a :: Web.splitOn "|" b.
Proof.
  induction a as [| x a IH]; intro H.
  - reflexivity.
  - cbn [avoids] in H. apply andb_true_iff in H. destruct H as [Hx Ha].
    apply negb_true_iff in Hx.
    cbn [append Web.splitOn]. rewrite Hx, (IH Ha). reflexivity.
Qed.

(** No label of ten characters with a colon is found before the first
    colon of the line. *)
Lemma colon_guard tail : forall suffix n,
  avoids ":" suffix = true ->
  n <= 9 ->
  avoids ":" (Js.take n (suffix ++ "followers:" ++ tail)) = true.
Proof.
  induction suffix as [| x suffix IH]; intros n Hs Hn.
  - cbn [append].
    do 10 (destruct n as [| n]; [reflexivity | ]). lia.
  - destruct n as [| n]; [reflexivity | ].
    cbn [avoids] in Hs. apply andb_true_iff in Hs. destruct Hs as [Hx Hs].
    cbn [append Js.take avoids]. rewrite Hx. apply IH; [exact Hs | lia].
Qed.

Lemma skip_without_colon L pre tail :
  String.length L = 10 ->
  avoids ":" L = false ->
  avoids ":" pre = true ->
  search true (Web.reCount L) (pre ++ "followers:" ++ tail)
  = search true (Web.reCount L) ("followers:" ++ tail).
Proof.
  intros HL Hcolon Hpre. apply search_skip. intros a b c ->.
  apply exec_count_no_label.
  destruct (matchText true L _) as [rest |] eqn:Hm; [ | reflexivity].
  exfalso.
  rewrite InventFacts.avoids_app in Hpre. apply andb_true_iff in Hpre.
  destruct Hpre as [_ Hbc].
  pose proof (matchText_keeps ":" L _ rest eq_refl Hcolon Hm) as Hk.
  rewrite HL in Hk.
  cbn [avoids] in Hbc. apply andb_true_iff in Hbc. destruct Hbc as [Hb Hc].
  change (avoids ":" (Js.take 10 (String b c ++ "followers:" ++ tail)))
    with (negb (Ascii.eqb b ":")
          && avoids ":" (Js.take 9 (c ++ "followers:" ++ tail))) in Hk.
  rewrite Hb, (colon_guard tail c 9 Hc (le_n 9)) in Hk. discriminate.
Qed.

(** Nor where the first character is not the one the label starts
    with. *)
Lemma skip_other_start a L rest : forall pre,
  Web.allChars (fun c => negb (sameChar true a c)) pre = true ->
  search true (Web.reCount (String a L)) (pre ++ rest)
  = search true (Web.reCount (String a L)) rest.
Proof.
  intros pre Hpre. apply search_skip. intros u b c ->.
  apply exec_count_no_label. cbn [append matchText].
  assert (Hb : sameChar true a b = false).
  { clear - Hpre. induction u as [| x u IH].
    - cbn [append Web.allChars] in Hpre. apply andb_true_iff in Hpre.
      apply negb_true_iff. tauto.
    - cbn [append Web.allChars] in Hpre. apply andb_true_iff in Hpre.
      apply IH. tauto. }
  rewrite Hb. reflexivity.
Qed.

Lemma allChars_app p a b :
  Web.allChars p (a ++ b) = Web.allChars p a && Web.allChars p b.
Proof.
  induction a as [| x a IH]; simpl; [reflexivity | ].
  rewrite IH, andb_assoc. reflexivity.
Qed.

Lemma count_has_no_f v :
  Web.isCount v ->
  Web.allChars (fun c => negb (sameChar true "f" c)) v = true.
Proof.
  intros [digits [unit [-> [_ [Hd Hu]]]]].
  rewrite allChars_app. apply andb_true_iff. split.
  - clear - Hd. induction digits as [| d ds IH]; [reflexivity | ].
    cbn [Web.allChars] in *. apply andb_true_iff in Hd. destruct Hd as [Hd Hds].
    destruct (countChar_facts d Hd) as [_ [_ Hf]].
    rewrite Hf, (IH Hds). reflexivity.
  - destruct Hu as [-> | [u [-> Hu]]]; [reflexivity | ].
    cbn [Web.allChars]. destruct (unitChar_facts u Hu) as [_ Hf].
    rewrite Hf. reflexivity.
Qed.


Lemma search_step ic r c s :
  exec ic r (String c s) = None ->
  search ic r (String c s) = search ic r s.
Proof. intro H. cbn [search]. rewrite H. reflexivity. Qed.

(** The line of the canvas, cut at its bars and at its first label. *)
Lemma formatLine_bars h nm f g :
  Web.formatLine h nm f g
  = ("@" ++ h ++ " ")
    ++ String "|" ((" " ++ nm ++ " ")
                   ++ String "|" (" followers: " ++ f ++ " | following: " ++ g)).
Proof.
  unfold Web.formatLine.
  repeat (progress (rewrite ?FilterFacts.append_assoc; cbn [append])).
  reflexivity.
Qed.

Lemma formatLine_label h nm f g :
  Web.formatLine h nm f g
  = ("@" ++ h ++ " | " ++ nm ++ " | ")
    ++ "followers:" ++ (" " ++ f ++ " | following: " ++ g).
Proof.
  unfold Web.formatLine.
  repeat (progress (rewrite ?FilterFacts.append_assoc; cbn [append])).
  reflexivity.
Qed.

Lemma before_label_no_colon h nm :
  avoids ":" h = true -> avoids ":" nm = true ->
  avoids ":" ("@" ++ h ++ " | " ++ nm ++ " | ") = true.
Proof.
  intros Hh Hn.
  change ("@" ++ h ++ " | " ++ nm ++ " | ")
    with (String "@" (h ++ " | " ++ nm ++ " | ")).
  cbn [avoids]. rewrite !InventFacts.avoids_app, Hh, Hn. reflexivity.
Qed.

Lemma followers_found h nm f g :
  avoids ":" h = true -> avoids ":" nm = true ->
  Web.isCount f ->
  search true Web.reFollowers (Web.formatLine h nm f g) = Some [(1, f)].
Proof.
  intros Hh Hn Hf. rewrite formatLine_label. unfold Web.reFollowers.
  rewrite skip_without_colon;
    [ | reflexivity | reflexivity | apply before_label_no_colon; assumption].
  destruct (exec_count_found "followers:"
              ("followers:" ++ " " ++ f ++ " | following: " ++ g)
              " " f (" | following: " ++ g)) as [n Hn'].
  - reflexivity.
  - reflexivity.
  - exact Hf.
  - right. eexists. reflexivity.
  - apply (search_found _ _ _ _ _ Hn').
Qed.

Lemma following_found h nm f g :
  avoids ":" h = true -> avoids ":" nm = true ->
  Web.isCount f -> Web.isCount g ->
  search true Web.reFollowing (Web.formatLine h nm f g) = Some [(1, g)].
Proof.
  intros Hh Hn Hf Hg. rewrite formatLine_label. unfold Web.reFollowing.
  rewrite skip_without_colon;
    [ | reflexivity | reflexivity | apply before_label_no_colon; assumption].
  replace ("followers:" ++ " " ++ f ++ " | following: " ++ g)
    with (String "f" (("ollowers: " ++ f ++ " | ") ++ "following: " ++ g))
    by (repeat (progress (rewrite ?FilterFacts.append_assoc; cbn [append]));
        reflexivity).
  rewrite search_step by (apply exec_count_no_label; reflexivity).
  rewrite skip_other_start.
  - destruct (exec_count_found "following:" ("following: " ++ g)
                " " g EmptyString) as [n Hn'].
    + rewrite append_empty. reflexivity.
    + reflexivity.
    + exact Hg.
    + left. reflexivity.
    + apply (search_found _ _ _ _ _ Hn').
  - change ("ollowers: " ++ f ++ " | ")
      with ("ollowers: " ++ (f ++ " | ")).
    rewrite allChars_app, allChars_app, (count_has_no_f f Hf). reflexivity.
Qed.

End LineFacts.

(** X24. A line written in the form [@handle | name | followers: N |
    following: M] is read back as it was written: the handle without its
    at sign, both counts as they stand, and the name, or the handle in its
    place when the name is empty. A name of more than fifteen characters
    comes back as the bio, with the handle for a name. Handle and name are
    free of bars and colons and have no white space at their ends. *)
Theorem parseLine_formatLine :
  forall (handle displayName followers following : string),
    Text.avoids "|" handle = true ->
    Text.avoids ":" handle = true ->
    Js.trim handle = handle ->
    Text.avoids "|" displayName = true ->
    Text.avoids ":" displayName = true ->
    Js.trim displayName = displayName ->
    Web.isCount followers ->
    Web.isCount following ->
    Web.parseLine (Web.formatLine handle displayName followers following)
    = Web.mkInfluencer handle
        (if 15 <? String.length displayName then handle
         else if Js.truthy displayName then displayName else handle)
        (if 15 <? String.length displayName then displayName else EmptyString)
        (Some followers) (Some following).
Proof.
  intros h nm f g Hh1 Hh2 Hh3 Hn1 Hn2 Hn3 Hf Hg.
  unfold Web.parseLine. cbv zeta.
  rewrite (LineFacts.followers_found h nm f g Hh2 Hn2 Hf).
  rewrite (LineFacts.following_found h nm f g Hh2 Hn2 Hf Hg).
  rewrite LineFacts.formatLine_bars.
  rewrite !LineFacts.splitOn_bar.
  - cbn [map nth Web.firstGroup Regex.capture Nat.eqb].
    rewrite (LineFacts.trim_handle h Hh3), (LineFacts.trim_padded nm Hn3).
    change ("@" ++ h) with (String "@" h).
    cbn [Js.startsWith Ascii.eqb Bool.eqb andb].
    rewrite LineFacts.slice_tail.
    destruct (15 <? String.length nm); [destruct h | destruct nm];
      reflexivity.
  - change (" " ++ nm ++ " ") with (String " " (nm ++ " ")).
    cbn [Text.avoids]. rewrite InventFacts.avoids_app, Hn1. reflexivity.
  - change ("@" ++ h ++ " ") with (String "@" (h ++ " ")).
    cbn [Text.avoids]. rewrite InventFacts.avoids_app, Hh1. reflexivity.
Qed.

Lemma parseLine_formatLine_witness :
  Web.parseLine
    (Web.formatLine "busan_eats" "Busan Eats" "37.5k" "1,204")
  = Web.mkInfluencer "busan_eats" "Busan Eats" EmptyString
      (Some "37.5k") (Some "1,204").
Proof.
  apply (parseLine_formatLine "busan_eats" "Busan Eats" "37.5k" "1,204");
    try reflexivity.
  - exists "37.5", "k". repeat split; try reflexivity; try discriminate.
    right. exists "k"%char. split; reflexivity.
  - exists "1,204", EmptyString.
    repeat split; try reflexivity; try discriminate. left. reflexivity.
Defined.

(* ===================================================================== *)
(** * The list of tabs *)
(* ===================================================================== *)

Module ListFacts.

Lemma join_contains sep t : forall names,
  In t names -> Js.contains (Js.join sep names) t.
Proof.
  induction names as [| x names IH]; [intros [] | ].
  intros [-> | Hin].
  - destruct names as [| y names].
    + exists EmptyString, EmptyString. cbn [Js.join append].
      rewrite LineFacts.append_empty. reflexivity.
    + exists EmptyString, (sep ++ Js.join sep (y :: names)). reflexivity.
  - destruct (IH Hin) as [pre [post Hj]].
    destruct names as [| y names]; [destruct Hin | ].
    exists (x ++ sep ++ pre), post.
    change (Js.join sep (x :: y :: names))
      with (x ++ sep ++ Js.join sep (y :: names)).
    rewrite Hj, !FilterFacts.append_assoc. reflexivity.
Qed.

End ListFacts.

(** X25. Listing the tabs never fails and changes nothing but the
    sink: with no tab registered it says so, and otherwise its one line
    names every tab that a lookup by name would find. *)
Theorem list_tabs_complete :
  forall (E : Engine) (agentName : string) (w : World),
    (globalPages w = [] ->
       Actions.execute E agentName Actions.list_tabs w
       = (Ok tt,
          ActionNotions.withMessage w
            ("[" ++ agentName ++ "] No tabs are currently open.")))
    /\ (forall (tabName : string) (page : Page),
          MapOps.get tabName (globalPages w) = Some page ->
          exists pre post,
            Actions.execute E agentName Actions.list_tabs w
            = (Ok tt,
               ActionNotions.withMessage w
                 ("[" ++ agentName ++ "] Currently open tabs: "
                  ++ pre ++ tabName ++ post))).
Proof.
  intros E agentName w. split.
  - intro Hw. cbn [Actions.execute]. unfold Actions.ListTabsAction.
    unfold tryCatch, bind, getChromePageNames, gets. rewrite Hw. reflexivity.
  - intros t p Hget.
    pose proof (MapFacts.get_In_keys _ _ _ Hget) as Hin.
    destruct (ListFacts.join_contains ", " t _ Hin) as [pre [post Hj]].
    exists pre, post.
    cbn [Actions.execute]. unfold Actions.ListTabsAction.
    unfold tryCatch, bind, getChromePageNames, gets.
    destruct (MapOps.keys (globalPages w)) as [| x names] eqn:Hk;
      [destruct Hin | ].
    rewrite <- Hj. reflexivity.
Qed.

Lemma list_tabs_complete_witness :
  exists pre post,
    Actions.execute Samples.workingEngine "Samo" Actions.list_tabs
      Samples.twoTabs
    = (Ok tt,
       ActionNotions.withMessage Samples.twoTabs
         ("[Samo] Currently open tabs: " ++ pre ++ "post_profile" ++ post)).
Proof.
  apply (proj2 (list_tabs_complete Samples.workingEngine "Samo"
                  Samples.twoTabs) "post_profile" 8).
  reflexivity.
Defined.
